(** * Aritmetica PvP: the expression search engine, the scoring engine,
      the streak tracker and the multiplayer match coordinator

    A shallow embedding of [src/utils/gameLogic.js] (module [GameLogic]) and
    of [server/gameManager.js] (module [GameManager]), followed by the
    properties of the specification that are about them.

    Conventions of the embedding:
    - a JavaScript number that the code keeps integral (cards, targets,
      health, damage, streaks) is a [Z]; a number that comes out of the
      evaluation of a player's expression is a [Q] (every finite double is a
      rational; [null] is [None]);
    - [Math.random()] is an oracle: every function that draws random numbers
      takes the successive draws as a list of rationals in [0,1);
    - the [Map] of running games is a [gmap string Game.t], and a function
      that mutates a game returns the map after the call.

    The modules [Samples] and [Spec] hold the sample rounds and the
    vocabulary that the statements use. *)

From Stdlib Require Import ZArith QArith Qabs Qround List Bool Lia Lqa Permutation.
From Stdlib Require Import Ascii String DecimalString.
From stdpp Require Import gmap strings list.

Local Open Scope string_scope.
Local Open Scope list_scope.
Local Open Scope Z_scope.

(** ** What the embedding needs of the JavaScript run time *)

Module JS.

(** [n.toString()] and the interpolation of an integral number in a template
    literal: decimal digits, with a leading minus sign. *)
Definition toString (n : Z) : string := NilZero.string_of_int (Z.to_int n).

(** [Math.max], [Math.min] and [Math.abs] on integral numbers are
    [Z.max], [Z.min] and [Z.abs]. *)

(** Strict and lax comparison of rationals as booleans. *)
Definition Qltb (a b : Q) : bool := negb (Qle_bool b a).
Definition Qleb (a b : Q) : bool := Qle_bool a b.
Definition Qeqb (a b : Q) : bool := Qeq_bool a b.

(** [s.trim() === ''] : the string holds white space only. *)
Definition isSpace (c : ascii) : bool :=
  let n := nat_of_ascii c in
  ((n =? 32) || (n =? 9) || (n =? 10) || (n =? 11) || (n =? 12) || (n =? 13))%nat.

Fixpoint isBlank (s : string) : bool :=
  match s with
  | EmptyString => true
  | String c r => isSpace c && isBlank r
  end.

Definition isDigit (c : ascii) : bool :=
  let n := nat_of_ascii c in ((48 <=? n) && (n <=? 57))%nat.

Definition digitVal (c : ascii) : Z := Z.of_nat (nat_of_ascii c) - 48.

(** *** Arithmetic evaluation

    The game hands expressions to [eval].  What [eval] does on the strings of
    the game's grammar (integer literals, [+ - * /], unary signs, parentheses
    and blanks) is standard: [*] and [/] bind tighter than [+] and [-], all
    four associate to the left.  [evalArith] is that evaluator, on exact
    rationals; it yields [None] for a string outside the grammar and for a
    division by zero (where [eval] throws, or yields [NaN] or an infinity). *)

Inductive token : Type :=
| TNum (n : Z)
| TPlus | TMinus | TTimes | TDiv
| TLParen | TRParen.

(** [lexNum acc s] reads the digits that continue a literal whose value so far
    is [acc]. *)
Fixpoint lexNum (acc : Z) (s : string) : Z * string :=
  match s with
  | String c r => if isDigit c then lexNum (10 * acc + digitVal c) r else (acc, s)
  | EmptyString => (acc, s)
  end.

Fixpoint tokenize (fuel : nat) (s : string) : option (list token) :=
  match fuel with
  | O => None
  | S fuel' =>
    match s with
    | EmptyString => Some []
    | String c r =>
      if isSpace c then tokenize fuel' r
      else if isDigit c then
        let '(n, r') := lexNum (digitVal c) r in
        cons (TNum n) <$> tokenize fuel' r'
      else if (c =? "+")%char then cons TPlus <$> tokenize fuel' r
      else if (c =? "-")%char then cons TMinus <$> tokenize fuel' r
      else if (c =? "*")%char then cons TTimes <$> tokenize fuel' r
      else if (c =? "/")%char then cons TDiv <$> tokenize fuel' r
      else if (c =? "(")%char then cons TLParen <$> tokenize fuel' r
      else if (c =? ")")%char then cons TRParen <$> tokenize fuel' r
      else None
    end
  end.

Section Parser.
(** The parser of a parenthesised sub-expression, one nesting level down. *)
Variable parseInner : list token -> option (Q * list token).

Definition parseAtom (ts : list token) : option (Q * list token) :=
  match ts with
  | TNum n :: r => Some (inject_Z n, r)
  | TLParen :: r =>
    match parseInner r with
    | Some (v, TRParen :: r') => Some (v, r')
    | _ => None
    end
  | _ => None
  end.

Fixpoint parseUnary (k : nat) (ts : list token) : option (Q * list token) :=
  match ts, k with
  | TMinus :: r, S k' =>
    match parseUnary k' r with
    | Some (v, r') => Some (Qopp v, r')
    | None => None
    end
  | TPlus :: r, S k' => parseUnary k' r
  | _, _ => parseAtom ts
  end.

Fixpoint parseTermRest (k : nat) (acc : Q) (ts : list token) : option (Q * list token) :=
  match ts, k with
  | TTimes :: r, S k' =>
    match parseUnary k' r with
    | Some (v, r') => parseTermRest k' (Qmult acc v) r'
    | None => None
    end
  | TDiv :: r, S k' =>
    match parseUnary k' r with
    | Some (v, r') =>
      if Qeq_bool v 0 then None else parseTermRest k' (Qdiv acc v) r'
    | None => None
    end
  | _, _ => Some (acc, ts)
  end.

Definition parseTerm (k : nat) (ts : list token) : option (Q * list token) :=
  match parseUnary k ts with
  | Some (v, r) => parseTermRest k v r
  | None => None
  end.

Fixpoint parseSumRest (k : nat) (acc : Q) (ts : list token) : option (Q * list token) :=
  match ts, k with
  | TPlus :: r, S k' =>
    match parseTerm k' r with
    | Some (v, r') => parseSumRest k' (Qplus acc v) r'
    | None => None
    end
  | TMinus :: r, S k' =>
    match parseTerm k' r with
    | Some (v, r') => parseSumRest k' (Qminus acc v) r'
    | None => None
    end
  | _, _ => Some (acc, ts)
  end.

Definition parseSum (k : nat) (ts : list token) : option (Q * list token) :=
  match parseTerm k ts with
  | Some (v, r) => parseSumRest k v r
  | None => None
  end.
End Parser.

Fixpoint parseExpr (depth : nat) (ts : list token) : option (Q * list token) :=
  match depth with
  | O => None
  | S d => parseSum (parseExpr d) (List.length ts) ts
  end.

Definition evalArith (s : string) : option Q :=
  match tokenize (S (String.length s)) s with
  | Some ts =>
    match parseExpr (S (List.length ts)) ts with
    | Some (v, []) => Some (Qred v)
    | _ => None
    end
  | None => None
  end.

End JS.

(** ** [src/utils/gameLogic.js]: search engine, scoring engine, streaks *)

Module Range.
Record t : Type := { min : Z; max : Z }.
End Range.

Module GameLogic.

Record VariableConfig : Type := {
  enabled : bool;
  variables : list string;
  range : Range.t;
  bonusMultiplier : Q
}.

Record AccuracyThresholds : Type := {
  perfect : Z; excellent : Z; good : Z; ok : Z; miss : Z
}.

Record StreakTier : Type := {
  minStreak : Z;
  tierName : string;
  tierEmoji : string;
  bonus : Z;
  intensity : Z;
  tierColor : string
}.

Record DifficultyConfig : Type := {
  name : string;
  emoji : string;
  description : string;
  color : string;
  cardRange : Range.t;
  cardCount : Z;
  targetRange : Range.t;
  operators : list string;
  operatorSymbols : list string;
  allowParentheses : bool;
  variableConfig : VariableConfig;
  accuracyThresholds : AccuracyThresholds;
  playerHp : Z;
  streakConfig : list StreakTier
}.

Definition tier (m : Z) (n e : string) (b i : Z) (c : string) : StreakTier :=
  {| minStreak := m; tierName := n; tierEmoji := e; bonus := b; intensity := i; tierColor := c |}.

Definition easy : DifficultyConfig := {|
  name := "Fácil";
  emoji := "🌱";
  description := "Números pequeños, operaciones simples. ¡Perfecto para calentar!";
  color := "#34C759";
  cardRange := {| Range.min := 1; Range.max := 9 |};
  cardCount := 4;
  targetRange := {| Range.min := 10; Range.max := 30 |};
  operators := ["+"; "-"];
  operatorSymbols := ["+"; "−"];
  allowParentheses := false;
  variableConfig := {| enabled := false; variables := [];
                       range := {| Range.min := 0; Range.max := 0 |};
                       bonusMultiplier := 1 |};
  accuracyThresholds := {| perfect := 0; excellent := 3; good := 6; ok := 10; miss := 15 |};
  playerHp := 150;
  streakConfig := [
    tier 0 "" "" 0 0 "transparent";
    tier 3 "Calentando" "🔥" 5 1 "#FF9F0A";
    tier 4 "Encendido" "🔥🔥" 10 2 "#FF6B35";
    tier 5 "On Fire" "🔥🔥🔥" 15 3 "#FF453A";
    tier 6 "IMPARABLE" "🤯" 25 4 "#AC8E68" ]
|}.

Definition medium : DifficultyConfig := {|
  name := "Medio";
  emoji := "⚔️";
  description := "Álgebra básica con variable x. ¡El verdadero desafío matemático!";
  color := "#FF9F0A";
  cardRange := {| Range.min := 2; Range.max := 10 |};
  cardCount := 3;
  targetRange := {| Range.min := 15; Range.max := 50 |};
  operators := ["+"; "-"; "*"; "/"];
  operatorSymbols := ["+"; "−"; "×"; "÷"];
  allowParentheses := true;
  variableConfig := {| enabled := true; variables := ["x"];
                       range := {| Range.min := 2; Range.max := 9 |};
                       bonusMultiplier := 11 # 10 |};
  accuracyThresholds := {| perfect := 0; excellent := 2; good := 4; ok := 7; miss := 12 |};
  playerHp := 200;
  streakConfig := [
    tier 0 "" "" 0 0 "transparent";
    tier 2 "En Fuego" "🔥" 8 1 "#FF9F0A";
    tier 3 "Imparable" "🔥🔥" 15 2 "#FF6B35";
    tier 4 "Dominando" "🔥🔥🔥" 25 3 "#FF453A";
    tier 5 "LEGENDARIO" "💀" 40 4 "#FFD60A" ]
|}.

Definition hard : DifficultyConfig := {|
  name := "Difícil";
  emoji := "💀";
  description := "Álgebra avanzada con variables x e y. ¡Solo para maestros!";
  color := "#FF453A";
  cardRange := {| Range.min := 2; Range.max := 20 |};
  cardCount := 3;
  targetRange := {| Range.min := 80; Range.max := 200 |};
  operators := ["+"; "-"; "*"; "/"];
  operatorSymbols := ["+"; "−"; "×"; "÷"];
  allowParentheses := true;
  variableConfig := {| enabled := true; variables := ["x"; "y"];
                       range := {| Range.min := 2; Range.max := 9 |};
                       bonusMultiplier := 11 # 10 |};
  accuracyThresholds := {| perfect := 0; excellent := 1; good := 2; ok := 4; miss := 8 |};
  playerHp := 250;
  streakConfig := [
    tier 0 "" "" 0 0 "transparent";
    tier 2 "Brutal" "⚡" 15 1 "#FF453A";
    tier 3 "Sádico" "⚡⚡" 30 2 "#BF5AF2";
    tier 4 "DIOS" "⚡⚡⚡" 50 3 "#5E5CE6";
    tier 5 "CALCULADORA HUMANA" "🧠" 80 4 "#FFFFFF" ]
|}.

(** [DIFFICULTY_CONFIG[difficulty] || DIFFICULTY_CONFIG.medium]: a key other
    than the three of the table falls back to the medium profile. *)
Definition DIFFICULTY_CONFIG (difficulty : string) : DifficultyConfig :=
  if String.eqb difficulty "easy" then easy
  else if String.eqb difficulty "hard" then hard
  else medium.

(** A round's bound variables, [{ x: 4, y: 7 }], in insertion order (the order
    [Object.entries] and [Object.values] follow). *)
Definition VariableValues : Type := list (string * Z).

(** *** Reachability search: the [explore] of [generateTargetByDifficulty] *)

(** [currentNumbers.filter((_, idx) => idx !== i && idx !== j)] *)
Fixpoint removeTwoFrom {A : Type} (idx i j : nat) (l : list A) : list A :=
  match l with
  | [] => []
  | x :: r =>
    if ((idx =? i) || (idx =? j))%nat then removeTwoFrom (S idx) i j r
    else x :: removeTwoFrom (S idx) i j r
  end.

Definition remaining {A : Type} (i j : nat) (l : list A) : list A := removeTwoFrom 0 i j l.

(** The values one pair yields, in the order the code pushes them: sum,
    difference, and unless the difficulty is easy the product and, when the
    divisor is not zero and divides exactly, the quotient. *)
Definition nextSteps (difficulty : string) (a b : Z) : list Z :=
  [a + b; a - b] ++
  (if negb (String.eqb difficulty "easy")
   then [a * b] ++ (if negb (b =? 0) && (Z.rem a b =? 0) then [Z.quot a b] else [])
   else []).

(** [possibleResults.add(Math.abs(num))] on a [Set] that keeps insertion
    order ([Number.isInteger] always holds of a [Z]). *)
Definition addResult (possibleResults : list Z) (num : Z) : list Z :=
  if decide (Z.abs num ∈ possibleResults) then possibleResults
  else possibleResults ++ [Z.abs num].

(** All ordered pairs [(i, j)] of distinct indices below [n], in the order of
    the two nested loops. *)
Definition indexPairs (n : nat) : list (nat * nat) :=
  filter (fun p => fst p ≠ snd p) (list_prod (seq 0 n) (seq 0 n)).

(** [explore fuel difficulty currentNumbers possibleResults] is the set after
    the call [explore(currentNumbers)].  Every recursive call is on a list one
    shorter, so [fuel = length currentNumbers] is enough. *)
Fixpoint explore (fuel : nat) (difficulty : string) (currentNumbers : list Z)
    (possibleResults : list Z) : list Z :=
  let recorded := fold_left addResult currentNumbers possibleResults in
  if (List.length currentNumbers =? 1)%nat then recorded
  else
    match fuel with
    | O => recorded
    | S fuel' =>
      fold_left
        (fun acc '(i, j) =>
           let a := nth i currentNumbers 0 in
           let b := nth j currentNumbers 0 in
           fold_left
             (fun acc' res => explore fuel' difficulty (res :: remaining i j currentNumbers) acc')
             (nextSteps difficulty a b) acc)
        (indexPairs (List.length currentNumbers)) recorded
    end.

(** The reachable set of a multiset of numbers. *)
Definition reachableSet (difficulty : string) (allNumbers : list Z) : list Z :=
  explore (List.length allNumbers) difficulty allNumbers [].

(** *** Target selection *)

Definition inRange (r : Range.t) (val : Z) : bool :=
  (Range.min r <=? val) && (val <=? Range.max r).

(** Distance of a value to the range, the key of the fallback's sort. *)
Definition distToRange (r : Range.t) (a : Z) : Z :=
  if a <? Range.min r then Range.min r - a
  else if a >? Range.max r then a - Range.max r else 0.

(** [Array.prototype.sort] is stable: an element goes after those that do not
    compare greater. *)
Fixpoint insertByDist (r : Range.t) (x : Z) (sorted : list Z) : list Z :=
  match sorted with
  | [] => [x]
  | y :: rest =>
    if distToRange r y - distToRange r x <=? 0 then y :: insertByDist r x rest
    else x :: sorted
  end.

Definition sortByDist (r : Range.t) (l : list Z) : list Z :=
  fold_left (fun acc x => insertByDist r x acc) l [].

Definition clamp (r : Range.t) (v : Z) : Z := Z.max (Range.min r) (Z.min (Range.max r) v).

(** [generateTargetByDifficulty(difficulty, cards, variableValues)]; [u] is
    the outcome of the one [Math.random()] call.  [None] stands for
    [undefined] (an index past the end, impossible for [0 <= u < 1]). *)
Definition generateTargetByDifficulty (difficulty : string) (cards : list Z)
    (variableValues : VariableValues) (u : Q) : option Z :=
  let config := DIFFICULTY_CONFIG difficulty in
  let r := targetRange config in
  let allNumbers := cards ++ map snd variableValues in
  let possibleResults := reachableSet difficulty allNumbers in
  let validTargets := List.filter (inRange r) possibleResults in
  if (0 <? List.length validTargets)%nat then
    validTargets !! Z.to_nat (Qfloor (u * inject_Z (Z.of_nat (List.length validTargets))))
  else
    let allResults := List.filter (fun val => val >? 0) possibleResults in
    match sortByDist r allResults with
    | closest :: _ => Some (clamp r closest)
    | [] => Some (clamp r (fold_left Z.add allNumbers 0))
    end.

(** *** Solution search: [findSolution] *)

(** A node of the search: [{ value, expr, precedence }], precedence 3 for an
    atom, 2 for a product or quotient, 1 for a sum or difference. *)
Record Item : Type := { value : Z; expr : string; precedence : Z }.

(** [(item.precedence && item.precedence < myPrec) ? `(${item.expr})` : item.expr] *)
Definition wrap (item : Item) (myPrec : Z) : string :=
  if negb (precedence item =? 0) && (precedence item <? myPrec)
  then "(" +:+ expr item +:+ ")"
  else expr item.

(** The candidates one ordered pair yields (the array [ops] after it has been
    reset and refilled). *)
Definition ops (difficulty : string) (a b : Item) : list Item :=
  [ {| value := value a + value b;
       expr := expr a +:+ " + " +:+ expr b;
       precedence := 1 |};
    {| value := value a - value b;
       expr := expr a +:+ " - " +:+ wrap b 2;
       precedence := 1 |} ] ++
  (if negb (String.eqb difficulty "easy")
   then [ {| value := value a * value b;
             expr := wrap a 2 +:+ " * " +:+ wrap b 2;
             precedence := 2 |} ] ++
        (if negb (value b =? 0) && (Z.rem (value a) (value b) =? 0)
         then [ {| value := Z.quot (value a) (value b);
                   expr := wrap a 2 +:+ " / " +:+ wrap b 2;
                   precedence := 2 |} ]
         else [])
   else []).

(** [Math.abs(item.value - target) < 0.0001] *)
Definition matches (target : Z) (item : Item) : bool :=
  JS.Qltb (Qabs (inject_Z (value item) - inject_Z target)) (1 # 10000).

(** Truthiness of [result], which is [null] or a string. *)
Definition truthy (result : option string) : bool :=
  match result with
  | Some s => negb (String.eqb s "")
  | None => false
  end.

(** [exploreItems fuel difficulty target currentItems result] is the variable
    [result] after the call [explore(currentItems)] made when it held
    [result].  The early [return]s of the loops are the tests of [truthy]:
    once [result] is set nothing changes it. *)
Fixpoint exploreItems (fuel : nat) (difficulty : string) (target : Z)
    (currentItems : list Item) (result : option string) : option string :=
  if truthy result then result
  else
    match List.find (matches target) currentItems with
    | Some item => Some (expr item)
    | None =>
      if (List.length currentItems =? 1)%nat then result
      else
        match fuel with
        | O => result
        | S fuel' =>
          fold_left
            (fun acc '(i, j) =>
               match currentItems !! i, currentItems !! j with
               | Some a, Some b =>
                 fold_left
                   (fun acc' op =>
                      if truthy acc' then acc'
                      else exploreItems fuel' difficulty target
                             (op :: remaining i j currentItems) acc')
                   (ops difficulty a b) acc
               | _, _ => acc
               end)
            (indexPairs (List.length currentItems)) result
        end
    end.

Definition notFound : string := "Sin solución encontrada??".

Definition findSolution (target : Z) (cards : list Z) (difficulty : string)
    (variableValues : VariableValues) : string :=
  let initialItems :=
    map (fun c => {| value := c; expr := JS.toString c; precedence := 3 |}) cards ++
    map (fun '(symbol, v) => {| value := v; expr := symbol; precedence := 3 |}) variableValues in
  match exploreItems (List.length initialItems) difficulty target initialItems None with
  | Some s => if truthy (Some s) then s else notFound
  | None => notFound
  end.

(** *** Evaluation of an expression with variables *)

(** [s.replace(new RegExp(pat, 'g'), rep)] for a pattern without regular
    expression operators: the occurrences of [pat], leftmost first and not
    overlapping, become [rep].  [skip] counts the characters of a match that
    are still to be passed over. *)
Fixpoint replaceAllFrom (pat rep : string) (skip : nat) (s : string) : string :=
  match s with
  | EmptyString => EmptyString
  | String c r =>
    match skip with
    | S k => replaceAllFrom pat rep k r
    | O =>
      if negb (String.eqb pat "") && String.prefix pat s
      then rep +:+ replaceAllFrom pat rep (Nat.pred (String.length pat)) r
      else String c (replaceAllFrom pat rep O r)
    end
  end.

Definition replaceAll (pat rep s : string) : string := replaceAllFrom pat rep O s.

(** The same for a pattern that is one character of the class [before]
    followed by [pat]; the character is kept, in front of [rep]. *)
Fixpoint replaceAfterFrom (before : ascii -> bool) (pat rep : string) (skip : nat)
    (s : string) : string :=
  match s with
  | EmptyString => EmptyString
  | String c r =>
    match skip with
    | S k => replaceAfterFrom before pat rep k r
    | O =>
      if before c && String.prefix pat r
      then String c (rep +:+ replaceAfterFrom before pat rep (String.length pat) r)
      else String c (replaceAfterFrom before pat rep O r)
    end
  end.

Definition replaceAfter (before : ascii -> bool) (pat rep s : string) : string :=
  replaceAfterFrom before pat rep O s.

Section Evaluation.
(** The [eval] of the run time, on the strings that denote a number. *)
Variable eval : string -> option Q.

(** [evaluateExpressionWithVariables(expression, variableValues)] *)
Definition evaluateExpressionWithVariables (expression : string)
    (variableValues : VariableValues) : option Q :=
  let evaluableExpr :=
    fold_left
      (fun e '(symbol, v) =>
         let e1 := replaceAfter JS.isDigit symbol ("*" +:+ JS.toString v) e in
         let e2 := replaceAfter (fun c => (c =? ")")%char) symbol ("*" +:+ JS.toString v) e1 in
         replaceAll symbol (JS.toString v) e2)
      variableValues expression in
  eval evaluableExpr.
End Evaluation.

(** *** Scoring engine: [calculateNormalizedDamage] *)

(** The object the function returns, without its two display strings
    ([accuracyLabel] and [bonusBreakdown], which print the difference). *)
Record DamageResult : Type := {
  damage : Z;
  rawDamage : Z;
  baseDamage : Z;
  cardBonus : Z;
  operatorBonus : Z;
  divisionBonus : Z;
  accuracyMultiplier : Q;
  accuracyType : string;
  isMasterPlay : bool;
  missed : bool
}.

Definition BASE_DAMAGE : Z := 20.

(** [CARD_BONUSES[cardsUsed] || 0] with [CARD_BONUSES = { 2: 0, 3: 10, 4: 25 }] *)
Definition CARD_BONUSES (cardsUsed : Z) : Z :=
  if cardsUsed =? 3 then 10 else if cardsUsed =? 4 then 25 else 0.

Definition calculateNormalizedDamage (cardsUsed : Z) (operatorsUsed : list string)
    (difference : Q) (hasExactDivision : bool) : DamageResult :=
  let uniqueOperators : gset string := list_to_set operatorsUsed in
  let cardBonus := CARD_BONUSES cardsUsed in
  let operatorBonus := Z.of_nat (size uniqueOperators) * 5 in
  let divisionBonus :=
    if hasExactDivision && bool_decide ("/" ∈ uniqueOperators) then 10 else 0 in
  let rawDamage := BASE_DAMAGE + cardBonus + operatorBonus + divisionBonus in
  let scaled (accuracyMultiplier : Q) (accuracyType : string) := {|
    damage := Qfloor (inject_Z rawDamage * accuracyMultiplier);
    rawDamage := rawDamage;
    baseDamage := BASE_DAMAGE;
    cardBonus := cardBonus;
    operatorBonus := operatorBonus;
    divisionBonus := divisionBonus;
    accuracyMultiplier := accuracyMultiplier;
    accuracyType := accuracyType;
    isMasterPlay :=
      (cardsUsed =? 4) && (3 <=? Z.of_nat (size uniqueOperators)) && JS.Qeqb difference 0;
    missed := false |} in
  if JS.Qeqb difference 0 then scaled 1%Q "perfect"
  else if JS.Qleb difference 5 then scaled (3 # 4)%Q "close"
  else if JS.Qleb difference 10 then scaled (1 # 2)%Q "far"
  else {|
    damage := 0;
    rawDamage := 0;
    baseDamage := BASE_DAMAGE;
    cardBonus := 0;
    operatorBonus := 0;
    divisionBonus := 0;
    accuracyMultiplier := 0;
    accuracyType := "miss";
    isMasterPlay := false;
    missed := true |}.

(** *** Streak tracker *)

(** [{ ...config[i], currentStreak: streak }] *)
Record CurrentTier : Type := { entry : StreakTier; currentStreak : Z }.

(** The spread of [undefined], for a table without entries. *)
Definition noTier : StreakTier := tier 0 "" "" 0 0 "".

(** [getStreakTier(streak, difficulty)]: the table is scanned from its last
    entry down to the first. *)
Definition getStreakTier (streak : Z) (difficulty : string) : CurrentTier :=
  let config := streakConfig (DIFFICULTY_CONFIG difficulty) in
  match List.find (fun t => minStreak t <=? streak) (rev config) with
  | Some t => {| entry := t; currentStreak := streak |}
  | None => {| entry := hd noTier config; currentStreak := streak |}
  end.

Record StreakResult : Type := {
  oldStreak : Z;
  newStreak : Z;
  streakBonus : Z;
  newTier : CurrentTier;
  tierChanged : bool;
  tierUp : bool;
  streakBroken : bool;
  showAnimation : bool
}.

Definition calculateStreakBonus (currentStreak : Z) (isPerfect : bool)
    (difficulty : string) : StreakResult :=
  let newStreak := if isPerfect then currentStreak + 1 else 0 in
  let oldTier := getStreakTier currentStreak difficulty in
  let newTier := getStreakTier newStreak difficulty in
  let tierUp := intensity (entry newTier) >? intensity (entry oldTier) in
  {| oldStreak := currentStreak;
     newStreak := newStreak;
     streakBonus := bonus (entry newTier);
     newTier := newTier;
     tierChanged := negb (intensity (entry newTier) =? intensity (entry oldTier));
     tierUp := tierUp;
     streakBroken := negb isPerfect && (currentStreak >=? 2);
     showAnimation := tierUp |}.

(** *** Generation of the cards on the client *)

(** [Math.floor(Math.random() * (max - min + 1)) + min], [u] being the
    outcome of [Math.random()]. *)
Definition randomIn (r : Range.t) (u : Q) : Z :=
  Qfloor (u * inject_Z (Range.max r - Range.min r + 1)) + Range.min r.

(** [{ cards, variables, allCards }]; a variable is [{ symbol, value }], and
    [allCards] holds the numbers and then the variables. *)
Record Dealt : Type := {
  cards : list Z;
  dealtVariables : list (string * Z);
  allCards : list (Z + string * Z)
}.

(** [generateCardsByDifficulty(difficulty)]; [us] are the outcomes of
    [Math.random()] for the cards and [vs] those for the variables. *)
Definition generateCardsByDifficulty (difficulty : string) (us vs : list Q) : Dealt :=
  let config := DIFFICULTY_CONFIG difficulty in
  let cardCount := if cardCount config =? 0 then 4 else cardCount config in
  let cards :=
    map (fun i => randomIn (cardRange config) (nth i us 0%Q)) (seq 0 (Z.to_nat cardCount)) in
  let variables :=
    if enabled (variableConfig config)
    then imap (fun i symbol => (symbol, randomIn (range (variableConfig config)) (nth i vs 0%Q)))
              (variables (variableConfig config))
    else [] in
  {| cards := cards; dealtVariables := variables;
     allCards := map inl cards ++ map inr variables |}.

(** [generateVariableValues(difficulty)], the object [{ x: 4, y: 7 }]. *)
Definition generateVariableValues (difficulty : string) (vs : list Q) : VariableValues :=
  let config := DIFFICULTY_CONFIG difficulty in
  if enabled (variableConfig config)
  then imap (fun i symbol => (symbol, randomIn (range (variableConfig config)) (nth i vs 0%Q)))
            (variables (variableConfig config))
  else [].

(** *** Operators and parentheses of an expression *)

Definition isOperator (c : ascii) : bool :=
  ((c =? "+") || (c =? "-") || (c =? "*") || (c =? "/"))%char.

(** [getOperatorsFromExpression(expression)]: the matches of
    [/[\+\-\*\/]/g], in order. *)
Fixpoint getOperatorsFromExpression (expression : string) : list string :=
  match expression with
  | EmptyString => []
  | String c r =>
    if isOperator c then String c EmptyString :: getOperatorsFromExpression r
    else getOperatorsFromExpression r
  end.

(** [{ isValid, openCount, closeCount, message }] *)
Record ParenValidation : Type := {
  isValid : bool;
  openCount : Z;
  closeCount : Z;
  message : string
}.

(** The loop of [validateParentheses] from a character on, with the three
    counters as they are there, and what follows the loop. *)
Fixpoint validateFrom (depth openCount closeCount : Z) (expression : string)
    : ParenValidation :=
  match expression with
  | EmptyString =>
    if negb (depth =? 0)
    then {| isValid := false; openCount := openCount; closeCount := closeCount;
            message := "⚠️ Faltan " +:+ JS.toString depth +:+ " paréntesis de cierre" |}
    else {| isValid := true; openCount := openCount; closeCount := closeCount;
            message := "✓ Paréntesis balanceados" |}
  | String c r =>
    if (c =? "(")%char then validateFrom (depth + 1) (openCount + 1) closeCount r
    else if (c =? ")")%char then
      if depth - 1 <? 0
      then {| isValid := false; openCount := openCount; closeCount := closeCount + 1;
              message := "❌ Paréntesis de cierre sin abrir" |}
      else validateFrom (depth - 1) openCount (closeCount + 1) r
    else validateFrom depth openCount closeCount r
  end.

(** [validateParentheses(expression)] *)
Definition validateParentheses (expression : string) : ParenValidation :=
  validateFrom 0 0 0 expression.

End GameLogic.

(** ** [server/gameManager.js]: the match coordinator *)

Module GameManager.

(** The keys of the server's [DIFFICULTY_CONFIG].  A game is only ever created
    by [initializeGame], which throws on any other key, and its [difficulty]
    is never assigned again: a stored game has one of these three. *)
Inductive Difficulty : Type := easy | medium | hard.

Global Instance Difficulty_eq_dec : EqDecision Difficulty.
Proof. solve_decision. Defined.

Definition difficultyOfKey (key : string) : option Difficulty :=
  if String.eqb key "easy" then Some easy
  else if String.eqb key "medium" then Some medium
  else if String.eqb key "hard" then Some hard
  else None.

Module Thresholds.
Record t : Type := { perfect : Z; excellent : Z; good : Z; ok : Z; miss : Z }.
End Thresholds.

Module VariableConfig.
Record t : Type := { enabled : bool; count : nat; valueRange : Range.t }.
End VariableConfig.

Module Config.
Record t : Type := {
  name : string;
  cardRange : Range.t;
  cardCount : nat;
  targetRange : Range.t;
  allowParentheses : bool;
  operatorSymbols : list string;
  accuracyThresholds : Thresholds.t;
  playerHp : Z;
  variableConfig : option VariableConfig.t
}.
End Config.

Definition DIFFICULTY_CONFIG (difficulty : Difficulty) : Config.t :=
  match difficulty with
  | easy => {|
      Config.name := "Fácil";
      Config.cardRange := {| Range.min := 1; Range.max := 9 |};
      Config.cardCount := 4;
      Config.targetRange := {| Range.min := 5; Range.max := 30 |};
      Config.allowParentheses := false;
      Config.operatorSymbols := ["+"; "-"];
      Config.accuracyThresholds :=
        {| Thresholds.perfect := 0; Thresholds.excellent := 3; Thresholds.good := 6;
           Thresholds.ok := 10; Thresholds.miss := 15 |};
      Config.playerHp := 150;
      Config.variableConfig := None |}
  | medium => {|
      Config.name := "Medio";
      Config.cardRange := {| Range.min := 2; Range.max := 10 |};
      Config.cardCount := 3;
      Config.targetRange := {| Range.min := 10; Range.max := 60 |};
      Config.allowParentheses := true;
      Config.operatorSymbols := ["+"; "-"; "*"];
      Config.accuracyThresholds :=
        {| Thresholds.perfect := 0; Thresholds.excellent := 2; Thresholds.good := 4;
           Thresholds.ok := 7; Thresholds.miss := 12 |};
      Config.playerHp := 200;
      Config.variableConfig :=
        Some {| VariableConfig.enabled := true; VariableConfig.count := 1;
                VariableConfig.valueRange := {| Range.min := 2; Range.max := 8 |} |} |}
  | hard => {|
      Config.name := "Difícil";
      Config.cardRange := {| Range.min := 2; Range.max := 20 |};
      Config.cardCount := 3;
      Config.targetRange := {| Range.min := 20; Range.max := 120 |};
      Config.allowParentheses := true;
      Config.operatorSymbols := ["+"; "-"; "*"; "/"];
      Config.accuracyThresholds :=
        {| Thresholds.perfect := 0; Thresholds.excellent := 1; Thresholds.good := 2;
           Thresholds.ok := 4; Thresholds.miss := 8 |};
      Config.playerHp := 250;
      Config.variableConfig :=
        Some {| VariableConfig.enabled := true; VariableConfig.count := 2;
                VariableConfig.valueRange := {| Range.min := 2; Range.max := 10 |} |} |}
  end.

(** *** State *)

Inductive Status : Type := playing | revealing | waiting_next | finished.

Global Instance Status_eq_dec : EqDecision Status.
Proof. solve_decision. Defined.

(** A variable card, [{ symbol, value }]. *)
Record Variable_ : Type := { symbol : string; value : Z }.

Module Player.
Record t : Type := {
  id : string;
  name : string;
  hp : Z;
  maxHp : Z;
  cards : list Z;
  variables : list Variable_;
  expression : string;
  submitted : bool;
  result : option Q
}.
End Player.

Module Game.
Record t : Type := {
  roomCode : string;
  difficulty : Difficulty;
  target : Z;
  variableValues : list (string * Z);
  sharedCards : list Z;
  sharedVariables : list Variable_;
  player1 : Player.t;
  player2 : Player.t;
  round : Z;
  status : Status
}.
End Game.

(** [const games = new Map()] *)
Abbreviation Games := (gmap string Game.t).

(** The part of a lobby that [initializeGame] reads. *)
Record Lobby : Type := {
  hostId : string;
  hostName : string;
  guestId : string;
  guestName : string;
  lobbyDifficulty : string
}.

(** *** Generation *)

(** [randomInt(min, max)], [u] being the outcome of [Math.random()]. *)
Definition randomInt (u : Q) (min max : Z) : Z :=
  Qfloor (u * inject_Z (max - min + 1)) + min.

(** The [i]-th draw of a sequence of outcomes of [Math.random()]. *)
Definition draw (us : list Q) (i : nat) : Q := nth i us 0%Q.

Definition generateCards (difficulty : Difficulty) (us : list Q) : list Z :=
  let config := DIFFICULTY_CONFIG difficulty in
  map (fun i => randomInt (draw us i) (Range.min (Config.cardRange config))
                          (Range.max (Config.cardRange config)))
      (seq 0 (Config.cardCount config)).

Definition symbols : list string := ["x"; "y"].

(** [config.variableConfig?.enabled] and what the loop over [count] reads. *)
Definition enabledVariables (difficulty : Difficulty) : option VariableConfig.t :=
  match Config.variableConfig (DIFFICULTY_CONFIG difficulty) with
  | Some vc => if VariableConfig.enabled vc then Some vc else None
  | None => None
  end.

Definition generateVariables (difficulty : Difficulty) (us : list Q) : list Variable_ :=
  match enabledVariables difficulty with
  | Some vc =>
    map (fun i => {| symbol := nth i symbols "undefined";
                     value := randomInt (draw us i)
                                (Range.min (VariableConfig.valueRange vc))
                                (Range.max (VariableConfig.valueRange vc)) |})
        (seq 0 (VariableConfig.count vc))
  | None => []
  end.

Definition generateVariableValues (difficulty : Difficulty) (us : list Q)
    : list (string * Z) :=
  match enabledVariables difficulty with
  | Some vc =>
    map (fun i => (nth i symbols "undefined",
                   randomInt (draw us i)
                     (Range.min (VariableConfig.valueRange vc))
                     (Range.max (VariableConfig.valueRange vc))))
        (seq 0 (VariableConfig.count vc))
  | None => []
  end.

(** [variableValues.x] *)
Definition lookupVariable (variableValues : list (string * Z)) (s : string) : option Z :=
  snd <$> List.find (fun '(k, _) => String.eqb k s) variableValues.

(** [generateTarget(difficulty, cards, variableValues)].  [shuffled] is the
    array that [[...cards].sort(() => Math.random() - 0.5)] leaves (some
    permutation of [cards]); [us] are the outcomes of the calls of
    [Math.random()] that follow, one per card used and one for the variable. *)
Definition generateTarget (difficulty : Difficulty) (cards : list Z)
    (variableValues : list (string * Z)) (shuffled : list Z) (us : list Q) : Z :=
  let config := DIFFICULTY_CONFIG difficulty in
  let numCardsToUse := Nat.min 3 (List.length cards) in
  let signed :=
    fold_left
      (fun target i =>
         let op := if JS.Qltb (3 # 10) (draw us i) then 1 else -1 in
         target + nth i shuffled 0 * op)
      (seq 0 numCardsToUse) 0 in
  let withVariable :=
    match lookupVariable variableValues "x" with
    | Some x =>
      if x =? 0 then signed
      else signed + x * (if JS.Qltb (1 # 2) (draw us numCardsToUse) then 1 else 2)
    | None => signed
    end in
  Z.max (Range.min (Config.targetRange config))
        (Z.min (Range.max (Config.targetRange config)) (Z.abs withVariable)).

(** *** Evaluation and damage *)

(** [s.replace(/(p1)(p2)/g, '$1*$2')] for two one-character classes: a star
    goes between every match, leftmost first and not overlapping.  [skip]
    tells that the character at hand ended the previous match. *)
Fixpoint starBetweenFrom (p1 p2 : ascii -> bool) (skip : bool) (s : string) : string :=
  match s with
  | EmptyString => EmptyString
  | String c r =>
    if skip then starBetweenFrom p1 p2 false r
    else
      match r with
      | String c2 _ =>
        if p1 c && p2 c2
        then String c (String "*" (String c2 (starBetweenFrom p1 p2 true r)))
        else String c (starBetweenFrom p1 p2 false r)
      | EmptyString => String c EmptyString
      end
  end.

Definition starBetween (p1 p2 : ascii -> bool) (s : string) : string :=
  starBetweenFrom p1 p2 false s.

Definition isXY (c : ascii) : bool := ((c =? "x") || (c =? "y"))%char.
Definition isOpen (c : ascii) : bool := (c =? "(")%char.
Definition isClose (c : ascii) : bool := (c =? ")")%char.

(** The string that [evaluateExpression] hands to [eval]: implicit products
    made explicit, then every variable replaced by its value in parentheses. *)
Definition substituted (expression : string) (variableValues : list (string * Z)) : string :=
  let e1 := starBetween JS.isDigit isXY expression in
  let e2 := starBetween isClose isXY e1 in
  let e3 := starBetween isXY isOpen e2 in
  let e4 := starBetween isXY JS.isDigit e3 in
  fold_left
    (fun e '(symbol, v) => GameLogic.replaceAll symbol ("(" +:+ JS.toString v +:+ ")") e)
    variableValues e4.

Section Coordinator.
(** The direct [eval] of the run time.  [evaluateExpression] calls it in the
    module that owns [games], on a string that comes from the player, so the
    code of the string can read and write the games: [eval s games] is the
    number the evaluation yields ([None] when it throws or yields anything
    but a finite number) and the map as the evaluation leaves it.  What the
    evaluation does to the map is what assignments to the properties of the
    stored objects do; the objects stay the ones they were. *)
Variable eval : string -> Games -> option Q * Games.

(** [evaluateExpression(expression, variableValues)], with the map of games
    at the call and after it. *)
Definition evaluateExpression (expression : string)
    (variableValues : list (string * Z)) (games : Games) : option Q * Games :=
  if JS.isBlank expression then (None, games)
  else eval (substituted expression variableValues) games.

(** [{ damage, type, isMiss, difference }]; [difference] is absent when the
    result is [null]. *)
Record Damage : Type := {
  damage : Z;
  type : string;
  isMiss : bool;
  difference : option Q
}.

Definition calculateDamage (result : option Q) (target : Z) (difficulty : Difficulty)
    : Damage :=
  match result with
  | None => {| damage := 0; type := "miss"; isMiss := true; difference := None |}
  | Some r =>
    let config := DIFFICULTY_CONFIG difficulty in
    let difference := Qabs (r - inject_Z target) in
    let thresholds := Config.accuracyThresholds config in
    let hit (baseDamage : Z) (type : string) :=
      {| damage := baseDamage; type := type;
         isMiss := String.eqb type "miss"; difference := Some difference |} in
    if JS.Qeqb difference (inject_Z (Thresholds.perfect thresholds)) then hit 50 "perfect"
    else if JS.Qleb difference (inject_Z (Thresholds.excellent thresholds)) then hit 40 "excellent"
    else if JS.Qleb difference (inject_Z (Thresholds.good thresholds)) then hit 30 "good"
    else if JS.Qleb difference (inject_Z (Thresholds.ok thresholds)) then hit 20 "ok"
    else if JS.Qltb difference (inject_Z (Thresholds.miss thresholds)) then hit 10 "close"
    else hit 0 "miss"
  end.

(** *** The game *)

(** The outcomes of [Math.random()] during one generation of a round, by the
    function that consumes them, and the shuffle of [generateTarget]. *)
Record Oracle : Type := {
  forVariableValues : list Q;
  forCards : list Q;
  forVariables : list Q;
  shuffle : list Z -> list Z;
  forTarget : list Q
}.

Definition newPlayer (id name : string) (hp : Z) (cards : list Z)
    (variables : list Variable_) : Player.t :=
  {| Player.id := id; Player.name := name; Player.hp := hp; Player.maxHp := hp;
     Player.cards := cards; Player.variables := variables;
     Player.expression := ""; Player.submitted := false; Player.result := None |}.

(** [initializeGame(roomCode, lobby)]: [None] when the lobby's difficulty is
    no key of the configuration (the call throws and stores nothing). *)
Definition initializeGame (roomCode : string) (lobby : Lobby) (o : Oracle)
    (games : Games) : option Game.t * Games :=
  match difficultyOfKey (lobbyDifficulty lobby) with
  | None => (None, games)
  | Some difficulty =>
    let config := DIFFICULTY_CONFIG difficulty in
    let variableValues := generateVariableValues difficulty (forVariableValues o) in
    let sharedCards := generateCards difficulty (forCards o) in
    let sharedVariables := generateVariables difficulty (forVariables o) in
    let target :=
      generateTarget difficulty sharedCards variableValues
        (shuffle o sharedCards) (forTarget o) in
    let gameState := {|
      Game.roomCode := roomCode;
      Game.difficulty := difficulty;
      Game.target := target;
      Game.variableValues := variableValues;
      Game.sharedCards := sharedCards;
      Game.sharedVariables := sharedVariables;
      Game.player1 := newPlayer (hostId lobby) (hostName lobby) (Config.playerHp config)
                        sharedCards sharedVariables;
      Game.player2 := newPlayer (guestId lobby) (guestName lobby) (Config.playerHp config)
                        sharedCards sharedVariables;
      Game.round := 1;
      Game.status := playing |} in
    (Some gameState, <[roomCode := gameState]> games)
  end.

(** [{ success: true }] or [{ success: false, error }] *)
Record SubmitResult : Type := { success : bool; error : option string }.

Definition rejected (message : string) : SubmitResult :=
  {| success := false; error := Some message |}.
Definition accepted : SubmitResult := {| success := true; error := None |}.

(** A player after the three assignments of a submission. *)
Definition withSubmission (player : Player.t) (expression : string) (result : option Q)
    : Player.t :=
  {| Player.id := Player.id player; Player.name := Player.name player;
     Player.hp := Player.hp player; Player.maxHp := Player.maxHp player;
     Player.cards := Player.cards player; Player.variables := Player.variables player;
     Player.expression := expression; Player.submitted := true;
     Player.result := result |}.

(** [player.expression = expression; player.submitted = true]: the two
    assignments that come before the evaluation. *)
Definition withExpression (player : Player.t) (expression : string) : Player.t :=
  {| Player.id := Player.id player; Player.name := Player.name player;
     Player.hp := Player.hp player; Player.maxHp := Player.maxHp player;
     Player.cards := Player.cards player; Player.variables := Player.variables player;
     Player.expression := expression; Player.submitted := true;
     Player.result := Player.result player |}.

(** [player.result = result] *)
Definition withResult (player : Player.t) (result : option Q) : Player.t :=
  {| Player.id := Player.id player; Player.name := Player.name player;
     Player.hp := Player.hp player; Player.maxHp := Player.maxHp player;
     Player.cards := Player.cards player; Player.variables := Player.variables player;
     Player.expression := Player.expression player;
     Player.submitted := Player.submitted player;
     Player.result := result |}.

Definition withPlayer1 (game : Game.t) (p : Player.t) : Game.t :=
  {| Game.roomCode := Game.roomCode game; Game.difficulty := Game.difficulty game;
     Game.target := Game.target game; Game.variableValues := Game.variableValues game;
     Game.sharedCards := Game.sharedCards game;
     Game.sharedVariables := Game.sharedVariables game;
     Game.player1 := p; Game.player2 := Game.player2 game;
     Game.round := Game.round game; Game.status := Game.status game |}.

Definition withPlayer2 (game : Game.t) (p : Player.t) : Game.t :=
  {| Game.roomCode := Game.roomCode game; Game.difficulty := Game.difficulty game;
     Game.target := Game.target game; Game.variableValues := Game.variableValues game;
     Game.sharedCards := Game.sharedCards game;
     Game.sharedVariables := Game.sharedVariables game;
     Game.player1 := Game.player1 game; Game.player2 := p;
     Game.round := Game.round game; Game.status := Game.status game |}.

(** The assignment [player.result = ...] that follows the evaluation: it
    writes to the player the call holds, the first or the second of the game
    of the room, in the map as the evaluation left it. *)
Definition storeResult (roomCode : string) (isPlayer1 : bool) (result : option Q)
    (games : Games) : Games :=
  match games !! roomCode with
  | None => games
  | Some game =>
    <[roomCode :=
        if isPlayer1 then withPlayer1 game (withResult (Game.player1 game) result)
        else withPlayer2 game (withResult (Game.player2 game) result)]> games
  end.

(** [submitPlayerExpression(roomCode, playerId, expression)]: what it
    returns and the map after the call.  The expression and the flag are
    stored before the expression is evaluated, and the result after. *)
Definition submitPlayerExpression (roomCode playerId expression : string)
    (games : Games) : SubmitResult * Games :=
  match games !! roomCode with
  | None => (rejected "Juego no encontrado", games)
  | Some game =>
    if negb (bool_decide (Game.status game = playing))
    then (rejected "No es momento de enviar expresiones", games)
    else
      let isPlayer1 := String.eqb (Player.id (Game.player1 game)) playerId in
      let player := if isPlayer1 then Game.player1 game else Game.player2 game in
      if Player.submitted player
      then (rejected "Ya enviaste tu expresión", games)
      else
        let pending := withExpression player expression in
        let game' := if isPlayer1 then withPlayer1 game pending else withPlayer2 game pending in
        let evaluated :=
          evaluateExpression expression (Game.variableValues game)
            (<[roomCode := game']> games) in
        (accepted, storeResult roomCode isPlayer1 (fst evaluated) (snd evaluated))
  end.

(** [skipPlayerTurn(roomCode, playerId)] *)
Definition skipPlayerTurn (roomCode playerId : string) (games : Games)
    : SubmitResult * Games :=
  submitPlayerExpression roomCode playerId "" games.

(** [checkBothPlayersReady(roomCode)] *)
Definition checkBothPlayersReady (roomCode : string) (games : Games) : bool :=
  match games !! roomCode with
  | None => false
  | Some game =>
    Player.submitted (Game.player1 game) && Player.submitted (Game.player2 game)
  end.

(** [cleanupGame(roomCode)] and [getFullGameState(roomCode)] *)
Definition cleanupGame (roomCode : string) (games : Games) : Games := delete roomCode games.
Definition getFullGameState (roomCode : string) (games : Games) : option Game.t :=
  games !! roomCode.

End Coordinator.

(** *** Resolution of a round *)

(** One player's part of the round result. *)
Module PlayerResult.
Record t : Type := {
  name : string;
  expression : string;
  result : option Q;
  difference : option Q;
  damageType : string;
  damageTaken : Z;
  currentHp : Z
}.
End PlayerResult.

(** [{ player1: { name, finalHp }, player2: { name, finalHp }, totalRounds }] *)
Record FinalStats : Type := {
  finalPlayer1 : string * Z;
  finalPlayer2 : string * Z;
  totalRounds : Z
}.

Module RoundResult.
Record t : Type := {
  round : Z;
  target : Z;
  player1 : PlayerResult.t;
  player2 : PlayerResult.t;
  roundWinner : string;
  gameOver : bool;
  winner : option string;
  finalStats : option FinalStats
}.
End RoundResult.

(** A distance to the target; [None] is [Infinity]. *)
Definition distance (result : option Q) (target : Z) : option Q :=
  match result with
  | Some r => Some (Qabs (r - inject_Z target))
  | None => None
  end.

(** [a < b] on distances. *)
Definition closer (a b : option Q) : bool :=
  match a, b with
  | Some x, Some y => JS.Qltb x y
  | Some _, None => true
  | None, _ => false
  end.

(** [Math.floor(damage * 0.5)] *)
Definition half (damage : Z) : Z := Qfloor (inject_Z damage * (1 # 2)).

(** [winner], [p1DamageTaken] and [p2DamageTaken] after the four-way test. *)
Definition roundOutcome (p1Name p2Name : string) (p1Damage p2Damage : Damage)
    (p1Diff p2Diff : option Q) : string * Z * Z :=
  if isMiss p1Damage && isMiss p2Damage then ("draw_miss", 0, 0)
  else if closer p1Diff p2Diff then (p1Name, 0, damage p1Damage)
  else if closer p2Diff p1Diff then (p2Name, damage p2Damage, 0)
  else ("draw", half (damage p2Damage), half (damage p1Damage)).

(** [gameOver] and [gameWinner] from the two healths after the damage. *)
Definition matchOutcome (p1Name p2Name : string) (hp1 hp2 : Z) : bool * option string :=
  if (hp1 <=? 0) && (hp2 <=? 0) then (true, Some "draw")
  else if hp1 <=? 0 then (true, Some p2Name)
  else if hp2 <=? 0 then (true, Some p1Name)
  else (false, None).

Definition withHp (player : Player.t) (hp : Z) : Player.t :=
  {| Player.id := Player.id player; Player.name := Player.name player;
     Player.hp := hp; Player.maxHp := Player.maxHp player;
     Player.cards := Player.cards player; Player.variables := Player.variables player;
     Player.expression := Player.expression player;
     Player.submitted := Player.submitted player;
     Player.result := Player.result player |}.

(** The reset of the submission fields. *)
Definition cleared (player : Player.t) : Player.t :=
  {| Player.id := Player.id player; Player.name := Player.name player;
     Player.hp := Player.hp player; Player.maxHp := Player.maxHp player;
     Player.cards := Player.cards player; Player.variables := Player.variables player;
     Player.expression := ""; Player.submitted := false; Player.result := None |}.

Definition withStatus (game : Game.t) (status : Status) : Game.t :=
  {| Game.roomCode := Game.roomCode game; Game.difficulty := Game.difficulty game;
     Game.target := Game.target game; Game.variableValues := Game.variableValues game;
     Game.sharedCards := Game.sharedCards game;
     Game.sharedVariables := Game.sharedVariables game;
     Game.player1 := Game.player1 game; Game.player2 := Game.player2 game;
     Game.round := Game.round game; Game.status := status |}.

(** [expression || '(sin respuesta)'] *)
Definition orNoAnswer (expression : string) : string :=
  if String.eqb expression "" then "(sin respuesta)" else expression.

(** [resolveRound] on the game it found: the result and the game after the
    call.  The status goes to [revealing] first; every path assigns it again
    before the function returns. *)
Definition resolveGame (game : Game.t) : RoundResult.t * Game.t :=
  let game := withStatus game revealing in
  let p1Result := Player.result (Game.player1 game) in
  let p2Result := Player.result (Game.player2 game) in
  let target := Game.target game in
  let p1Damage := calculateDamage p1Result target (Game.difficulty game) in
  let p2Damage := calculateDamage p2Result target (Game.difficulty game) in
  let p1Diff := distance p1Result target in
  let p2Diff := distance p2Result target in
  let '(winner, p1DamageTaken, p2DamageTaken) :=
    roundOutcome (Player.name (Game.player1 game)) (Player.name (Game.player2 game))
      p1Damage p2Damage p1Diff p2Diff in
  let player1 :=
    withHp (Game.player1 game) (Z.max 0 (Player.hp (Game.player1 game) - p1DamageTaken)) in
  let player2 :=
    withHp (Game.player2 game) (Z.max 0 (Player.hp (Game.player2 game) - p2DamageTaken)) in
  let '(gameOver, gameWinner) :=
    matchOutcome (Player.name player1) (Player.name player2)
      (Player.hp player1) (Player.hp player2) in
  let result := {|
    RoundResult.round := Game.round game;
    RoundResult.target := Game.target game;
    RoundResult.player1 := {|
      PlayerResult.name := Player.name player1;
      PlayerResult.expression := orNoAnswer (Player.expression player1);
      PlayerResult.result := p1Result;
      PlayerResult.difference := p1Diff;
      PlayerResult.damageType := type p1Damage;
      PlayerResult.damageTaken := p1DamageTaken;
      PlayerResult.currentHp := Player.hp player1 |};
    RoundResult.player2 := {|
      PlayerResult.name := Player.name player2;
      PlayerResult.expression := orNoAnswer (Player.expression player2);
      PlayerResult.result := p2Result;
      PlayerResult.difference := p2Diff;
      PlayerResult.damageType := type p2Damage;
      PlayerResult.damageTaken := p2DamageTaken;
      PlayerResult.currentHp := Player.hp player2 |};
    RoundResult.roundWinner := winner;
    RoundResult.gameOver := gameOver;
    RoundResult.winner := gameWinner;
    RoundResult.finalStats :=
      if gameOver
      then Some {| finalPlayer1 := (Player.name player1, Player.hp player1);
                   finalPlayer2 := (Player.name player2, Player.hp player2);
                   totalRounds := Game.round game |}
      else None |} in
  let game := withPlayer2 (withPlayer1 game player1) player2 in
  let game :=
    if gameOver then withStatus game finished
    else withStatus (withPlayer2 (withPlayer1 game (cleared player1)) (cleared player2))
           waiting_next in
  (result, game).

(** [resolveRound(roomCode)]: [null] when there is no such game. *)
Definition resolveRound (roomCode : string) (games : Games)
    : option RoundResult.t * Games :=
  match games !! roomCode with
  | None => (None, games)
  | Some game =>
    let '(result, game') := resolveGame game in
    (Some result, <[roomCode := game']> games)
  end.

(** *** The next round *)

Definition dealt (player : Player.t) (cards : list Z) (variables : list Variable_)
    : Player.t :=
  {| Player.id := Player.id player; Player.name := Player.name player;
     Player.hp := Player.hp player; Player.maxHp := Player.maxHp player;
     Player.cards := cards; Player.variables := variables;
     Player.expression := ""; Player.submitted := false; Player.result := None |}.

(** [startNextRound(roomCode)]; the status is left as it was. *)
Definition startNextRound (roomCode : string) (o : Oracle) (games : Games)
    : option Game.t * Games :=
  match games !! roomCode with
  | None => (None, games)
  | Some game =>
    let difficulty := Game.difficulty game in
    let variableValues := generateVariableValues difficulty (forVariableValues o) in
    let sharedCards := generateCards difficulty (forCards o) in
    let sharedVariables := generateVariables difficulty (forVariables o) in
    let target :=
      generateTarget difficulty sharedCards variableValues
        (shuffle o sharedCards) (forTarget o) in
    let game' := {|
      Game.roomCode := Game.roomCode game;
      Game.difficulty := difficulty;
      Game.target := target;
      Game.variableValues := variableValues;
      Game.sharedCards := sharedCards;
      Game.sharedVariables := sharedVariables;
      Game.player1 := dealt (Game.player1 game) sharedCards sharedVariables;
      Game.player2 := dealt (Game.player2 game) sharedCards sharedVariables;
      Game.round := Game.round game + 1;
      Game.status := Game.status game |} in
    (Some game', <[roomCode := game']> games)
  end.

(** *** A player's view of the game *)

Module View.
Record t : Type := {
  roomCode : string;
  difficulty : Difficulty;
  target : Z;
  variableValues : list (string * Z);
  round : Z;
  status : Status;
  myCards : list Z;
  myVariables : list (string + Variable_);
  myHp : Z;
  myMaxHp : Z;
  myName : string;
  mySubmitted : bool;
  opponentName : string;
  opponentHp : Z;
  opponentMaxHp : Z;
  opponentSubmitted : bool
}.
End View.

(** [v.symbol || v] *)
Definition symbolOr (v : Variable_) : string + Variable_ :=
  if String.eqb (symbol v) "" then inr v else inl (symbol v).

(** [getGameState(roomCode, playerId)]: [null] when there is no such game. *)
Definition getGameState (roomCode playerId : string) (games : Games) : option View.t :=
  match games !! roomCode with
  | None => None
  | Some game =>
    let isPlayer1 := String.eqb (Player.id (Game.player1 game)) playerId in
    let myPlayer := if isPlayer1 then Game.player1 game else Game.player2 game in
    let opponent := if isPlayer1 then Game.player2 game else Game.player1 game in
    Some {|
      View.roomCode := Game.roomCode game;
      View.difficulty := Game.difficulty game;
      View.target := Game.target game;
      View.variableValues := Game.variableValues game;
      View.round := Game.round game;
      View.status := Game.status game;
      View.myCards := Player.cards myPlayer;
      View.myVariables := map symbolOr (Player.variables myPlayer);
      View.myHp := Player.hp myPlayer;
      View.myMaxHp := Player.maxHp myPlayer;
      View.myName := Player.name myPlayer;
      View.mySubmitted := Player.submitted myPlayer;
      View.opponentName := Player.name opponent;
      View.opponentHp := Player.hp opponent;
      View.opponentMaxHp := Player.maxHp opponent;
      View.opponentSubmitted := Player.submitted opponent |}
  end.

End GameManager.

(** ** [server/lobbyManager.js]: the lobby registry *)

Module LobbyManager.

Inductive LobbyStatus : Type := waiting | ready | playing | finished.

Global Instance LobbyStatus_eq_dec : EqDecision LobbyStatus.
Proof. solve_decision. Defined.

Module Lobby.
Record t : Type := {
  roomCode : string;
  hostId : string;
  hostName : string;
  guestId : option string;
  guestName : option string;
  difficulty : string;
  status : LobbyStatus;
  createdAt : Z
}.
End Lobby.

(** A [Map] from room codes to lobbies, in insertion order, which is the order
    of iteration. *)
Abbreviation LobbyMap := (list (string * Lobby.t)).

(** [m.get(k)] *)
Fixpoint mapGet (m : LobbyMap) (k : string) : option Lobby.t :=
  match m with
  | [] => None
  | (k', v) :: rest => if String.eqb k' k then Some v else mapGet rest k
  end.

(** [m.has(k)] *)
Definition mapHas (m : LobbyMap) (k : string) : bool :=
  match mapGet m k with Some _ => true | None => false end.

(** [m.set(k, v)]: a key that is there keeps its place. *)
Fixpoint mapSet (m : LobbyMap) (k : string) (v : Lobby.t) : LobbyMap :=
  match m with
  | [] => [(k, v)]
  | (k', v') :: rest =>
    if String.eqb k' k then (k', v) :: rest else (k', v') :: mapSet rest k v
  end.

(** [m.delete(k)] *)
Fixpoint mapDelete (m : LobbyMap) (k : string) : LobbyMap :=
  match m with
  | [] => []
  | (k', v') :: rest =>
    if String.eqb k' k then rest else (k', v') :: mapDelete rest k
  end.

(** The two module-level maps, [lobbies] and [playerToRoom]. *)
Record Registry : Type := {
  lobbies : LobbyMap;
  playerToRoom : gmap string string
}.

(** What a call does: it returns a value or throws an [Error] with a message. *)
Inductive Outcome (A : Type) : Type :=
| Returned (value : A)
| Thrown (message : string).
Arguments Returned {A} value.
Arguments Thrown {A} message.

(** Truthiness of a string or [null]. *)
Definition present (s : option string) : bool :=
  match s with
  | Some id => negb (String.eqb id "")
  | None => false
  end.

(** [name || fallback] *)
Definition orDefault (name fallback : string) : string :=
  if String.eqb name "" then fallback else name.

Definition upperChar (c : ascii) : ascii :=
  let n := nat_of_ascii c in
  if ((97 <=? n) && (n <=? 122))%nat then ascii_of_nat (n - 32) else c.

(** [s.toUpperCase()], on the letters a to z. *)
Fixpoint toUpperCase (s : string) : string :=
  match s with
  | EmptyString => EmptyString
  | String c r => String (upperChar c) (toUpperCase r)
  end.

(** The alphabet of the room codes: no I, O, 1 or 0. *)
Definition chars : string := "ABCDEFGHJKLMNPQRSTUVWXYZ23456789".

(** [chars.charAt(Math.floor(u * chars.length))] *)
Definition randomChar (u : Q) : string :=
  let i := Qfloor (u * inject_Z (Z.of_nat (String.length chars))) in
  if i <? 0 then ""
  else match String.get (Z.to_nat i) chars with
       | Some c => String c EmptyString
       | None => ""
       end.

(** [generateRoomCode()]: every attempt draws four characters, and the first
    code that is no key of [lobbies] is returned.  [us] are the outcomes of
    [Math.random()]; [None] when they run out before a free code is drawn. *)
Fixpoint generateRoomCode (us : list Q) (lobbies : LobbyMap) : option string :=
  match us with
  | u1 :: u2 :: u3 :: u4 :: rest =>
    let code := randomChar u1 +:+ randomChar u2 +:+ randomChar u3 +:+ randomChar u4 in
    if mapHas lobbies code then generateRoomCode rest lobbies else Some code
  | _ => None
  end.

Definition alreadyInRoom : string := "Ya estás en una sala. Abandónala primero.".

(** [createLobby(hostSocketId, hostName, difficulty)]; [now] is [Date.now()].
    [None] when the draws run out in [generateRoomCode]. *)
Definition createLobby (hostSocketId hostName difficulty : string) (now : Z)
    (us : list Q) (st : Registry) : option (Outcome (string * string) * Registry) :=
  if bool_decide (is_Some (playerToRoom st !! hostSocketId))
  then Some (Thrown alreadyInRoom, st)
  else
    match generateRoomCode us (lobbies st) with
    | None => None
    | Some roomCode =>
      let lobby := {|
        Lobby.roomCode := roomCode;
        Lobby.hostId := hostSocketId;
        Lobby.hostName := orDefault hostName "Jugador 1";
        Lobby.guestId := None;
        Lobby.guestName := None;
        Lobby.difficulty := difficulty;
        Lobby.status := waiting;
        Lobby.createdAt := now |} in
      Some (Returned (roomCode, difficulty),
            {| lobbies := mapSet (lobbies st) roomCode lobby;
               playerToRoom := <[hostSocketId := roomCode]> (playerToRoom st) |})
    end.

(** [{ roomCode, hostName, difficulty }] *)
Record JoinInfo : Type := {
  joinedRoom : string;
  joinedHost : string;
  joinedDifficulty : string
}.

(** [joinLobby(guestSocketId, roomCode, guestName)] *)
Definition joinLobby (guestSocketId roomCode guestName : string) (st : Registry)
    : Outcome JoinInfo * Registry :=
  if bool_decide (is_Some (playerToRoom st !! guestSocketId))
  then (Thrown alreadyInRoom, st)
  else
    match mapGet (lobbies st) (toUpperCase roomCode) with
    | None => (Thrown "Sala no encontrada. Verifica el código.", st)
    | Some lobby =>
      if present (Lobby.guestId lobby) then (Thrown "La sala está llena.", st)
      else if negb (bool_decide (Lobby.status lobby = waiting))
      then (Thrown "La sala ya no está disponible.", st)
      else
        let lobby' := {|
          Lobby.roomCode := Lobby.roomCode lobby;
          Lobby.hostId := Lobby.hostId lobby;
          Lobby.hostName := Lobby.hostName lobby;
          Lobby.guestId := Some guestSocketId;
          Lobby.guestName := Some (orDefault guestName "Jugador 2");
          Lobby.difficulty := Lobby.difficulty lobby;
          Lobby.status := ready;
          Lobby.createdAt := Lobby.createdAt lobby |} in
        (Returned {| joinedRoom := Lobby.roomCode lobby';
                     joinedHost := Lobby.hostName lobby';
                     joinedDifficulty := Lobby.difficulty lobby' |},
         {| lobbies := mapSet (lobbies st) (toUpperCase roomCode) lobby';
            playerToRoom := <[guestSocketId := toUpperCase roomCode]> (playerToRoom st) |})
    end.

(** [leaveLobby(socketId)]: whether the room was deleted, and the maps. *)
Definition leaveLobby (socketId : string) (st : Registry) : bool * Registry :=
  match playerToRoom st !! socketId with
  | None => (false, st)
  | Some roomCode =>
    if String.eqb roomCode "" then (false, st)
    else
      match mapGet (lobbies st) roomCode with
      | None =>
        (false, {| lobbies := lobbies st;
                   playerToRoom := delete socketId (playerToRoom st) |})
      | Some lobby =>
        if String.eqb (Lobby.hostId lobby) socketId then
          let withoutGuest :=
            match Lobby.guestId lobby with
            | Some guest =>
              if present (Some guest) then delete guest (playerToRoom st)
              else playerToRoom st
            | None => playerToRoom st
            end in
          (true, {| lobbies := mapDelete (lobbies st) roomCode;
                    playerToRoom := delete socketId withoutGuest |})
        else if bool_decide (Lobby.guestId lobby = Some socketId) then
          let lobby' := {|
            Lobby.roomCode := Lobby.roomCode lobby;
            Lobby.hostId := Lobby.hostId lobby;
            Lobby.hostName := Lobby.hostName lobby;
            Lobby.guestId := None;
            Lobby.guestName := None;
            Lobby.difficulty := Lobby.difficulty lobby;
            Lobby.status := waiting;
            Lobby.createdAt := Lobby.createdAt lobby |} in
          (false, {| lobbies := mapSet (lobbies st) roomCode lobby';
                     playerToRoom := delete socketId (playerToRoom st) |})
        else (false, st)
      end
  end.

(** [{ roomCode, hostName, difficulty, createdAt }] *)
Record Listing : Type := {
  listedRoom : string;
  listedHost : string;
  listedDifficulty : string;
  listedAt : Z
}.

(** The stable sort by [(a, b) => b.createdAt - a.createdAt]: an entry goes
    after those that are not older. *)
Fixpoint insertNewestFirst (x : Listing) (sorted : list Listing) : list Listing :=
  match sorted with
  | [] => [x]
  | y :: rest =>
    if listedAt x - listedAt y <=? 0 then y :: insertNewestFirst x rest
    else x :: sorted
  end.

(** [getAvailableLobbies()] *)
Definition getAvailableLobbies (st : Registry) : list Listing :=
  let available :=
    omap (fun '(_, lobby) =>
            if bool_decide (Lobby.status lobby = waiting) && negb (present (Lobby.guestId lobby))
            then Some {| listedRoom := Lobby.roomCode lobby;
                         listedHost := Lobby.hostName lobby;
                         listedDifficulty := Lobby.difficulty lobby;
                         listedAt := Lobby.createdAt lobby |}
            else None)
         (lobbies st) in
  fold_left (fun acc x => insertNewestFirst x acc) available [].

(** [getLobbyBySocketId(socketId)] *)
Definition getLobbyBySocketId (socketId : string) (st : Registry) : option Lobby.t :=
  match playerToRoom st !! socketId with
  | None => None
  | Some roomCode =>
    if String.eqb roomCode "" then None else mapGet (lobbies st) roomCode
  end.

(** [getLobbyByCode(roomCode)] *)
Definition getLobbyByCode (roomCode : string) (st : Registry) : option Lobby.t :=
  mapGet (lobbies st) (toUpperCase roomCode).

Definition withLobbyStatus (lobby : Lobby.t) (status : LobbyStatus) : Lobby.t :=
  {| Lobby.roomCode := Lobby.roomCode lobby;
     Lobby.hostId := Lobby.hostId lobby;
     Lobby.hostName := Lobby.hostName lobby;
     Lobby.guestId := Lobby.guestId lobby;
     Lobby.guestName := Lobby.guestName lobby;
     Lobby.difficulty := Lobby.difficulty lobby;
     Lobby.status := status;
     Lobby.createdAt := Lobby.createdAt lobby |}.

(** [startLobbyGame(roomCode, hostSocketId)]: the lobby, or [null]. *)
Definition startLobbyGame (roomCode hostSocketId : string) (st : Registry)
    : option Lobby.t * Registry :=
  match mapGet (lobbies st) roomCode with
  | None => (None, st)
  | Some lobby =>
    if negb (String.eqb (Lobby.hostId lobby) hostSocketId) then (None, st)
    else if negb (bool_decide (Lobby.status lobby = ready)) then (None, st)
    else if negb (present (Lobby.guestId lobby)) then (None, st)
    else
      let lobby' := withLobbyStatus lobby playing in
      (Some lobby', {| lobbies := mapSet (lobbies st) roomCode lobby';
                       playerToRoom := playerToRoom st |})
  end.

(** [finishLobby(roomCode)] *)
Definition finishLobby (roomCode : string) (st : Registry) : Registry :=
  match mapGet (lobbies st) roomCode with
  | None => st
  | Some lobby =>
    {| lobbies := mapSet (lobbies st) roomCode (withLobbyStatus lobby finished);
       playerToRoom := playerToRoom st |}
  end.

(** [deleteLobby(roomCode)] *)
Definition deleteLobby (roomCode : string) (st : Registry) : Registry :=
  match mapGet (lobbies st) roomCode with
  | None => st
  | Some lobby =>
    let withoutHost := delete (Lobby.hostId lobby) (playerToRoom st) in
    let withoutGuest :=
      match Lobby.guestId lobby with
      | Some guest => if present (Some guest) then delete guest withoutHost else withoutHost
      | None => withoutHost
      end in
    {| lobbies := mapDelete (lobbies st) roomCode; playerToRoom := withoutGuest |}
  end.

End LobbyManager.

(** ** Sample rounds *)

Module Samples.
Import GameManager.

Definition lobbyOf (difficulty : string) : Lobby :=
  {| hostId := "p1"; hostName := "Player1";
     guestId := "p2"; guestName := "Player2";
     lobbyDifficulty := difficulty |}.

(** An easy round whose four cards are all drawn as 2 and whose target adds
    two of them and subtracts the third. *)
Definition twosOracle (shuffle : list Z -> list Z) : Oracle :=
  {| forVariableValues := [];
     forCards := [1 # 9; 1 # 9; 1 # 9; 1 # 9]%Q;
     forVariables := [];
     shuffle := shuffle;
     forTarget := [1 # 2; 1 # 2; 1 # 10]%Q |}.

(** A player in the middle of a match. *)
Definition playerWith (id name : string) (hp : Z) (expression : string)
    (submitted : bool) (result : option Q) : Player.t :=
  {| Player.id := id; Player.name := name; Player.hp := hp; Player.maxHp := 150;
     Player.cards := [4; 6; 1; 3]; Player.variables := [];
     Player.expression := expression; Player.submitted := submitted;
     Player.result := result |}.

(** An easy game with target 10 and the cards 4, 6, 1, 3. *)
Definition gameWith (status : Status) (p1 p2 : Player.t) : Game.t :=
  {| Game.roomCode := "ROOM"; Game.difficulty := easy; Game.target := 10;
     Game.variableValues := []; Game.sharedCards := [4; 6; 1; 3];
     Game.sharedVariables := [];
     Game.player1 := p1; Game.player2 := p2;
     Game.round := 1; Game.status := status |}.

(** The round is open and nobody has submitted. *)
Definition openGame : Game.t :=
  gameWith playing (playerWith "p1" "Player1" 150 "" false None)
                   (playerWith "p2" "Player2" 150 "" false None).

(** Both players hit the target; the first is down to 20 health. *)
Definition tiedGame : Game.t :=
  gameWith playing (playerWith "p1" "Player1" 20 "4+6" true (Some (10 # 1)%Q))
                   (playerWith "p2" "Player2" 100 "6+4" true (Some (10 # 1)%Q)).

(** Both players hit the target with 25 health or less each. *)
Definition lastStandGame : Game.t :=
  gameWith playing (playerWith "p1" "Player1" 25 "4+6" true (Some (10 # 1)%Q))
                   (playerWith "p2" "Player2" 10 "6+4" true (Some (10 # 1)%Q)).

(** The first player hits the target, the second sent nothing that evaluates. *)
Definition oneSidedGame : Game.t :=
  gameWith playing (playerWith "p1" "Player1" 150 "4+6" true (Some (10 # 1)%Q))
                   (playerWith "p2" "Player2" 150 "4+" true None).

(** A string that is code and not arithmetic: it assigns to the result of the
    second player of the room and has the value 1. *)
Definition payload : string := "games.get('ROOM').player2.result=5,1".

(** An [eval] for the examples.  On [payload] it does what the run time
    does with that string: without a game for the room the member access
    throws, otherwise the result of the second player becomes 5 and the
    value is the operand after the comma.  On every other string it is the
    arithmetic of [JS.evalArith], which touches nothing. *)
Definition scriptedEval (s : string) (games : Games) : option Q * Games :=
  if String.eqb s payload then
    match games !! "ROOM" with
    | Some game =>
      (Some 1%Q,
       <["ROOM" := withPlayer2 game (withResult (Game.player2 game) (Some (5 # 1)%Q))]> games)
    | None => (None, games)
    end
  else (JS.evalArith s, games).

End Samples.

(** ** The vocabulary of the specification *)

Module Spec.
Import GameManager.

(** A distance is strictly smaller than another; no result is infinitely far. *)
Definition nearer (a b : option Q) : Prop :=
  match a, b with
  | Some x, Some y => (x < y)%Q
  | Some _, None => True
  | None, _ => False
  end.

(** Two distances tie exactly. *)
Definition level (a b : option Q) : Prop :=
  match a, b with
  | Some x, Some y => (x == y)%Q
  | None, None => True
  | _, _ => False
  end.

(** The player whose socket id is [playerId], as the coordinator resolves it:
    the first player when the id is the host's, the second otherwise. *)
Definition playerOf (game : Game.t) (playerId : string) : Player.t :=
  if String.eqb (Player.id (Game.player1 game)) playerId
  then Game.player1 game else Game.player2 game.

(** A game between two rounds: resolution has cleared the submissions, both
    players are alive and the host has not yet started the next round. *)
Definition betweenRounds (game : Game.t) : Prop :=
  Game.status game = waiting_next /\
  Game.player1 game = cleared (Game.player1 game) /\
  Game.player2 game = cleared (Game.player2 game) /\
  0 < Player.hp (Game.player1 game) /\
  0 < Player.hp (Game.player2 game).

(** The part of a round result that is about the player [playerId]. *)
Definition resultOf (game : Game.t) (res : RoundResult.t) (playerId : string)
    : PlayerResult.t :=
  if String.eqb (Player.id (Game.player1 game)) playerId
  then RoundResult.player1 res else RoundResult.player2 res.

(** The game with the player [playerId] replaced. *)
Definition withPlayerOf (game : Game.t) (playerId : string) (player : Player.t) : Game.t :=
  if String.eqb (Player.id (Game.player1 game)) playerId
  then withPlayer1 game player else withPlayer2 game player.

(** The characters of pure arithmetic: digits, blanks, the four operators,
    parentheses and the decimal point. *)
Definition arithmeticChar (c : ascii) : bool :=
  (JS.isDigit c || JS.isSpace c || (c =? "+") || (c =? "-") || (c =? "*") || (c =? "/")
   || (c =? "(") || (c =? ")") || (c =? "."))%char.

(** A pure-arithmetic string: it has no letter, so it names nothing. *)
Fixpoint arithmetic (s : string) : bool :=
  match s with
  | EmptyString => true
  | String c r => arithmeticChar c && arithmetic r
  end.

(** An expression a player sends is plain for a round when it is blank or
    when, with the variables of the round put in, it is pure arithmetic. *)
Definition plain (expression : string) (variableValues : list (string * Z)) : bool :=
  JS.isBlank expression || arithmetic (substituted expression variableValues).

(** What the run time's [eval] is on pure arithmetic: a string that names
    nothing is evaluated without reading or writing the games. *)
Definition pureOnArithmetic (eval : string -> Games -> option Q * Games) : Prop :=
  forall s games, arithmetic s = true -> eval s games = (fst (eval s ∅), games).

(** The value of an expression where the games do not matter. *)
Definition valueOf (eval : string -> Games -> option Q * Games) (expression : string)
    (variableValues : list (string * Z)) : option Q :=
  fst (evaluateExpression eval expression variableValues ∅).

(** Skipping a turn as the specification words it: the rejections of a
    submission, and on success the player marked as submitted with an empty
    expression and no result. *)
Definition skipAsSpecified (roomCode playerId : string) (games : Games)
    : SubmitResult * Games :=
  match games !! roomCode with
  | None => (rejected "Juego no encontrado", games)
  | Some game =>
    if decide (Game.status game = playing) then
      if Player.submitted (playerOf game playerId)
      then (rejected "Ya enviaste tu expresión", games)
      else
        let skipped := withSubmission (playerOf game playerId) "" None in
        (accepted, <[roomCode := withPlayerOf game playerId skipped]> games)
    else (rejected "No es momento de enviar expresiones", games)
  end.

(** The streak results of a player over successive turns: every turn starts
    from the streak the turn before left. *)
Fixpoint streakRun (difficulty : string) (streak : Z) (hits : list bool)
    : list GameLogic.StreakResult :=
  match hits with
  | [] => []
  | isPerfect :: rest =>
    let r := GameLogic.calculateStreakBonus streak isPerfect difficulty in
    r :: streakRun difficulty (GameLogic.newStreak r) rest
  end.

End Spec.

(** The vocabulary of the statements about views and expressions. *)

Module ViewSpec.
Import GameManager.

(** The player that [playerId] plays against. *)
Definition opponentOf (game : Game.t) (playerId : string) : Player.t :=
  if String.eqb (Player.id (Game.player1 game)) playerId
  then Game.player2 game else Game.player1 game.

(** The game with the opponent of [playerId] replaced. *)
Definition withOpponentOf (game : Game.t) (playerId : string) (player : Player.t) : Game.t :=
  if String.eqb (Player.id (Game.player1 game)) playerId
  then withPlayer2 game player else withPlayer1 game player.

(** A player with other cards, variables, expression and result, and the
    rest of the record as it is. *)
Definition withSecrets (player : Player.t) (cards : list Z) (variables : list Variable_)
    (expression : string) (result : option Q) : Player.t :=
  {| Player.id := Player.id player; Player.name := Player.name player;
     Player.hp := Player.hp player; Player.maxHp := Player.maxHp player;
     Player.cards := cards; Player.variables := variables;
     Player.expression := expression; Player.submitted := Player.submitted player;
     Player.result := result |}.

(** A view with another readiness of the opponent. *)
Definition withOpponentSubmitted (v : View.t) (submitted : bool) : View.t :=
  {| View.roomCode := View.roomCode v; View.difficulty := View.difficulty v;
     View.target := View.target v; View.variableValues := View.variableValues v;
     View.round := View.round v; View.status := View.status v;
     View.myCards := View.myCards v; View.myVariables := View.myVariables v;
     View.myHp := View.myHp v; View.myMaxHp := View.myMaxHp v;
     View.myName := View.myName v; View.mySubmitted := View.mySubmitted v;
     View.opponentName := View.opponentName v; View.opponentHp := View.opponentHp v;
     View.opponentMaxHp := View.opponentMaxHp v;
     View.opponentSubmitted := submitted |}.

(** Both healths lie between zero and their maximum. *)
Definition healthy (game : Game.t) : Prop :=
  0 <= Player.hp (Game.player1 game) <= Player.maxHp (Game.player1 game) /\
  0 <= Player.hp (Game.player2 game) <= Player.maxHp (Game.player2 game).

End ViewSpec.

Module ExprSpec.

(** The draws of a tape are outcomes of [Math.random()]. *)
Definition unitDraws (us : list Q) : Prop := Forall (fun u => (0 <= u)%Q /\ (u < 1)%Q) us.


(** The number of occurrences of a character. *)
Fixpoint occurrences (c : ascii) (s : string) : Z :=
  match s with
  | EmptyString => 0
  | String c' r => (if (c' =? c)%char then 1 else 0) + occurrences c r
  end.

(** The first [n] characters. *)
Definition firstChars (n : nat) (s : string) : string := String.substring 0 n s.

(** Balanced parentheses: as many closing as opening ones, and never more
    closing than opening ones at any point of the string. *)
Definition balanced (s : string) : Prop :=
  occurrences "(" s = occurrences ")" s /\
  forall n, occurrences ")" (firstChars n s) <= occurrences "(" (firstChars n s).

(** The string has none of the two variable symbols. *)
Fixpoint noVariables (s : string) : bool :=
  match s with
  | EmptyString => true
  | String c r => negb (GameManager.isXY c) && noVariables r
  end.

End ExprSpec.

Module LobbySpec.
Import LobbyManager.

(** A stored lobby is well formed in a registry: its code is not empty, is
    in upper case and is the one it is stored under; its host is in the
    index under the code; a guest is a player other than the host, in the
    index under the code, of a lobby that is not waiting; a lobby without a
    guest has no guest name and is waiting or finished. *)
Definition wellFormed (index : gmap string string) (code : string) (lobby : Lobby.t) : Prop :=
  code <> "" /\
  toUpperCase code = code /\
  Lobby.roomCode lobby = code /\
  index !! Lobby.hostId lobby = Some code /\
  match Lobby.guestId lobby with
  | Some guest =>
    guest <> "" /\ guest <> Lobby.hostId lobby /\ index !! guest = Some code /\
    Lobby.status lobby <> waiting
  | None =>
    Lobby.guestName lobby = None /\
    (Lobby.status lobby = waiting \/ Lobby.status lobby = finished)
  end.

(** The registry is consistent: a room code is a key once, every lobby is
    well formed, and every player of the index is the host or the guest of
    the lobby the index names. *)
Definition consistent (st : Registry) : Prop :=
  NoDup (map fst (lobbies st)) /\
  (forall code lobby, mapGet (lobbies st) code = Some lobby ->
     wellFormed (playerToRoom st) code lobby) /\
  (forall player code, playerToRoom st !! player = Some code ->
     exists lobby, mapGet (lobbies st) code = Some lobby /\
       (Lobby.hostId lobby = player \/ Lobby.guestId lobby = Some player)).

(** The entry of a lobby in the list of available lobbies. *)
Definition listingOf (lobby : Lobby.t) : Listing :=
  {| listedRoom := Lobby.roomCode lobby;
     listedHost := Lobby.hostName lobby;
     listedDifficulty := Lobby.difficulty lobby;
     listedAt := Lobby.createdAt lobby |}.

(** A list of listings is ordered from the newest to the oldest. *)
Fixpoint newestFirst (l : list Listing) : Prop :=
  match l with
  | [] => True
  | x :: rest => (forall y, In y rest -> listedAt y <= listedAt x) /\ newestFirst rest
  end.

(** No lobby and no player. *)
Definition emptyRegistry : Registry := {| lobbies := []; playerToRoom := ∅ |}.

(** The code that the [k]-th attempt of [generateRoomCode] draws, from the
    draws [4k] to [4k+3]. *)
Definition blockCode (us : list Q) (k : nat) : option string :=
  match drop (4 * k) us with
  | u1 :: u2 :: u3 :: u4 :: _ =>
    Some (randomChar u1 +:+ randomChar u2 +:+ randomChar u3 +:+ randomChar u4)
  | _ => None
  end.

(** The characters of a string. *)
Fixpoint charsOf (s : string) : list ascii :=
  match s with
  | EmptyString => []
  | String c r => c :: charsOf r
  end.

End LobbySpec.

(** Registries for the examples: one room that waits, and the same room with
    its guest. *)
Module LobbySamples.
Import LobbyManager.

Definition waitingLobby : Lobby.t :=
  {| Lobby.roomCode := "AAAA"; Lobby.hostId := "h1"; Lobby.hostName := "Ana";
     Lobby.guestId := None; Lobby.guestName := None; Lobby.difficulty := "easy";
     Lobby.status := waiting; Lobby.createdAt := 0 |}.

Definition readyLobby : Lobby.t :=
  {| Lobby.roomCode := "AAAA"; Lobby.hostId := "h1"; Lobby.hostName := "Ana";
     Lobby.guestId := Some "g1"; Lobby.guestName := Some "Luis"; Lobby.difficulty := "easy";
     Lobby.status := ready; Lobby.createdAt := 0 |}.

Definition waitingRoom : Registry :=
  {| lobbies := [("AAAA", waitingLobby)]; playerToRoom := {["h1" := "AAAA"]} |}.

Definition readyRoom : Registry :=
  {| lobbies := [("AAAA", readyLobby)];
     playerToRoom := <["g1" := "AAAA"]> {["h1" := "AAAA"]} |}.

End LobbySamples.

(** ** The run-time helpers on examples *)

Example toString_ex : JS.toString 120 = "120" /\ JS.toString 0 = "0" /\ JS.toString (-7) = "-7".
Proof. repeat split; reflexivity. Qed.

Example evalArith_ex :
  JS.evalArith "4 * (6 + 4)" = Some (40 # 1)%Q /\
  JS.evalArith "8 / 6 / 3" = Some (4 # 9)%Q /\
  JS.evalArith "2 + 3 * -4 - (1 - 2)" = Some (-9 # 1)%Q /\
  JS.evalArith "7 / (3 - 3)" = None /\
  JS.evalArith "" = None /\
  JS.evalArith "3 +" = None.
Proof. repeat split; vm_compute; reflexivity. Qed.

(** ** Properties of the search engine *)

Section SearchEngine.
Import GameLogic.

(** The set that [explore] builds only grows. *)
Lemma addResult_incl (acc : list Z) (num x : Z) : x ∈ acc -> x ∈ addResult acc num.
Proof.
  intros Hx. unfold addResult. case_decide; [assumption|].
  apply elem_of_app. now left.
Qed.

Lemma fold_addResult_incl (nums acc : list Z) (x : Z) :
  x ∈ acc -> x ∈ fold_left addResult nums acc.
Proof.
  revert acc. induction nums as [|n nums IH]; intros acc Hx; simpl; [assumption|].
  apply IH. now apply addResult_incl.
Qed.

Lemma fold_left_incl {B : Type} (f : list Z -> B -> list Z) (l : list B) (acc : list Z) (x : Z) :
  (forall a b, x ∈ a -> x ∈ f a b) -> x ∈ acc -> x ∈ fold_left f l acc.
Proof.
  intros Hf. revert acc. induction l as [|b l IH]; intros acc Hx; cbn; auto.
Qed.

Lemma explore_incl (fuel : nat) (difficulty : string) (currentNumbers acc : list Z) (x : Z) :
  x ∈ acc -> x ∈ explore fuel difficulty currentNumbers acc.
Proof.
  revert currentNumbers acc.
  induction fuel as [|fuel IH]; intros l acc Hx; cbn [explore];
    destruct (List.length l =? 1)%nat; try now apply fold_addResult_incl.
  apply fold_left_incl; [|now apply fold_addResult_incl].
  intros a [i j] Ha. apply fold_left_incl; [|exact Ha].
  intros a' res Ha'. now apply IH.
Qed.

Lemma recorded_atom (nums acc : list Z) (num : Z) :
  num ∈ nums -> Z.abs num ∈ fold_left addResult nums acc.
Proof.
  revert acc. induction nums as [|n nums IH]; intros acc Hin.
  - now apply elem_of_nil in Hin.
  - cbn. apply elem_of_cons in Hin as [-> | Hin]; [|now apply IH].
    apply fold_addResult_incl. unfold addResult. case_decide; [assumption|].
    apply elem_of_app. right. apply elem_of_cons. now left.
Qed.

(** X5.  The absolute value of every number of the round is in its reachable
    set, whatever the difficulty. *)
Theorem reachableSet_atoms (difficulty : string) (allNumbers : list Z) (num : Z) :
  num ∈ allNumbers -> Z.abs num ∈ reachableSet difficulty allNumbers.
Proof.
  intros Hin. unfold reachableSet.
  destruct allNumbers as [|n rest]; [now apply elem_of_nil in Hin|].
  cbn [List.length explore].
  destruct (S (List.length rest) =? 1)%nat; [now apply recorded_atom|].
  apply fold_left_incl; [|now apply recorded_atom].
  intros a [i j] Ha. apply fold_left_incl; [|exact Ha].
  intros a' res Ha'. now apply explore_incl.
Qed.

(** The card 9 of the round 1, 1, 1, 9. *)
Lemma reachableSet_atoms_witness :
  9 ∈ [1; 1; 1; 9] /\ Z.abs 9 ∈ reachableSet "easy" [1; 1; 1; 9].
Proof.
  assert (Hin : 9 ∈ [1; 1; 1; 9]) by (rewrite !elem_of_cons; auto).
  split; [exact Hin|]. exact (reachableSet_atoms "easy" [1; 1; 1; 9] 9 Hin).
Defined.

End SearchEngine.

(** ** Targets of the match coordinator *)

Section Targets.
Import GameManager Samples.

(** The easy profile has the same two operators on the server and in the
    search engine, so the reachable set of an easy round is the one [explore]
    computes for ["easy"]. *)
Lemma easy_operators :
  Config.operatorSymbols (DIFFICULTY_CONFIG easy) = GameLogic.operators GameLogic.easy.
Proof. reflexivity. Qed.

Lemma reachable_twos : GameLogic.reachableSet "easy" [2; 2; 2; 2] = [2; 4; 6; 8; 0].
Proof. vm_compute. reflexivity. Qed.

Lemma shuffled_twos (sh : list Z -> list Z) :
  (forall l, sh l ≡ₚ l) -> sh [2; 2; 2; 2] = [2; 2; 2; 2].
Proof.
  intros Hperm. symmetry.
  apply (replicate_Permutation 4 2 (sh [2; 2; 2; 2])).
  symmetry. apply Hperm.
Qed.

(** C1 (the code departs from the claim).  At the initialization of a match
    and at every advance to a next round the server takes its target from
    [generateTarget], a signed sum of three cards clamped into the target
    range.  When an easy round deals four cards 2 and the signs drawn are
    plus, plus, minus, the sum is 2 and the clamp makes the target 5, whatever
    the shuffle: 5 is not reachable from 2, 2, 2, 2 with addition and
    subtraction, although the reachable values 6 and 8 lie in the target
    range of 5 to 30, so this is not the fallback for a round without any
    reachable value in range. *)
Theorem C1_generateTarget_emits_unreachable_target (sh : list Z -> list Z) :
  (forall l, sh l ≡ₚ l) ->
  let o := twosOracle sh in
  let range := Config.targetRange (DIFFICULTY_CONFIG easy) in
  (exists game,
      fst (initializeGame "ROOM" (lobbyOf "easy") o ∅) = Some game /\
      Game.sharedCards game = [2; 2; 2; 2] /\
      Game.variableValues game = [] /\
      Game.target game = 5) /\
  (exists game,
      fst (startNextRound "ROOM" o {["ROOM" := openGame]}) = Some game /\
      Game.sharedCards game = [2; 2; 2; 2] /\
      Game.variableValues game = [] /\
      Game.target game = 5) /\
  (5 ∉ GameLogic.reachableSet "easy" [2; 2; 2; 2]) /\
  (6 ∈ GameLogic.reachableSet "easy" [2; 2; 2; 2]) /\
  GameLogic.inRange range 6 = true.
Proof.
  intros Hperm o range.
  assert (Hcards : generateCards easy (forCards o) = [2; 2; 2; 2])
    by (vm_compute; reflexivity).
  assert (Htarget : generateTarget easy [2; 2; 2; 2] [] (sh [2; 2; 2; 2]) (forTarget o) = 5).
  { rewrite (shuffled_twos sh Hperm). vm_compute. reflexivity. }
  split; [|split; [|split; [|split]]].
  - eexists. split; [reflexivity|]. cbn [Game.sharedCards Game.variableValues Game.target].
    rewrite Hcards.
    change (generateVariableValues easy (forVariableValues o)) with (@nil (string * Z)).
    change (shuffle o) with sh. rewrite Htarget. auto.
  - unfold startNextRound. rewrite lookup_singleton_eq.
    eexists. split; [reflexivity|]. cbn [Game.sharedCards Game.variableValues Game.target].
    change (Game.difficulty openGame) with easy.
    rewrite Hcards.
    change (generateVariableValues easy (forVariableValues o)) with (@nil (string * Z)).
    change (shuffle o) with sh. rewrite Htarget. auto.
  - rewrite reachable_twos. intros Hin.
    repeat (apply elem_of_cons in Hin as [Heq | Hin]; [discriminate Heq|]).
    now apply elem_of_nil in Hin.
  - rewrite reachable_twos. rewrite !elem_of_cons. auto.
  - reflexivity.
Qed.

(** The shuffle that leaves the cards in place is a witness of C1's
    hypothesis. *)
Lemma C1_witness :
  (forall l : list Z, (fun l' => l') l ≡ₚ l) /\
  5 ∉ GameLogic.reachableSet "easy" [2; 2; 2; 2].
Proof.
  split; [reflexivity|].
  apply (C1_generateTarget_emits_unreachable_target (fun l' => l')). reflexivity.
Defined.

End Targets.

(** ** Solutions of the search engine *)

Section Solutions.
Import GameLogic.

(** Scenario A of the specification: the cards 4, 6, 10 and the target 40. *)
Example findSolution_scenario_A :
  findSolution 40 [4; 6; 10] "medium" [] = "4 * 10" /\
  evaluateExpressionWithVariables JS.evalArith "4 * 10" [] = Some (40 # 1)%Q.
Proof. split; vm_compute; reflexivity. Qed.

(** A solution that needs its parentheses, and has them. *)
Example findSolution_parentheses :
  findSolution 24 [4; 7; 3] "medium" [("x", 5)] = "(x - (4 - 7)) * 3" /\
  evaluateExpressionWithVariables JS.evalArith "(x - (4 - 7)) * 3" [("x", 5)]
    = Some (24 # 1)%Q.
Proof. split; vm_compute; reflexivity. Qed.

(** C2 (the code departs from the claim).  [wrap] puts parentheses around an
    operand only when its precedence is below 2, so a product or a quotient
    on the right of a division is emitted bare.  On a medium round with the
    cards 6, 3, 5 and x = 8 the target 20 is reachable, as 5 * 8 / (6 / 3);
    [findSolution] returns the string "5 * x / 6 / 3", which with x = 8
    evaluates to 20/9, not to 20 within 0.0001.  The same happens without a
    variable: for the cards 6, 3, 8 and the reachable value 4 the string is
    "8 / 6 / 3", which evaluates to 4/9. *)
Theorem C2_findSolution_loses_grouping :
  (20 ∈ reachableSet "medium" ([6; 3; 5] ++ [8])) /\
  findSolution 20 [6; 3; 5] "medium" [("x", 8)] = "5 * x / 6 / 3" /\
  "5 * x / 6 / 3" <> notFound /\
  evaluateExpressionWithVariables JS.evalArith "5 * x / 6 / 3" [("x", 8)]
    = Some (20 # 9)%Q /\
  ~ (Qabs ((20 # 9) - inject_Z 20) < 1 # 10000)%Q /\
  (4 ∈ reachableSet "medium" [6; 3; 8]) /\
  findSolution 4 [6; 3; 8] "medium" [] = "8 / 6 / 3" /\
  evaluateExpressionWithVariables JS.evalArith "8 / 6 / 3" [] = Some (4 # 9)%Q /\
  ~ (Qabs ((4 # 9) - inject_Z 4) < 1 # 10000)%Q.
Proof.
  split; [|split; [|split; [|split; [|split; [|split; [|split; [|split]]]]]]].
  - apply (bool_decide_unpack _). vm_compute. exact I.
  - vm_compute. reflexivity.
  - discriminate.
  - vm_compute. reflexivity.
  - vm_compute. intros H. discriminate H.
  - apply (bool_decide_unpack _). vm_compute. exact I.
  - vm_compute. reflexivity.
  - vm_compute. reflexivity.
  - vm_compute. intros H. discriminate H.
Qed.

End Solutions.

(** ** Comparisons of rationals *)

Lemma Qltb_true (a b : Q) : JS.Qltb a b = true <-> (a < b)%Q.
Proof.
  unfold JS.Qltb. rewrite negb_true_iff. split.
  - intros H. apply Qnot_le_lt. intros Hle. apply Qle_bool_iff in Hle. congruence.
  - intros H. destruct (Qle_bool b a) eqn:E; [|reflexivity].
    apply Qle_bool_iff in E. exfalso. exact (Qlt_not_le _ _ H E).
Qed.

Lemma Qltb_false (a b : Q) : JS.Qltb a b = false <-> (b <= a)%Q.
Proof.
  unfold JS.Qltb. rewrite negb_false_iff. apply Qle_bool_iff.
Qed.

Lemma Qleb_true (a b : Q) : JS.Qleb a b = true <-> (a <= b)%Q.
Proof. apply Qle_bool_iff. Qed.

Lemma Qeqb_true (a b : Q) : JS.Qeqb a b = true <-> (a == b)%Q.
Proof. apply Qeq_bool_iff. Qed.

(** Case analysis on the comparisons of rationals a definition makes, and
    their reading as orders. *)
Ltac destruct_tiers :=
  repeat match goal with
  | |- context [JS.Qeqb ?a ?b] => let E := fresh "E" in destruct (JS.Qeqb a b) eqn:E
  | |- context [JS.Qleb ?a ?b] => let E := fresh "E" in destruct (JS.Qleb a b) eqn:E
  | |- context [JS.Qltb ?a ?b] => let E := fresh "E" in destruct (JS.Qltb a b) eqn:E
  end.

Ltac to_orders :=
  repeat match goal with
  | H : JS.Qeqb _ _ = true |- _ => apply Qeqb_true in H
  | H : JS.Qleb _ _ = true |- _ => apply Qleb_true in H
  | H : JS.Qltb _ _ = true |- _ => apply Qltb_true in H
  | H : JS.Qltb _ _ = false |- _ => apply Qltb_false in H
  end.

(** ** Resolution of a round *)

Section Resolution.
Import GameManager Samples Spec.

Lemma closer_nearer (a b : option Q) : closer a b = true <-> nearer a b.
Proof.
  destruct a as [x|], b as [y|]; simpl.
  - apply Qltb_true.
  - split; auto.
  - split; [discriminate | contradiction].
  - split; [discriminate | contradiction].
Qed.

Lemma nearer_asym (a b : option Q) : nearer a b -> ~ nearer b a.
Proof.
  destruct a as [x|], b as [y|]; simpl; auto.
  intros H1 H2. exact (Qlt_irrefl _ (Qlt_trans _ _ _ H1 H2)).
Qed.

Lemma level_not_nearer (a b : option Q) : level a b -> ~ nearer a b /\ ~ nearer b a.
Proof.
  destruct a as [x|], b as [y|]; simpl; auto.
  intros H. split; intros Hlt; rewrite H in Hlt; exact (Qlt_irrefl _ Hlt).
Qed.

(** [Math.floor(damage * 0.5)] is the integer half, rounded down. *)
Lemma half_div (damage : Z) : half damage = damage / 2.
Proof. unfold half, Qfloor. simpl. now rewrite Z.mul_1_r. Qed.

(** What [resolveGame] reports is what [roundOutcome] decided. *)
Lemma resolveGame_round (game : Game.t) :
  let p1 := Game.player1 game in
  let p2 := Game.player2 game in
  let d1 := calculateDamage (Player.result p1) (Game.target game) (Game.difficulty game) in
  let d2 := calculateDamage (Player.result p2) (Game.target game) (Game.difficulty game) in
  let res := fst (resolveGame game) in
  (RoundResult.roundWinner res,
   PlayerResult.damageTaken (RoundResult.player1 res),
   PlayerResult.damageTaken (RoundResult.player2 res))
  = roundOutcome (Player.name p1) (Player.name p2) d1 d2
      (distance (Player.result p1) (Game.target game))
      (distance (Player.result p2) (Game.target game)) /\
  PlayerResult.damageType (RoundResult.player1 res) = type d1 /\
  PlayerResult.damageType (RoundResult.player2 res) = type d2 /\
  PlayerResult.currentHp (RoundResult.player1 res)
    = Z.max 0 (Player.hp p1 - PlayerResult.damageTaken (RoundResult.player1 res)) /\
  PlayerResult.currentHp (RoundResult.player2 res)
    = Z.max 0 (Player.hp p2 - PlayerResult.damageTaken (RoundResult.player2 res)).
Proof.
  cbv zeta. unfold resolveGame. cbn [withStatus Game.player1 Game.player2 Game.target Game.difficulty].
  destruct (roundOutcome _ _ _ _ _ _) as [[w t1] t2].
  destruct (matchOutcome _ _ _ _) as [over who].
  cbn. auto.
Qed.

(** A submission is classified as a miss exactly when it has no result or its
    distance to the target is at least the profile's miss threshold. *)
Lemma calculateDamage_isMiss (result : option Q) (target : Z) (difficulty : Difficulty) :
  isMiss (calculateDamage result target difficulty) = true <->
  match result with
  | None => True
  | Some r =>
    (inject_Z (Thresholds.miss (Config.accuracyThresholds (DIFFICULTY_CONFIG difficulty)))
     <= Qabs (r - inject_Z target))%Q
  end.
Proof.
  destruct result as [r|]; [|simpl; tauto].
  unfold calculateDamage.
  set (d := Qabs (r - inject_Z target)).
  destruct difficulty; cbn [DIFFICULTY_CONFIG Config.accuracyThresholds Thresholds.perfect
    Thresholds.excellent Thresholds.good Thresholds.ok Thresholds.miss];
    destruct_tiers; simpl; to_orders; unfold inject_Z in *;
    (split; [intros Hm; try discriminate Hm; try assumption
            | intros Hm; try reflexivity; try (exfalso; lra)]).
Qed.

(** Damage of a miss is zero. *)
Lemma calculateDamage_miss_zero (result : option Q) (target : Z) (difficulty : Difficulty) :
  isMiss (calculateDamage result target difficulty) = true ->
  damage (calculateDamage result target difficulty) = 0 /\
  type (calculateDamage result target difficulty) = "miss".
Proof.
  destruct result as [r|]; [|simpl; auto].
  unfold calculateDamage. destruct_tiers; simpl; intros H; try discriminate H; auto.
Qed.

(** The outcome of a round, on the game that [resolveRound] found. *)
Lemma resolveGame_outcome (game : Game.t) :
  let p1 := Game.player1 game in
  let p2 := Game.player2 game in
  let target := Game.target game in
  let d1 := calculateDamage (Player.result p1) target (Game.difficulty game) in
  let d2 := calculateDamage (Player.result p2) target (Game.difficulty game) in
  let dist1 := distance (Player.result p1) target in
  let dist2 := distance (Player.result p2) target in
  let res := fst (resolveGame game) in
  let winner := RoundResult.roundWinner res in
  let taken1 := PlayerResult.damageTaken (RoundResult.player1 res) in
  let taken2 := PlayerResult.damageTaken (RoundResult.player2 res) in
  (isMiss d1 = true -> isMiss d2 = true ->
   winner = "draw_miss" /\ taken1 = 0 /\ taken2 = 0) /\
  (~ (isMiss d1 = true /\ isMiss d2 = true) -> nearer dist1 dist2 ->
   winner = Player.name p1 /\ taken2 = damage d1 /\ taken1 = 0) /\
  (~ (isMiss d1 = true /\ isMiss d2 = true) -> nearer dist2 dist1 ->
   winner = Player.name p2 /\ taken1 = damage d2 /\ taken2 = 0) /\
  (~ (isMiss d1 = true /\ isMiss d2 = true) -> level dist1 dist2 ->
   winner = "draw" /\ taken1 = damage d2 / 2 /\ taken2 = damage d1 / 2) /\
  (Player.result p1 = None ->
   PlayerResult.damageType (RoundResult.player1 res) = "miss" /\ damage d1 = 0 /\ taken2 = 0) /\
  (Player.result p2 = None ->
   PlayerResult.damageType (RoundResult.player2 res) = "miss" /\ damage d2 = 0 /\ taken1 = 0) /\
  (Player.result p2 = None -> isMiss d1 = false ->
   winner = Player.name p1 /\ taken2 = damage d1 /\ taken1 = 0) /\
  (Player.result p1 = None -> isMiss d2 = false ->
   winner = Player.name p2 /\ taken1 = damage d2 /\ taken2 = 0).
Proof.
  intros p1 p2 target d1 d2 dist1 dist2 res winner taken1 taken2.
  destruct (resolveGame_round game) as (Hout & Hty1 & Hty2 & _ & _).
  fold p1 p2 target d1 d2 dist1 dist2 res in Hout, Hty1, Hty2.
  fold winner taken1 taken2 in Hout.
  assert (Hboth : isMiss d1 = true -> isMiss d2 = true ->
                  winner = "draw_miss" /\ taken1 = 0 /\ taken2 = 0).
  { intros H1 H2. unfold roundOutcome in Hout. rewrite H1, H2 in Hout. simpl in Hout.
    inversion Hout. auto. }
  assert (Hfirst : ~ (isMiss d1 = true /\ isMiss d2 = true) -> nearer dist1 dist2 ->
                   winner = Player.name p1 /\ taken2 = damage d1 /\ taken1 = 0).
  { intros Hnot Hnear. unfold roundOutcome in Hout.
    destruct (isMiss d1 && isMiss d2) eqn:Eb.
    - apply andb_true_iff in Eb. contradiction.
    - apply closer_nearer in Hnear. rewrite Hnear in Hout. inversion Hout. auto. }
  assert (Hsecond : ~ (isMiss d1 = true /\ isMiss d2 = true) -> nearer dist2 dist1 ->
                    winner = Player.name p2 /\ taken1 = damage d2 /\ taken2 = 0).
  { intros Hnot Hnear. unfold roundOutcome in Hout.
    destruct (isMiss d1 && isMiss d2) eqn:Eb.
    - apply andb_true_iff in Eb. contradiction.
    - destruct (closer dist1 dist2) eqn:Ec.
      + apply closer_nearer in Ec. destruct (nearer_asym _ _ Hnear Ec).
      + apply closer_nearer in Hnear. rewrite Hnear in Hout. inversion Hout. auto. }
  split; [exact Hboth|]. split; [exact Hfirst|]. split; [exact Hsecond|].
  split; [|split; [|split; [|split]]].
  - intros Hnot Hlevel. unfold roundOutcome in Hout.
    destruct (isMiss d1 && isMiss d2) eqn:Eb.
    + apply andb_true_iff in Eb. contradiction.
    + destruct (level_not_nearer _ _ Hlevel) as [Hn1 Hn2].
      destruct (closer dist1 dist2) eqn:Ec1; [apply closer_nearer in Ec1; contradiction|].
      destruct (closer dist2 dist1) eqn:Ec2; [apply closer_nearer in Ec2; contradiction|].
      rewrite !half_div in Hout. inversion Hout. auto.
  - intros Hnone. rewrite Hty1.
    assert (Hd1 : d1 = calculateDamage None target (Game.difficulty game))
      by (unfold d1; now rewrite Hnone).
    rewrite Hd1. simpl. split; [reflexivity|]. split; [reflexivity|].
    destruct (isMiss d2) eqn:E2.
    + apply Hboth; [rewrite Hd1|]; reflexivity.
    + assert (Hnear : nearer dist2 dist1).
      { unfold dist1, dist2. rewrite Hnone. simpl.
        destruct (Player.result p2) as [r2|] eqn:Er; [exact I|].
        unfold d2 in E2. try rewrite Er in E2. discriminate E2. }
      apply Hsecond; [|exact Hnear]. intros [_ H]. congruence.
  - intros Hnone. rewrite Hty2.
    assert (Hd2 : d2 = calculateDamage None target (Game.difficulty game))
      by (unfold d2; now rewrite Hnone).
    rewrite Hd2. simpl. split; [reflexivity|]. split; [reflexivity|].
    destruct (isMiss d1) eqn:E1.
    + apply Hboth; [|rewrite Hd2]; reflexivity.
    + assert (Hnear : nearer dist1 dist2).
      { unfold dist1, dist2. rewrite Hnone. simpl.
        destruct (Player.result p1) as [r1|] eqn:Er; [exact I|].
        unfold d1 in E1. try rewrite Er in E1. discriminate E1. }
      apply Hfirst; [|exact Hnear]. intros [H _]. congruence.
  - intros Hnone Hvalid. apply Hfirst; [intros [H _]; congruence|].
    unfold dist1, dist2. rewrite Hnone.
    destruct (Player.result p1) as [r1|] eqn:Er; [exact I|].
    unfold d1 in Hvalid. try rewrite Er in Hvalid. discriminate Hvalid.
  - intros Hnone Hvalid. apply Hsecond; [intros [_ H]; congruence|].
    unfold dist1, dist2. rewrite Hnone.
    destruct (Player.result p2) as [r2|] eqn:Er; [exact I|].
    unfold d2 in Hvalid. try rewrite Er in Hvalid. discriminate Hvalid.
Qed.

(** When [resolveRound] finds the game it stores what [resolveGame] yields. *)
Lemma resolveRound_found (roomCode : string) (games : Games) (game : Game.t) :
  games !! roomCode = Some game ->
  resolveRound roomCode games
  = (Some (fst (resolveGame game)), <[roomCode := snd (resolveGame game)]> games).
Proof.
  intros Hfound. unfold resolveRound. rewrite Hfound.
  now destruct (resolveGame game).
Qed.

Lemma resolveRound_missing (roomCode : string) (games : Games) :
  games !! roomCode = None -> resolveRound roomCode games = (None, games).
Proof. intros Hnone. unfold resolveRound. now rewrite Hnone. Qed.

(** C3.  In [resolveRound]: when both players are classified as a miss the
    round is a draw without damage; otherwise the player strictly nearer to
    the target wins and only the other one takes the winner's computed
    damage; when the distances tie each takes half, rounded down, of what
    the other would have dealt.  A player without a result is a miss that
    deals nothing, and an opponent who is not a miss then deals the full
    computed damage. *)
Theorem C3_resolveRound_outcome (roomCode : string) (games : Games) (game : Game.t) :
  games !! roomCode = Some game ->
  exists res,
    fst (resolveRound roomCode games) = Some res /\
    let p1 := Game.player1 game in
    let p2 := Game.player2 game in
    let target := Game.target game in
    let d1 := calculateDamage (Player.result p1) target (Game.difficulty game) in
    let d2 := calculateDamage (Player.result p2) target (Game.difficulty game) in
    let dist1 := distance (Player.result p1) target in
    let dist2 := distance (Player.result p2) target in
    let winner := RoundResult.roundWinner res in
    let taken1 := PlayerResult.damageTaken (RoundResult.player1 res) in
    let taken2 := PlayerResult.damageTaken (RoundResult.player2 res) in
    (isMiss d1 = true -> isMiss d2 = true ->
     winner = "draw_miss" /\ taken1 = 0 /\ taken2 = 0) /\
    (~ (isMiss d1 = true /\ isMiss d2 = true) -> nearer dist1 dist2 ->
     winner = Player.name p1 /\ taken2 = damage d1 /\ taken1 = 0) /\
    (~ (isMiss d1 = true /\ isMiss d2 = true) -> nearer dist2 dist1 ->
     winner = Player.name p2 /\ taken1 = damage d2 /\ taken2 = 0) /\
    (~ (isMiss d1 = true /\ isMiss d2 = true) -> level dist1 dist2 ->
     winner = "draw" /\ taken1 = damage d2 / 2 /\ taken2 = damage d1 / 2) /\
    (Player.result p1 = None ->
     PlayerResult.damageType (RoundResult.player1 res) = "miss" /\ damage d1 = 0 /\ taken2 = 0) /\
    (Player.result p2 = None ->
     PlayerResult.damageType (RoundResult.player2 res) = "miss" /\ damage d2 = 0 /\ taken1 = 0) /\
    (Player.result p2 = None -> isMiss d1 = false ->
     winner = Player.name p1 /\ taken2 = damage d1 /\ taken1 = 0) /\
    (Player.result p1 = None -> isMiss d2 = false ->
     winner = Player.name p2 /\ taken1 = damage d2 /\ taken2 = 0).
Proof.
  intros Hfound. exists (fst (resolveGame game)).
  split; [now rewrite (resolveRound_found _ _ _ Hfound)|].
  exact (resolveGame_outcome game).
Qed.

(** Scenario C of the specification on [oneSidedGame]: the first player hits
    the target exactly, the second has no result. *)
Lemma C3_witness :
  ({["ROOM" := oneSidedGame]} : Games) !! "ROOM" = Some oneSidedGame /\
  exists res,
    fst (resolveRound "ROOM" {["ROOM" := oneSidedGame]}) = Some res /\
    RoundResult.roundWinner res = "Player1" /\
    PlayerResult.damageTaken (RoundResult.player2 res) = 50 /\
    PlayerResult.damageTaken (RoundResult.player1 res) = 0.
Proof.
  assert (Hfound : ({["ROOM" := oneSidedGame]} : Games) !! "ROOM" = Some oneSidedGame)
    by reflexivity.
  split; [exact Hfound|].
  destruct (C3_resolveRound_outcome "ROOM" {["ROOM" := oneSidedGame]} oneSidedGame Hfound)
    as (res & Hres & H).
  cbv zeta in H. destruct H as (_ & _ & _ & _ & _ & _ & H & _).
  exists res. split; [exact Hres|]. exact (H eq_refl eq_refl).
Defined.

(** C7.  [resolveRound] subtracts the damage taken from each health and
    clamps at zero, so no health is negative afterwards.  When exactly one
    health is zero the match is over and the other player is the winner;
    when both are zero the match is over and drawn; otherwise the match goes
    on and waits for the next round. *)
Theorem C7_health_and_termination (roomCode : string) (games : Games) (game : Game.t) :
  games !! roomCode = Some game ->
  exists res game',
    resolveRound roomCode games = (Some res, <[roomCode := game']> games) /\
    let hp1 := Player.hp (Game.player1 game') in
    let hp2 := Player.hp (Game.player2 game') in
    hp1 = Z.max 0 (Player.hp (Game.player1 game)
                   - PlayerResult.damageTaken (RoundResult.player1 res)) /\
    hp2 = Z.max 0 (Player.hp (Game.player2 game)
                   - PlayerResult.damageTaken (RoundResult.player2 res)) /\
    0 <= hp1 /\ 0 <= hp2 /\
    PlayerResult.currentHp (RoundResult.player1 res) = hp1 /\
    PlayerResult.currentHp (RoundResult.player2 res) = hp2 /\
    (hp1 = 0 -> hp2 <> 0 ->
     RoundResult.gameOver res = true /\
     RoundResult.winner res = Some (Player.name (Game.player2 game)) /\
     Game.status game' = finished) /\
    (hp2 = 0 -> hp1 <> 0 ->
     RoundResult.gameOver res = true /\
     RoundResult.winner res = Some (Player.name (Game.player1 game)) /\
     Game.status game' = finished) /\
    (hp1 = 0 -> hp2 = 0 ->
     RoundResult.gameOver res = true /\
     RoundResult.winner res = Some "draw" /\
     Game.status game' = finished) /\
    (hp1 <> 0 -> hp2 <> 0 ->
     RoundResult.gameOver res = false /\
     RoundResult.winner res = None /\
     Game.status game' = waiting_next).
Proof.
  intros Hfound.
  exists (fst (resolveGame game)), (snd (resolveGame game)).
  split; [now apply resolveRound_found|].
  unfold resolveGame.
  cbn [withStatus Game.player1 Game.player2 Game.target Game.difficulty].
  destruct (roundOutcome _ _ _ _ _ _) as [[w t1] t2].
  unfold matchOutcome. cbn [withHp Player.hp Player.name].
  set (h1 := Z.max 0 (Player.hp (Game.player1 game) - t1)).
  set (h2 := Z.max 0 (Player.hp (Game.player2 game) - t2)).
  assert (0 <= h1) by (subst h1; lia).
  assert (0 <= h2) by (subst h2; lia).
  destruct (h1 <=? 0) eqn:E1; destruct (h2 <=? 0) eqn:E2; cbn;
    repeat split; try reflexivity; try assumption; intros; lia.
Qed.

(** Scenario D of the specification on [lastStandGame]: both players hit the
    target, each takes 25, and both are at zero. *)
Lemma C7_witness :
  ({["ROOM" := lastStandGame]} : Games) !! "ROOM" = Some lastStandGame /\
  exists res game',
    fst (resolveRound "ROOM" {["ROOM" := lastStandGame]}) = Some res /\
    snd (resolveRound "ROOM" {["ROOM" := lastStandGame]})
      = <["ROOM" := game']> {["ROOM" := lastStandGame]} /\
    0 <= Player.hp (Game.player1 game') /\ 0 <= Player.hp (Game.player2 game').
Proof.
  assert (Hfound : ({["ROOM" := lastStandGame]} : Games) !! "ROOM" = Some lastStandGame)
    by reflexivity.
  split; [exact Hfound|].
  destruct (C7_health_and_termination "ROOM" {["ROOM" := lastStandGame]} lastStandGame Hfound)
    as (res & game' & Heq & _ & _ & H1 & H2 & _).
  exists res, game'. rewrite Heq. auto.
Defined.

(** ** A second resolution of the same round *)

(** A resolution that does not end the match leaves the game between rounds. *)
Lemma resolveGame_goes_on (game : Game.t) :
  RoundResult.gameOver (fst (resolveGame game)) = false ->
  betweenRounds (snd (resolveGame game)).
Proof.
  unfold resolveGame.
  cbn [withStatus Game.player1 Game.player2 Game.target Game.difficulty].
  destruct (roundOutcome _ _ _ _ _ _) as [[w t1] t2].
  unfold matchOutcome. cbn [withHp Player.hp Player.name].
  set (h1 := Z.max 0 (Player.hp (Game.player1 game) - t1)).
  set (h2 := Z.max 0 (Player.hp (Game.player2 game) - t2)).
  destruct (h1 <=? 0) eqn:E1; destruct (h2 <=? 0) eqn:E2; cbn; intros Hover;
    try discriminate Hover.
  unfold betweenRounds. cbn. repeat split; lia.
Qed.

(** Resolving a game between rounds changes nothing: both players are a miss,
    nobody takes damage. *)
Lemma resolveGame_betweenRounds (game : Game.t) :
  betweenRounds game ->
  snd (resolveGame game) = game /\
  RoundResult.roundWinner (fst (resolveGame game)) = "draw_miss" /\
  RoundResult.gameOver (fst (resolveGame game)) = false /\
  PlayerResult.damageTaken (RoundResult.player1 (fst (resolveGame game))) = 0 /\
  PlayerResult.damageTaken (RoundResult.player2 (fst (resolveGame game))) = 0 /\
  PlayerResult.currentHp (RoundResult.player1 (fst (resolveGame game)))
    = Player.hp (Game.player1 game) /\
  PlayerResult.currentHp (RoundResult.player2 (fst (resolveGame game)))
    = Player.hp (Game.player2 game).
Proof.
  intros (Hst & Hp1 & Hp2 & Hh1 & Hh2).
  destruct game as [rc df tg vv sc sv p1 p2 rd st].
  destruct p1 as [i1 n1 h1 m1 c1 v1 e1 s1 r1], p2 as [i2 n2 h2 m2 c2 v2 e2 s2 r2].
  cbn in Hst, Hp1, Hp2, Hh1, Hh2. unfold cleared in Hp1, Hp2. cbn in Hp1, Hp2.
  injection Hp1 as -> -> ->. injection Hp2 as -> -> ->. subst st.
  assert (E1 : (h1 <=? 0) = false) by lia.
  assert (E2 : (h2 <=? 0) = false) by lia.
  unfold resolveGame, matchOutcome. cbn.
  rewrite !Z.sub_0_r, !Z.max_r by lia.
  rewrite E1, E2. cbn. repeat split; reflexivity.
Qed.

(** C5, as the claim states it, fails on [tiedGame]: both players hit the
    target, the first with 20 health left.  The first resolution ends the match
    (the first player is at zero, the second at 75).  The second call is not
    rejected: it returns a result, charges the second player 25 again and
    stores a game in which that player is at 50. *)
Lemma C5_counterexample :
  let games0 : Games := {["ROOM" := tiedGame]} in
  let games1 := snd (resolveRound "ROOM" games0) in
  let second := resolveRound "ROOM" games1 in
  (exists game1,
      games1 !! "ROOM" = Some game1 /\
      Game.status game1 = finished /\
      Player.hp (Game.player2 game1) = 75) /\
  (exists res2 game2,
      fst second = Some res2 /\
      snd second !! "ROOM" = Some game2 /\
      PlayerResult.damageTaken (RoundResult.player2 res2) = 25 /\
      Player.hp (Game.player2 game2) = 50) /\
  snd second <> games1.
Proof.
  cbv zeta.
  assert (H0 : ({["ROOM" := tiedGame]} : Games) !! "ROOM" = Some tiedGame) by reflexivity.
  rewrite (resolveRound_found _ _ _ H0). cbn [snd].
  set (game1 := snd (resolveGame tiedGame)).
  assert (H1 : (<["ROOM" := game1]> ({["ROOM" := tiedGame]} : Games)) !! "ROOM" = Some game1)
    by apply lookup_insert_eq.
  rewrite (resolveRound_found _ _ _ H1). cbn [fst snd].
  assert (Hhp1 : Player.hp (Game.player2 game1) = 75) by (vm_compute; reflexivity).
  assert (Hhp2 : Player.hp (Game.player2 (snd (resolveGame game1))) = 50)
    by (vm_compute; reflexivity).
  split; [|split].
  - exists game1. split; [exact H1|]. split; [vm_compute; reflexivity | exact Hhp1].
  - exists (fst (resolveGame game1)), (snd (resolveGame game1)).
    split; [reflexivity|]. split; [apply lookup_insert_eq|].
    split; [vm_compute; reflexivity | exact Hhp2].
  - intros Heq.
    assert (Hl : (<["ROOM" := snd (resolveGame game1)]>
                    (<["ROOM" := game1]> ({["ROOM" := tiedGame]} : Games))) !! "ROOM"
                 = Some game1) by (rewrite Heq; exact H1).
    rewrite lookup_insert_eq in Hl.
    assert (Hg : snd (resolveGame game1) = game1) by congruence.
    pose proof (f_equal (fun g => Player.hp (Game.player2 g)) Hg) as Hf.
    cbv beta in Hf. rewrite Hhp2, Hhp1 in Hf. discriminate Hf.
Qed.

(** C5, amended.  A second [resolveRound] on a round whose resolution did not
    end the match is not rejected, but it changes nothing: it reports a draw
    between two misses without damage and leaves the stored games, hence both
    players' health, as the first call left them. *)
Theorem C5_second_resolution_changes_nothing
    (roomCode : string) (games : Games) (res : RoundResult.t) :
  fst (resolveRound roomCode games) = Some res ->
  RoundResult.gameOver res = false ->
  let games1 := snd (resolveRound roomCode games) in
  exists res2 game1,
    games1 !! roomCode = Some game1 /\
    resolveRound roomCode games1 = (Some res2, games1) /\
    RoundResult.roundWinner res2 = "draw_miss" /\
    RoundResult.gameOver res2 = false /\
    PlayerResult.damageTaken (RoundResult.player1 res2) = 0 /\
    PlayerResult.damageTaken (RoundResult.player2 res2) = 0 /\
    PlayerResult.currentHp (RoundResult.player1 res2) = Player.hp (Game.player1 game1) /\
    PlayerResult.currentHp (RoundResult.player2 res2) = Player.hp (Game.player2 game1).
Proof.
  intros Hres Hgoes games1. subst games1.
  destruct (games !! roomCode) as [game|] eqn:Hfound.
  - rewrite (resolveRound_found _ _ _ Hfound) in *. cbn [fst snd] in *.
    injection Hres as <-.
    set (game1 := snd (resolveGame game)).
    assert (Hbetween : betweenRounds game1) by now apply resolveGame_goes_on.
    destruct (resolveGame_betweenRounds game1 Hbetween) as (Hsame & Hw & Hover & Ht1 & Ht2 & Hc1 & Hc2).
    exists (fst (resolveGame game1)), game1.
    split; [apply lookup_insert_eq|].
    split; [|auto 10].
    rewrite (resolveRound_found _ _ game1) by apply lookup_insert_eq.
    rewrite Hsame. now rewrite insert_insert_eq.
  - rewrite (resolveRound_missing _ _ Hfound) in Hres. discriminate Hres.
Qed.

(** On [oneSidedGame] the first resolution leaves both players alive. *)
Lemma C5_witness :
  RoundResult.gameOver (fst (resolveGame oneSidedGame)) = false /\
  exists res2 game1,
    snd (resolveRound "ROOM" {["ROOM" := oneSidedGame]}) !! "ROOM" = Some game1 /\
    resolveRound "ROOM" (snd (resolveRound "ROOM" {["ROOM" := oneSidedGame]}))
      = (Some res2, snd (resolveRound "ROOM" {["ROOM" := oneSidedGame]})) /\
    RoundResult.roundWinner res2 = "draw_miss".
Proof.
  assert (Hfirst : fst (resolveRound "ROOM" {["ROOM" := oneSidedGame]})
                   = Some (fst (resolveGame oneSidedGame))) by reflexivity.
  assert (Hgoes : RoundResult.gameOver (fst (resolveGame oneSidedGame)) = false)
    by reflexivity.
  split; [exact Hgoes|].
  destruct (C5_second_resolution_changes_nothing "ROOM" {["ROOM" := oneSidedGame]}
              (fst (resolveGame oneSidedGame)) Hfirst Hgoes)
    as (res2 & game1 & H1 & H2 & H3 & _).
  exists res2, game1. auto.
Defined.

End Resolution.

(** ** Submissions *)

Section Submissions.
Import GameManager Samples Spec.

Variable eval : string -> Games -> option Q * Games.

(** The three ways of a submission to be rejected, and the one to succeed. *)
Lemma submit_cases (roomCode playerId expression : string) (games : Games) :
  let out := submitPlayerExpression eval roomCode playerId expression games in
  (games !! roomCode = None /\ out = (rejected "Juego no encontrado", games)) \/
  (exists game, games !! roomCode = Some game /\ Game.status game <> playing /\
     out = (rejected "No es momento de enviar expresiones", games)) \/
  (exists game, games !! roomCode = Some game /\ Game.status game = playing /\
     Player.submitted (playerOf game playerId) = true /\
     out = (rejected "Ya enviaste tu expresión", games)) \/
  (exists game, games !! roomCode = Some game /\ Game.status game = playing /\
     Player.submitted (playerOf game playerId) = false /\
     let evaluated :=
       evaluateExpression eval expression (Game.variableValues game)
         (<[roomCode := withPlayerOf game playerId
                          (withExpression (playerOf game playerId) expression)]> games) in
     out = (accepted,
            storeResult roomCode (String.eqb (Player.id (Game.player1 game)) playerId)
              (fst evaluated) (snd evaluated))).
Proof.
  cbv zeta. unfold submitPlayerExpression, playerOf, withPlayerOf.
  destruct (games !! roomCode) as [game|]; [|now left].
  right. case_bool_decide as Hst; cbn [negb].
  - destruct (String.eqb (Player.id (Game.player1 game)) playerId) eqn:E;
      match goal with
      | |- context [if Player.submitted ?p then _ else _] =>
        destruct (Player.submitted p) eqn:Hsub
      end;
      [right; left | right; right | right; left | right; right];
      exists game; rewrite E; auto.
  - left. exists game. auto.
Qed.

(** The player of an id is the same player after that player has been replaced
    by one with the same id. *)
Lemma playerOf_withPlayerOf (game : Game.t) (playerId : string) (player : Player.t) :
  Player.id player = Player.id (playerOf game playerId) ->
  playerOf (withPlayerOf game playerId player) playerId = player.
Proof.
  unfold playerOf, withPlayerOf.
  destruct (String.eqb (Player.id (Game.player1 game)) playerId) eqn:E; cbn; intros Hid.
  - rewrite Hid, E. reflexivity.
  - rewrite E. reflexivity.
Qed.

Lemma status_withPlayerOf (game : Game.t) (playerId : string) (player : Player.t) :
  Game.status (withPlayerOf game playerId player) = Game.status game.
Proof. unfold withPlayerOf. now destruct (String.eqb _ _). Qed.

(** A blank expression has no value: [eval] is not even called. *)
Lemma evaluateExpression_blank (expression : string) (variableValues : list (string * Z))
    (games : Games) :
  JS.isBlank expression = true ->
  evaluateExpression eval expression variableValues games = (None, games).
Proof. intros H. unfold evaluateExpression. now rewrite H. Qed.

(** A plain expression is evaluated without a trace in the games. *)
Lemma evaluateExpression_plain (expression : string) (variableValues : list (string * Z))
    (games : Games) :
  pureOnArithmetic eval -> plain expression variableValues = true ->
  evaluateExpression eval expression variableValues games
  = (valueOf eval expression variableValues, games).
Proof.
  intros Hpure Hplain. unfold valueOf, evaluateExpression. unfold plain in Hplain.
  destruct (JS.isBlank expression); [reflexivity|]. cbn in Hplain.
  now rewrite (Hpure _ games Hplain).
Qed.

(** A submission to a game that is in the playing state, of an expression
    whose evaluation leaves the games alone. *)
Lemma submit_inert (roomCode playerId expression : string) (games : Games) (game : Game.t)
    (result : option Q) :
  games !! roomCode = Some game ->
  Game.status game = playing ->
  (forall games', evaluateExpression eval expression (Game.variableValues game) games'
                  = (result, games')) ->
  submitPlayerExpression eval roomCode playerId expression games
  = if Player.submitted (playerOf game playerId)
    then (rejected "Ya enviaste tu expresión", games)
    else (accepted,
          <[roomCode :=
              withPlayerOf game playerId
                (withSubmission (playerOf game playerId) expression result)]>
            games).
Proof.
  intros Hfound Hst Hinert. unfold submitPlayerExpression, playerOf, withPlayerOf.
  rewrite Hfound, bool_decide_eq_true_2 by assumption. cbn [negb].
  destruct (String.eqb (Player.id (Game.player1 game)) playerId);
    match goal with
    | |- context [if Player.submitted ?p then _ else _] => destruct (Player.submitted p)
    end; try reflexivity;
    rewrite Hinert; cbn [fst snd]; unfold storeResult;
    rewrite lookup_insert_eq, insert_insert_eq; reflexivity.
Qed.

Lemma submit_plain (roomCode playerId expression : string) (games : Games) (game : Game.t) :
  pureOnArithmetic eval ->
  games !! roomCode = Some game ->
  Game.status game = playing ->
  plain expression (Game.variableValues game) = true ->
  submitPlayerExpression eval roomCode playerId expression games
  = if Player.submitted (playerOf game playerId)
    then (rejected "Ya enviaste tu expresión", games)
    else (accepted,
          <[roomCode :=
              withPlayerOf game playerId
                (withSubmission (playerOf game playerId) expression
                   (valueOf eval expression (Game.variableValues game)))]>
            games).
Proof.
  intros Hpure Hfound Hst Hplain. apply submit_inert; [assumption..|].
  intros games'. now apply evaluateExpression_plain.
Qed.

Lemma submit_not_playing (roomCode playerId expression : string) (games : Games)
    (game : Game.t) :
  games !! roomCode = Some game ->
  Game.status game <> playing ->
  submitPlayerExpression eval roomCode playerId expression games
  = (rejected "No es momento de enviar expresiones", games).
Proof.
  intros Hfound Hst. unfold submitPlayerExpression.
  now rewrite Hfound, bool_decide_eq_false_2 by assumption.
Qed.


(** C9.  The submissions of the two players of a game commute when the two
    expressions are blank or, with the variables of the round put in, pure
    arithmetic, which [eval] evaluates without touching the games:
    whichever of the host (player A) and the other player (player B)
    submits first, the stored games are the same afterwards, each player
    gets the same answer, and so [resolveRound] yields the same result and
    the same games. *)
Theorem C9_submissions_commute
    (roomCode : string) (games : Games) (game : Game.t)
    (idA idB exprA exprB : string) :
  pureOnArithmetic eval ->
  games !! roomCode = Some game ->
  plain exprA (Game.variableValues game) = true ->
  plain exprB (Game.variableValues game) = true ->
  idA = Player.id (Game.player1 game) ->
  idB <> Player.id (Game.player1 game) ->
  let afterA := submitPlayerExpression eval roomCode idA exprA games in
  let afterAB := submitPlayerExpression eval roomCode idB exprB (snd afterA) in
  let afterB := submitPlayerExpression eval roomCode idB exprB games in
  let afterBA := submitPlayerExpression eval roomCode idA exprA (snd afterB) in
  snd afterAB = snd afterBA /\
  fst afterA = fst afterBA /\
  fst afterB = fst afterAB /\
  resolveRound roomCode (snd afterAB) = resolveRound roomCode (snd afterBA).
Proof.
  intros Hpure Hfound PA PB HA HB.
  assert (EA : String.eqb (Player.id (Game.player1 game)) idA = true)
    by (subst idA; apply String.eqb_refl).
  assert (EB : String.eqb (Player.id (Game.player1 game)) idB = false)
    by (apply String.eqb_neq; congruence).
  cbv zeta.
  destruct (decide (Game.status game = playing)) as [Hst|Hst].
  - rewrite (submit_plain roomCode idA exprA games game Hpure Hfound Hst PA).
    rewrite (submit_plain roomCode idB exprB games game Hpure Hfound Hst PB).
    unfold playerOf, withPlayerOf. rewrite EA, EB.
    destruct (Player.submitted (Game.player1 game)) eqn:S1;
      destruct (Player.submitted (Game.player2 game)) eqn:S2; cbn [fst snd].
    + rewrite (submit_plain roomCode idA exprA games game Hpure Hfound Hst PA).
      rewrite (submit_plain roomCode idB exprB games game Hpure Hfound Hst PB).
      unfold playerOf. rewrite EA, EB, S1, S2. auto.
    + rewrite (submit_plain roomCode idB exprB games game Hpure Hfound Hst PB).
      rewrite (submit_plain roomCode idA exprA _ (withPlayer2 game _) Hpure
                 (lookup_insert_eq _ _ _) Hst PA).
      unfold playerOf, withPlayerOf. cbn [withPlayer2 Game.player1]. rewrite EA, EB, S1, S2.
      auto.
    + rewrite (submit_plain roomCode idA exprA games game Hpure Hfound Hst PA).
      rewrite (submit_plain roomCode idB exprB _ (withPlayer1 game _) Hpure
                 (lookup_insert_eq _ _ _) Hst PB).
      unfold playerOf, withPlayerOf.
      cbn [withPlayer1 withSubmission Game.player1 Game.player2 Player.id].
      rewrite EA, EB, S1, S2. auto.
    + rewrite (submit_plain roomCode idB exprB _ (withPlayer1 game _) Hpure
                 (lookup_insert_eq _ _ _) Hst PB).
      rewrite (submit_plain roomCode idA exprA _ (withPlayer2 game _) Hpure
                 (lookup_insert_eq _ _ _) Hst PA).
      unfold playerOf, withPlayerOf.
      cbn [withPlayer1 withPlayer2 withSubmission Game.player1 Game.player2 Player.id
             Game.variableValues].
      rewrite EA, EB, S1, S2. cbn [fst snd]. rewrite !insert_insert_eq. auto.
  - repeat (rewrite !(submit_not_playing roomCode _ _ games game Hfound Hst); cbn [fst snd]).
    auto.
Qed.

(** A player without a result is reported as a miss. *)
Lemma no_result_is_miss (game : Game.t) (playerId : string) :
  Player.result (playerOf game playerId) = None ->
  PlayerResult.damageType (resultOf game (fst (resolveGame game)) playerId) = "miss".
Proof.
  destruct (resolveGame_round game) as (_ & Hty1 & Hty2 & _).
  unfold playerOf, resultOf.
  destruct (String.eqb (Player.id (Game.player1 game)) playerId); intros Hnone.
  - rewrite Hty1, Hnone. reflexivity.
  - rewrite Hty2, Hnone. reflexivity.
Qed.

(** The other player's submission does not touch a player's fields. *)
Lemma playerOf_withPlayerOf_other (game : Game.t) (playerId otherId : string)
    (player : Player.t) :
  String.eqb (Player.id (Game.player1 game)) otherId
    <> String.eqb (Player.id (Game.player1 game)) playerId ->
  Player.id player = Player.id (playerOf game otherId) ->
  playerOf (withPlayerOf game otherId player) playerId = playerOf game playerId.
Proof.
  unfold playerOf, withPlayerOf.
  destruct (String.eqb (Player.id (Game.player1 game)) otherId) eqn:EO;
    destruct (String.eqb (Player.id (Game.player1 game)) playerId) eqn:EP;
    intros Hne Hid; try congruence; cbn.
  - rewrite Hid, EP. reflexivity.
  - rewrite EP. reflexivity.
Qed.

(** C10.  [skipPlayerTurn] is [submitPlayerExpression] with the empty
    expression, and that is skipping as the specification words it: the
    same rejections, and on success the player marked as submitted with an
    empty expression and no result.  The player who skipped is reported as a
    miss when the round is resolved, at once or after a submission of the
    other player that is blank or pure arithmetic. *)
Theorem C10_skip_is_empty_submission (roomCode playerId : string) (games : Games) :
  let out := skipPlayerTurn eval roomCode playerId games in
  out = submitPlayerExpression eval roomCode playerId "" games /\
  out = skipAsSpecified roomCode playerId games /\
  (success (fst out) = true ->
   exists game game',
     games !! roomCode = Some game /\
     Game.status game = playing /\
     Player.submitted (playerOf game playerId) = false /\
     snd out !! roomCode = Some game' /\
     Player.expression (playerOf game' playerId) = "" /\
     Player.submitted (playerOf game' playerId) = true /\
     Player.result (playerOf game' playerId) = None /\
     PlayerResult.damageType (resultOf game' (fst (resolveGame game')) playerId) = "miss" /\
     (pureOnArithmetic eval ->
      forall otherId expression,
        plain expression (Game.variableValues game') = true ->
        String.eqb (Player.id (Game.player1 game')) otherId
          <> String.eqb (Player.id (Game.player1 game')) playerId ->
        exists game'',
          snd (submitPlayerExpression eval roomCode otherId expression (snd out)) !! roomCode
            = Some game'' /\
          PlayerResult.damageType (resultOf game'' (fst (resolveGame game'')) playerId)
            = "miss")).
Proof.
  intros out. split; [reflexivity|].
  assert (Hblank : forall game games',
            evaluateExpression eval "" (Game.variableValues game) games' = (None, games'))
    by (intros; now apply evaluateExpression_blank).
  assert (Hspec : out = skipAsSpecified roomCode playerId games).
  { unfold out, skipPlayerTurn, skipAsSpecified.
    destruct (games !! roomCode) as [game|] eqn:Hfound.
    - destruct (decide (Game.status game = playing)) as [Hst|Hst].
      + apply (submit_inert roomCode playerId "" games game None Hfound Hst (Hblank game)).
      + now apply (submit_not_playing roomCode playerId "" games game).
    - unfold submitPlayerExpression. now rewrite Hfound. }
  split; [exact Hspec|].
  destruct (submit_cases roomCode playerId "" games)
    as [(Hnone & Hout) | [(game & Hsome & Hst & Hout) | [(game & Hsome & Hst & Hsub & Hout)
       | (game & Hsome & Hst & Hsub & Hout)]]];
    cbv zeta in Hout;
    fold (skipPlayerTurn eval roomCode playerId games) in Hout; fold out in Hout;
    try (rewrite Hout; cbn [fst snd success rejected]; discriminate).
  clear Hout. intros _.
  assert (Hout : out = (accepted,
            <[roomCode := withPlayerOf game playerId
                            (withSubmission (playerOf game playerId) "" None)]> games)).
  { unfold out, skipPlayerTurn.
    rewrite (submit_inert roomCode playerId "" games game None Hsome Hst (Hblank game)).
    now rewrite Hsub. }
  rewrite Hout. cbn [fst snd].
  set (player' := withSubmission (playerOf game playerId) "" None).
  set (game' := withPlayerOf game playerId player').
  assert (Hp : playerOf game' playerId = player')
    by (apply playerOf_withPlayerOf; reflexivity).
  assert (Hst' : Game.status game' = playing)
    by (unfold game'; now rewrite status_withPlayerOf).
  exists game, game'. rewrite lookup_insert_eq, Hp.
  repeat (split; [first [assumption | reflexivity]|]).
  split.
  - apply no_result_is_miss. now rewrite Hp.
  - intros Hpure otherId expression Hplain Hother.
    rewrite (submit_plain roomCode otherId expression _ game' Hpure
               (lookup_insert_eq _ _ _) Hst' Hplain).
    destruct (Player.submitted (playerOf game' otherId)); cbn [snd].
    + exists game'. split; [apply lookup_insert_eq|].
      apply no_result_is_miss. now rewrite Hp.
    + eexists. split; [apply lookup_insert_eq|].
      apply no_result_is_miss.
      rewrite playerOf_withPlayerOf_other; [now rewrite Hp | exact Hother | reflexivity].
Qed.

End Submissions.

(** ** The submissions on a sample round *)

Section SubmissionSamples.
Import GameManager Samples Spec.

Lemma openGame_found : ({["ROOM" := openGame]} : Games) !! "ROOM" = Some openGame.
Proof. reflexivity. Qed.

(** The [eval] of the examples keeps to the string on pure arithmetic: the
    payload has letters. *)
Lemma scriptedEval_pure : pureOnArithmetic scriptedEval.
Proof.
  intros s games Harith. unfold scriptedEval.
  destruct (String.eqb_spec s payload) as [->|_]; [discriminate Harith | reflexivity].
Qed.


(** On [openGame] the host sends "4+6" and the guest "6+1+3", in either order. *)
Lemma C9_witness :
  pureOnArithmetic scriptedEval /\
  ({["ROOM" := openGame]} : Games) !! "ROOM" = Some openGame /\
  plain "4+6" (Game.variableValues openGame) = true /\
  plain "6+1+3" (Game.variableValues openGame) = true /\
  "p1" = Player.id (Game.player1 openGame) /\
  "p2" <> Player.id (Game.player1 openGame) /\
  snd (submitPlayerExpression scriptedEval "ROOM" "p2" "6+1+3"
         (snd (submitPlayerExpression scriptedEval "ROOM" "p1" "4+6" {["ROOM" := openGame]})))
  = snd (submitPlayerExpression scriptedEval "ROOM" "p1" "4+6"
           (snd (submitPlayerExpression scriptedEval "ROOM" "p2" "6+1+3"
                   {["ROOM" := openGame]}))).
Proof.
  assert (Hne : "p2" <> Player.id (Game.player1 openGame)) by discriminate.
  split; [exact scriptedEval_pure|].
  split; [exact openGame_found|]. split; [reflexivity|]. split; [reflexivity|].
  split; [reflexivity|]. split; [exact Hne|].
  exact (proj1 (C9_submissions_commute scriptedEval "ROOM" {["ROOM" := openGame]} openGame
                  "p1" "p2" "4+6" "6+1+3" scriptedEval_pure openGame_found
                  eq_refl eq_refl eq_refl Hne)).
Defined.

(** With an expression that is code the order matters.  On [openGame] the
    host sends [payload], which assigns 5 to the guest's result, and the
    guest sends "7".  Host first: the guest's own result comes last and is
    7.  Guest first: the host's expression overwrites it with 5.  Both
    submissions are accepted in both orders, and the host's result is 1. *)
Lemma C9_counterexample :
  let games := ({["ROOM" := openGame]} : Games) in
  let afterA := submitPlayerExpression scriptedEval "ROOM" "p1" payload games in
  let afterAB := submitPlayerExpression scriptedEval "ROOM" "p2" "7" (snd afterA) in
  let afterB := submitPlayerExpression scriptedEval "ROOM" "p2" "7" games in
  let afterBA := submitPlayerExpression scriptedEval "ROOM" "p1" payload (snd afterB) in
  plain payload (Game.variableValues openGame) = false /\
  substituted payload (Game.variableValues openGame) = payload /\
  fst afterA = accepted /\ fst afterAB = accepted /\
  fst afterB = accepted /\ fst afterBA = accepted /\
  (Player.result <$> (Game.player1 <$> snd afterAB !! "ROOM")) = Some (Some 1%Q) /\
  (Player.result <$> (Game.player1 <$> snd afterBA !! "ROOM")) = Some (Some 1%Q) /\
  (Player.result <$> (Game.player2 <$> snd afterAB !! "ROOM")) = Some (Some (7 # 1)%Q) /\
  (Player.result <$> (Game.player2 <$> snd afterBA !! "ROOM")) = Some (Some (5 # 1)%Q) /\
  snd afterAB <> snd afterBA.
Proof.
  cbv zeta.
  assert (HAB : Player.result <$> (Game.player2 <$>
            snd (submitPlayerExpression scriptedEval "ROOM" "p2" "7"
                   (snd (submitPlayerExpression scriptedEval "ROOM" "p1" payload
                           {["ROOM" := openGame]}))) !! "ROOM") = Some (Some (7 # 1)%Q))
    by (vm_compute; reflexivity).
  assert (HBA : Player.result <$> (Game.player2 <$>
            snd (submitPlayerExpression scriptedEval "ROOM" "p1" payload
                   (snd (submitPlayerExpression scriptedEval "ROOM" "p2" "7"
                           {["ROOM" := openGame]}))) !! "ROOM") = Some (Some (5 # 1)%Q))
    by (vm_compute; reflexivity).
  split; [reflexivity|]. split; [vm_compute; reflexivity|].
  split; [reflexivity|]. split; [vm_compute; reflexivity|].
  split; [reflexivity|]. split; [vm_compute; reflexivity|].
  split; [vm_compute; reflexivity|]. split; [vm_compute; reflexivity|].
  split; [exact HAB|]. split; [exact HBA|].
  intros E. rewrite E in HAB. rewrite HAB in HBA. discriminate HBA.
Qed.

(** On [openGame] the guest skips the turn. *)
Lemma C10_witness :
  success (fst (skipPlayerTurn scriptedEval "ROOM" "p2" {["ROOM" := openGame]})) = true /\
  exists game',
    snd (skipPlayerTurn scriptedEval "ROOM" "p2" {["ROOM" := openGame]}) !! "ROOM"
      = Some game' /\
    Player.submitted (playerOf game' "p2") = true /\
    Player.result (playerOf game' "p2") = None /\
    PlayerResult.damageType (resultOf game' (fst (resolveGame game')) "p2") = "miss".
Proof.
  assert (Hok : success (fst (skipPlayerTurn scriptedEval "ROOM" "p2" {["ROOM" := openGame]}))
                = true) by reflexivity.
  split; [exact Hok|].
  pose proof (C10_skip_is_empty_submission scriptedEval "ROOM" "p2" {["ROOM" := openGame]}) as H.
  cbv zeta in H. destruct H as (_ & _ & H).
  destruct (H Hok) as (game & game' & _ & _ & _ & Hl & _ & Hs & Hr & Hm & _).
  exists game'. auto.
Defined.

End SubmissionSamples.

(** ** Scoring engine *)

Section Scoring.
Import GameLogic.

(** The size of the set of operators is the number of distinct ones. *)
Lemma distinct_operators (operatorsUsed : list string) :
  size (list_to_set operatorsUsed : gset string) = List.length (remove_dups operatorsUsed).
Proof.
  rewrite <- (size_list_to_set (C := gset string) (remove_dups operatorsUsed))
    by apply NoDup_remove_dups.
  f_equal. apply leibniz_equiv. intros x.
  rewrite !elem_of_list_to_set, elem_of_remove_dups. reflexivity.
Qed.

Lemma has_division (operatorsUsed : list string) :
  bool_decide ("/" ∈ (list_to_set operatorsUsed : gset string))
  = bool_decide ("/" ∈ operatorsUsed).
Proof. apply bool_decide_ext. apply elem_of_list_to_set. Qed.

(** C4, as the claim states it, fails: [calculateNormalizedDamage] does not
    know the profile.  A difference of 9 is beyond the miss threshold of the
    hard profile, 8, and still scores half of the raw damage; a difference of
    12 is within the miss threshold of the easy profile, 15, and is a miss. *)
Lemma C4_counterexample :
  (inject_Z (miss (accuracyThresholds (DIFFICULTY_CONFIG "hard"))) < 9)%Q /\
  accuracyType (calculateNormalizedDamage 2 ["+"] 9 false) = "far" /\
  damage (calculateNormalizedDamage 2 ["+"] 9 false) = 12 /\
  (12 < inject_Z (miss (accuracyThresholds (DIFFICULTY_CONFIG "easy"))))%Q /\
  accuracyType (calculateNormalizedDamage 4 ["+"; "-"] 12 false) = "miss" /\
  damage (calculateNormalizedDamage 4 ["+"; "-"] 12 false) = 0.
Proof.
  split; [reflexivity|]. split; [vm_compute; reflexivity|]. split; [vm_compute; reflexivity|].
  split; [reflexivity|]. split; vm_compute; reflexivity.
Qed.

(** C4, amended.  [calculateNormalizedDamage] classifies the difference
    against fixed thresholds, the same for every profile: zero is exact and
    scores the raw damage, up to 5 is close and scores three quarters of it,
    up to 10 is far and scores half of it, both rounded down, and beyond 10
    is a miss, whose damage is zero whatever the card, operator and division
    bonuses.  The profile's accuracy thresholds are what the server's
    [calculateDamage] classifies against: a difference at or beyond the
    profile's miss threshold is a miss and deals no damage. *)
Theorem C4_fixed_accuracy_thresholds
    (cardsUsed : Z) (operatorsUsed : list string) (difference : Q)
    (hasExactDivision : bool) :
  let r := calculateNormalizedDamage cardsUsed operatorsUsed difference hasExactDivision in
  let raw :=
    20 + CARD_BONUSES cardsUsed
    + Z.of_nat (List.length (remove_dups operatorsUsed)) * 5
    + (if hasExactDivision && bool_decide ("/" ∈ operatorsUsed) then 10 else 0) in
  ((difference == 0)%Q ->
   accuracyType r = "perfect" /\ accuracyMultiplier r = 1%Q /\ damage r = raw) /\
  (~ (difference == 0)%Q -> (difference <= 5)%Q ->
   accuracyType r = "close" /\ accuracyMultiplier r = (3 # 4)%Q /\ damage r = raw * 3 / 4) /\
  ((5 < difference)%Q -> (difference <= 10)%Q ->
   accuracyType r = "far" /\ accuracyMultiplier r = (1 # 2)%Q /\ damage r = raw / 2) /\
  ((10 < difference)%Q ->
   accuracyType r = "miss" /\ missed r = true /\ damage r = 0) /\
  (forall (result : Q) (target : Z) (difficulty : GameManager.Difficulty),
     (inject_Z (GameManager.Thresholds.miss
                  (GameManager.Config.accuracyThresholds
                     (GameManager.DIFFICULTY_CONFIG difficulty)))
      <= Qabs (result - inject_Z target))%Q ->
     GameManager.type (GameManager.calculateDamage (Some result) target difficulty) = "miss" /\
     GameManager.damage (GameManager.calculateDamage (Some result) target difficulty) = 0).
Proof.
  intros r raw.
  unfold r, calculateNormalizedDamage.
  rewrite distinct_operators, has_division. fold raw.
  split; [|split; [|split; [|split]]].
  - intros H0. apply Qeqb_true in H0. rewrite H0. cbn.
    split; [reflexivity|]. split; [reflexivity|].
    unfold Qfloor. cbn. rewrite Z.mul_1_r. apply Z.div_1_r.
  - intros Hn H5. destruct (JS.Qeqb difference 0) eqn:E0; [apply Qeqb_true in E0; contradiction|].
    apply Qleb_true in H5. rewrite H5. cbn.
    split; [reflexivity|]. split; [reflexivity|]. reflexivity.
  - intros H5 H10.
    destruct (JS.Qeqb difference 0) eqn:E0; [apply Qeqb_true in E0; lra|].
    destruct (JS.Qleb difference 5) eqn:E5; [apply Qleb_true in E5; lra|].
    apply Qleb_true in H10. rewrite H10. cbn.
    split; [reflexivity|]. split; [reflexivity|]. now rewrite Z.mul_1_r.
  - intros H10.
    destruct (JS.Qeqb difference 0) eqn:E0; [apply Qeqb_true in E0; lra|].
    destruct (JS.Qleb difference 5) eqn:E5; [apply Qleb_true in E5; lra|].
    destruct (JS.Qleb difference 10) eqn:E10; [apply Qleb_true in E10; lra|].
    cbn. auto.
  - intros result target difficulty Hmiss.
    assert (Hm : GameManager.isMiss
                   (GameManager.calculateDamage (Some result) target difficulty) = true)
      by (apply calculateDamage_isMiss; exact Hmiss).
    destruct (calculateDamage_miss_zero _ _ _ Hm) as [Hd Ht]. auto.
Qed.

(** A difference of 7 on a play of three cards with two operators. *)
Lemma C4_witness :
  (5 < 7)%Q /\ (7 <= 10)%Q /\
  damage (calculateNormalizedDamage 3 ["+"; "*"; "+"] 7 false) = 20.
Proof.
  assert (H5 : (5 < 7)%Q) by reflexivity.
  assert (H10 : (7 <= 10)%Q) by (intros H; discriminate H).
  split; [exact H5|]. split; [exact H10|].
  pose proof (C4_fixed_accuracy_thresholds 3 ["+"; "*"; "+"] 7 false) as H.
  cbv zeta in H. destruct H as (_ & _ & H & _).
  exact (proj2 (proj2 (H H5 H10))).
Defined.

End Scoring.

(** ** Streak tracker *)

Section Streaks.
Import GameLogic Spec.

(** Every profile's table is one of the three. *)
Lemma streakConfig_cases (difficulty : string) :
  streakConfig (DIFFICULTY_CONFIG difficulty) = streakConfig easy \/
  streakConfig (DIFFICULTY_CONFIG difficulty) = streakConfig medium \/
  streakConfig (DIFFICULTY_CONFIG difficulty) = streakConfig hard.
Proof.
  unfold DIFFICULTY_CONFIG.
  destruct (String.eqb difficulty "easy"); [now left|].
  destruct (String.eqb difficulty "hard"); [now right; right | now right; left].
Qed.

(** The tier [getStreakTier] returns, for a table given as such. *)
Lemma getStreakTier_table (streak : Z) (difficulty : string) :
  entry (getStreakTier streak difficulty)
  = match List.find (fun t => minStreak t <=? streak)
            (rev (streakConfig (DIFFICULTY_CONFIG difficulty))) with
    | Some t => t
    | None => hd noTier (streakConfig (DIFFICULTY_CONFIG difficulty))
    end /\
  currentStreak (getStreakTier streak difficulty) = streak.
Proof. unfold getStreakTier. now destruct (List.find _ _). Qed.

Ltac tiers_of_table :=
  repeat match goal with
  | H : _ ∈ _ :: _ |- _ => apply elem_of_cons in H as [-> | H]
  | H : _ ∈ [] |- _ => apply elem_of_nil in H; contradiction
  end.

(** C8.  [calculateStreakBonus] makes the new streak one more than the
    current one after an exact result and zero otherwise, so three exact hits
    and then a result that is not exact give the streaks 1, 2, 3, 0; the
    streak is reported broken exactly when the result was not exact and the
    current streak was at least 2, in that run on the last turn only.
    [getStreakTier] returns an entry of the profile's table: the zero tier
    when the streak is below every other threshold, and for a streak that is
    not negative the entry of greatest threshold among those at or below the
    streak. *)
Theorem C8_streaks (currentStreak : Z) (isPerfect : bool) (difficulty : string) :
  let r := calculateStreakBonus currentStreak isPerfect difficulty in
  let table := streakConfig (DIFFICULTY_CONFIG difficulty) in
  let t := entry (getStreakTier currentStreak difficulty) in
  newStreak r = (if isPerfect then currentStreak + 1 else 0) /\
  (streakBroken r = true <-> isPerfect = false /\ 2 <= currentStreak) /\
  map newStreak (streakRun difficulty 0 [true; true; true; false]) = [1; 2; 3; 0] /\
  map streakBroken (streakRun difficulty 0 [true; true; true; false])
    = [false; false; false; true] /\
  t ∈ table /\
  minStreak (hd noTier table) = 0 /\ bonus (hd noTier table) = 0 /\
  (currentStreak < 0 -> t = hd noTier table) /\
  (0 <= currentStreak ->
   minStreak t <= currentStreak /\
   forall t', t' ∈ table -> minStreak t' <= currentStreak ->
              minStreak t' <= minStreak t /\ bonus t' <= bonus t /\
              intensity t' <= intensity t).
Proof.
  intros r table t.
  split; [reflexivity|].
  split.
  { unfold r, calculateStreakBonus. cbn [streakBroken].
    rewrite andb_true_iff, negb_true_iff, Z.geb_le. reflexivity. }
  split; [reflexivity|]. split.
  { cbn. repeat f_equal. }
  destruct (getStreakTier_table currentStreak difficulty) as [Ht _].
  fold t table in Ht.
  destruct (streakConfig_cases difficulty) as [Htab | [Htab | Htab]];
    fold table in Htab; rewrite Htab in *; cbn in Ht;
    repeat match type of Ht with
    | context [if ?b then _ else _] => let E := fresh "E" in destruct b eqn:E
    end;
    rewrite Ht; cbn;
    (split; [rewrite !elem_of_cons; auto 10|]);
    (split; [reflexivity|]); (split; [reflexivity|]);
    (split; [intros Hneg; first [reflexivity | lia]|]);
    intros Hpos; (split; [lia|]);
    intros t' Hin Hle; tiers_of_table; cbn in *; lia.
Qed.

End Streaks.

(** On the hard profile a streak of 3 is in the tier of threshold 3. *)
Lemma C8_witness :
  0 <= 3 /\
  GameLogic.minStreak (GameLogic.entry (GameLogic.getStreakTier 3 "hard")) <= 3.
Proof.
  assert (H3 : 0 <= 3) by lia.
  split; [exact H3|].
  pose proof (C8_streaks 3 false "hard") as H. cbv zeta in H.
  destruct H as (_ & _ & _ & _ & _ & _ & _ & _ & H).
  exact (proj1 (H H3)).
Defined.

(** ** Targets of the search engine *)

Section ClientTargets.
Import GameLogic.

(** The index drawn for a non-empty array is inside it. *)
Lemma random_index (u : Q) (n : nat) :
  (0 <= u)%Q -> (u < 1)%Q -> (0 < n)%nat ->
  (Z.to_nat (Qfloor (u * inject_Z (Z.of_nat n))) < n)%nat.
Proof.
  intros H0 H1 Hn.
  set (x := (u * inject_Z (Z.of_nat n))%Q).
  assert (Hnq : (0 < inject_Z (Z.of_nat n))%Q).
  { change 0%Q with (inject_Z 0). rewrite <- Zlt_Qlt. lia. }
  assert (Hx0 : (0 <= x)%Q) by (unfold x; apply Qmult_le_0_compat; [assumption | now apply Qlt_le_weak]).
  assert (Hx1 : (x < inject_Z (Z.of_nat n))%Q).
  { unfold x. apply Qlt_le_trans with (1 * inject_Z (Z.of_nat n))%Q.
    - apply Qmult_lt_compat_r; assumption.
    - rewrite Qmult_1_l. apply Qle_refl. }
  assert (Hlo : 0 <= Qfloor x).
  { change 0 with (Qfloor 0). now apply Qfloor_resp_le. }
  assert (Hhi : Qfloor x < Z.of_nat n).
  { rewrite Zlt_Qlt. eapply Qle_lt_trans; [apply Qfloor_le | exact Hx1]. }
  lia.
Qed.

(** X1.  The target of [generateTargetByDifficulty] is a reachable value inside
    the profile's target range, or, when no reachable value lies in the
    range, a value clamped into the range. *)
Theorem generateTargetByDifficulty_reachable_or_fallback
    (difficulty : string) (cards : list Z) (variableValues : VariableValues) (u : Q) :
  (0 <= u)%Q -> (u < 1)%Q ->
  let r := targetRange (DIFFICULTY_CONFIG difficulty) in
  let reachable := reachableSet difficulty (cards ++ map snd variableValues) in
  exists target,
    generateTargetByDifficulty difficulty cards variableValues u = Some target /\
    ((In target reachable /\ inRange r target = true) \/
     ((forall v, In v reachable -> inRange r v = false) /\
      Range.min r <= target <= Range.max r)).
Proof.
  intros H0 H1 r reachable. unfold generateTargetByDifficulty. fold r. fold reachable.
  destruct (List.filter (inRange r) reachable) as [|v0 valid] eqn:Hvalid.
  - cbn [List.length Nat.ltb Nat.leb].
    assert (Hnone : forall v, In v reachable -> inRange r v = false).
    { intros v Hv. destruct (inRange r v) eqn:E; [|reflexivity].
      assert (Hin : In v (List.filter (inRange r) reachable)) by (apply filter_In; auto).
      rewrite Hvalid in Hin. destruct Hin. }
    assert (Hr : Range.min r <= Range.max r).
    { unfold r, DIFFICULTY_CONFIG.
      destruct (String.eqb difficulty "easy"); [cbn; lia|].
      destruct (String.eqb difficulty "hard"); cbn; lia. }
    destruct (sortByDist r _) as [|closest rest]; eexists; (split; [reflexivity|]);
      right; (split; [exact Hnone|]); unfold clamp; lia.
  - rewrite <- Hvalid.
    assert (Hlen : (0 < List.length (List.filter (inRange r) reachable))%nat)
      by (rewrite Hvalid; cbn; lia).
    apply Nat.ltb_lt in Hlen as Hb. rewrite Hb.
    destruct (lookup_lt_is_Some_2 _ _ (random_index u _ H0 H1 Hlen)) as [target Ht].
    exists target. split; [exact Ht|]. left.
    apply list_elem_of_lookup_2 in Ht. apply list_elem_of_In in Ht.
    apply filter_In in Ht. exact Ht.
Qed.

(** The medium round with the cards 6, 3, 5 and x = 8, drawn in the middle. *)
Lemma generateTargetByDifficulty_witness :
  (0 <= 1 # 2)%Q /\ (1 # 2 < 1)%Q /\
  exists target,
    generateTargetByDifficulty "medium" [6; 3; 5] [("x", 8)] (1 # 2) = Some target.
Proof.
  assert (H0 : (0 <= 1 # 2)%Q) by (intros H; discriminate H).
  assert (H1 : (1 # 2 < 1)%Q) by reflexivity.
  split; [exact H0|]. split; [exact H1|].
  destruct (generateTargetByDifficulty_reachable_or_fallback "medium" [6; 3; 5] [("x", 8)]
              (1 # 2) H0 H1) as (target & Ht & _).
  exists target. exact Ht.
Defined.

End ClientTargets.

(** ** The fuel of the two searches *)

Section Fuel.
Import GameLogic.

Lemma fold_left_ext_In {A B : Type} (f g : A -> B -> A) (l : list B) (a : A) :
  (forall x b, In b l -> f x b = g x b) -> fold_left f l a = fold_left g l a.
Proof.
  revert a. induction l as [|b l IH]; intros a Hfg; [reflexivity|].
  cbn. rewrite (Hfg a b) by now left.
  apply IH. intros x b' Hb'. apply Hfg. now right.
Qed.

(** Removing indices that are not in the list removes nothing. *)
Lemma length_removeTwoFrom_none {A : Type} (l : list A) (idx i j : nat) :
  (i < idx)%nat -> (j < idx)%nat ->
  List.length (removeTwoFrom idx i j l) = List.length l.
Proof.
  revert idx. induction l as [|x l IH]; intros idx Hi Hj; [reflexivity|].
  cbn. destruct (Nat.eqb_spec idx i); [lia|]. destruct (Nat.eqb_spec idx j); [lia|].
  cbn. f_equal. apply IH; lia.
Qed.

Lemma length_removeTwoFrom_one {A : Type} (l : list A) (idx i j : nat) :
  (i < idx)%nat -> (idx <= j < idx + List.length l)%nat ->
  S (List.length (removeTwoFrom idx i j l)) = List.length l /\
  S (List.length (removeTwoFrom idx j i l)) = List.length l.
Proof.
  revert idx. induction l as [|x l IH]; intros idx Hi Hj; [cbn in Hj; lia|].
  cbn. destruct (Nat.eqb_spec idx i); [lia|].
  destruct (Nat.eqb_spec idx j) as [->|Hne]; cbn.
  - rewrite !length_removeTwoFrom_none by lia. auto.
  - cbn in Hj. destruct (IH (S idx)) as [H1 H2]; [lia | lia |]. rewrite H1, H2. auto.
Qed.

Lemma length_removeTwoFrom_two {A : Type} (l : list A) (idx i j : nat) :
  i <> j -> (idx <= i < idx + List.length l)%nat -> (idx <= j < idx + List.length l)%nat ->
  S (S (List.length (removeTwoFrom idx i j l))) = List.length l.
Proof.
  revert idx. induction l as [|x l IH]; intros idx Hne Hi Hj; [cbn in Hi; lia|].
  cbn in Hi, Hj. cbn.
  destruct (Nat.eqb_spec idx i) as [->|Hi']; cbn.
  - destruct (length_removeTwoFrom_one l (S i) i j) as [H _]; [lia | lia |]. now rewrite H.
  - destruct (Nat.eqb_spec idx j) as [->|Hj']; cbn.
    + destruct (length_removeTwoFrom_one l (S j) j i) as [_ H]; [lia | lia |]. now rewrite H.
    + f_equal. apply IH; lia.
Qed.

Lemma length_remaining {A : Type} (l : list A) (i j : nat) :
  In (i, j) (indexPairs (List.length l)) ->
  S (S (List.length (remaining i j l))) = List.length l.
Proof.
  unfold indexPairs. intros Hin. apply list_elem_of_In in Hin.
  apply list_elem_of_filter in Hin as [Hne Hin]. cbn in Hne.
  apply list_elem_of_In, in_prod_iff in Hin as [Hi Hj].
  apply in_seq in Hi, Hj. apply length_removeTwoFrom_two; [assumption | lia | lia].
Qed.

(** X2.  The reachability search never runs out of fuel: with the length of the
    list as fuel the result is the one of any larger fuel. *)
Theorem explore_fuel (difficulty : string) (extra : nat) (currentNumbers results : list Z) :
  explore (List.length currentNumbers + extra) difficulty currentNumbers results
  = explore (List.length currentNumbers) difficulty currentNumbers results.
Proof.
  remember (List.length currentNumbers) as n eqn:Hn.
  revert currentNumbers results Hn.
  induction n as [|n IH]; intros l results Hn.
  - destruct l; [|discriminate Hn]. destruct extra; reflexivity.
  - cbn [Nat.add explore]. rewrite <- Hn.
    destruct (S n =? 1)%nat; [reflexivity|].
    apply fold_left_ext_In. intros acc [i j] Hin.
    apply fold_left_ext_In. intros acc' res _.
    apply IH. rewrite Hn in Hin. apply length_remaining in Hin. cbn. lia.
Qed.

(** X3.  Nor does the solution search: the length of the list of items is
    fuel enough. *)
Theorem exploreItems_fuel (difficulty : string) (target : Z) (extra : nat)
    (currentItems : list Item) (result : option string) :
  exploreItems (List.length currentItems + extra) difficulty target currentItems result
  = exploreItems (List.length currentItems) difficulty target currentItems result.
Proof.
  remember (List.length currentItems) as n eqn:Hn.
  revert currentItems result Hn.
  induction n as [|n IH]; intros l result Hn.
  - destruct l; [|discriminate Hn]. destruct extra; reflexivity.
  - cbn [Nat.add exploreItems]. rewrite <- Hn.
    destruct (truthy result); [reflexivity|].
    destruct (List.find (matches target) l); [reflexivity|].
    destruct (S n =? 1)%nat; [reflexivity|].
    apply fold_left_ext_In. intros acc [i j] Hin.
    destruct (l !! i); [|reflexivity]. destruct (l !! j); [|reflexivity].
    apply fold_left_ext_In. intros acc' op _.
    destruct (truthy acc'); [reflexivity|].
    apply IH. rewrite Hn in Hin. apply length_remaining in Hin. cbn. lia.
Qed.

End Fuel.

(** ** The state after an advance to the next round *)

Section NextRound.
Import GameManager Samples Spec.

Variable eval : string -> Games -> option Q * Games.

(** X4.  [startNextRound] deals the new round and counts it, but leaves the
    status as it finds it.  After a resolution that did not end the match
    the status is [waiting_next], and it still is after [startNextRound]: a
    submission in the new round is rejected as untimely. *)
Theorem startNextRound_keeps_status
    (roomCode : string) (o : Oracle) (games : Games) (game : Game.t) :
  games !! roomCode = Some game ->
  exists game',
    startNextRound roomCode o games = (Some game', <[roomCode := game']> games) /\
    Game.status game' = Game.status game /\
    Game.round game' = Game.round game + 1 /\
    Player.submitted (Game.player1 game') = false /\
    Player.submitted (Game.player2 game') = false /\
    (Game.status game = waiting_next ->
     forall playerId expression,
       submitPlayerExpression eval roomCode playerId expression (<[roomCode := game']> games)
       = (rejected "No es momento de enviar expresiones", <[roomCode := game']> games)).
Proof.
  intros Hfound. unfold startNextRound. rewrite Hfound.
  eexists. split; [reflexivity|]. cbn [Game.status Game.round Game.player1 Game.player2 dealt
                                       Player.submitted].
  repeat (split; [reflexivity|]).
  intros Hwait playerId expression.
  unfold submitPlayerExpression. rewrite lookup_insert_eq. cbn [Game.status].
  rewrite Hwait. reflexivity.
Qed.

End NextRound.

(** The round after [oneSidedGame] has been resolved. *)
Lemma startNextRound_witness :
  exists game1,
    snd (GameManager.resolveRound "ROOM" {["ROOM" := Samples.oneSidedGame]}) !! "ROOM"
      = Some game1 /\
    exists game2,
      GameManager.startNextRound "ROOM" (Samples.twosOracle (fun l => l))
        (snd (GameManager.resolveRound "ROOM" {["ROOM" := Samples.oneSidedGame]}))
      = (Some game2,
         <["ROOM" := game2]>
           (snd (GameManager.resolveRound "ROOM" {["ROOM" := Samples.oneSidedGame]}))) /\
      GameManager.Game.status game2 = GameManager.Game.status game1.
Proof.
  assert (Hfound :
    snd (GameManager.resolveRound "ROOM" {["ROOM" := Samples.oneSidedGame]}) !! "ROOM"
    = Some (snd (GameManager.resolveGame Samples.oneSidedGame))) by reflexivity.
  eexists. split; [exact Hfound|].
  destruct (startNextRound_keeps_status Samples.scriptedEval "ROOM" (Samples.twosOracle (fun l => l))
              (snd (GameManager.resolveRound "ROOM" {["ROOM" := Samples.oneSidedGame]}))
              _ Hfound) as (game2 & H1 & H2 & _).
  exists game2. split; [exact H1 | exact H2].
Defined.

(** ** Generation of a round on the server *)

Section Generation.
Import GameManager ExprSpec.

(** A draw scaled to [n] values and rounded down is one of [0 .. n-1]. *)
Lemma floor_scaled (u : Q) (n : Z) :
  (0 <= u)%Q -> (u < 1)%Q -> 0 < n -> 0 <= Qfloor (u * inject_Z n) < n.
Proof.
  intros H0 H1 Hn.
  assert (Hnq : (0 < inject_Z n)%Q).
  { change 0%Q with (inject_Z 0). now rewrite <- Zlt_Qlt. }
  split.
  - change 0 with (Qfloor 0). apply Qfloor_resp_le.
    apply Qmult_le_0_compat; [assumption | now apply Qlt_le_weak].
  - rewrite Zlt_Qlt. eapply Qle_lt_trans; [apply Qfloor_le|].
    apply Qlt_le_trans with (1 * inject_Z n)%Q.
    + apply Qmult_lt_compat_r; assumption.
    + rewrite Qmult_1_l. apply Qle_refl.
Qed.

Lemma randomInt_in_range (u : Q) (min max : Z) :
  (0 <= u)%Q -> (u < 1)%Q -> min <= max -> min <= randomInt u min max <= max.
Proof.
  intros H0 H1 Hr. unfold randomInt.
  pose proof (floor_scaled u (max - min + 1) H0 H1 ltac:(lia)). lia.
Qed.

Lemma draw_unit (us : list Q) (i : nat) :
  unitDraws us -> (0 <= draw us i)%Q /\ (draw us i < 1)%Q.
Proof.
  intros Hus. unfold draw. destruct (Nat.lt_ge_cases i (List.length us)) as [Hlt|Hge].
  - apply (proj1 (List.Forall_forall _ _) Hus). now apply nth_In.
  - rewrite nth_overflow by assumption. split; [apply Qle_refl | reflexivity].
Qed.

Lemma config_ranges (difficulty : Difficulty) :
  let config := DIFFICULTY_CONFIG difficulty in
  Range.min (Config.cardRange config) <= Range.max (Config.cardRange config) /\
  Range.min (Config.targetRange config) <= Range.max (Config.targetRange config) /\
  forall vc, Config.variableConfig config = Some vc ->
    Range.min (VariableConfig.valueRange vc) <= Range.max (VariableConfig.valueRange vc).
Proof.
  destruct difficulty; cbn; (split; [lia|]); (split; [lia|]);
    intros vc Hvc; try discriminate Hvc; injection Hvc as <-; cbn; lia.
Qed.

(** X6.  Whatever the cards, the variable values, the shuffle and the draws,
    the target of [generateTarget] lies in the target range of the profile. *)
Theorem generateTarget_in_range (difficulty : Difficulty) (cards : list Z)
    (variableValues : list (string * Z)) (shuffled : list Z) (us : list Q) :
  let range := Config.targetRange (DIFFICULTY_CONFIG difficulty) in
  Range.min range <= generateTarget difficulty cards variableValues shuffled us
    <= Range.max range.
Proof.
  cbv zeta. destruct (config_ranges difficulty) as (_ & Hr & _). cbv zeta in Hr.
  unfold generateTarget. lia.
Qed.

(** X7.  When the draws are outcomes of [Math.random()], [generateCards]
    deals as many cards as the profile says, each inside the card range;
    [generateVariables] and [generateVariableValues] give the same symbols,
    x first, with values inside the variable range, and none on the easy
    profile. *)
Theorem generated_round_in_ranges (difficulty : Difficulty) (us : list Q) :
  unitDraws us ->
  let config := DIFFICULTY_CONFIG difficulty in
  List.length (generateCards difficulty us) = Config.cardCount config /\
  Forall (fun c => Range.min (Config.cardRange config) <= c
                   <= Range.max (Config.cardRange config))
         (generateCards difficulty us) /\
  map symbol (generateVariables difficulty us) = map fst (generateVariableValues difficulty us) /\
  map value (generateVariables difficulty us) = map snd (generateVariableValues difficulty us) /\
  map fst (generateVariableValues difficulty us)
    = match difficulty with easy => [] | medium => ["x"] | hard => ["x"; "y"] end /\
  forall vc, Config.variableConfig config = Some vc ->
    Forall (fun v => Range.min (VariableConfig.valueRange vc) <= v
                     <= Range.max (VariableConfig.valueRange vc))
           (map snd (generateVariableValues difficulty us)).
Proof.
  intros Hus config.
  destruct (config_ranges difficulty) as (Hc & _ & Hv). fold config in Hc, Hv.
  split; [unfold generateCards; now rewrite length_map, length_seq|].
  split.
  { unfold generateCards. apply List.Forall_forall. intros c Hin.
    apply in_map_iff in Hin as (i & <- & _).
    destruct (draw_unit us i Hus). now apply randomInt_in_range. }
  split; [destruct difficulty; reflexivity|].
  split; [destruct difficulty; reflexivity|].
  split; [destruct difficulty; reflexivity|].
  intros vc Hvc. specialize (Hv vc Hvc).
  unfold generateVariableValues, enabledVariables. fold config. rewrite Hvc.
  destruct (VariableConfig.enabled vc); [|constructor].
  rewrite map_map. apply List.Forall_forall. intros v Hin.
  apply in_map_iff in Hin as (i & <- & _). cbn.
  destruct (draw_unit us i Hus). now apply randomInt_in_range.
Qed.

(** The hard profile with every draw at one half. *)
Lemma generated_round_witness :
  unitDraws [1 # 2; 1 # 2; 1 # 2]%Q /\
  generateCards hard [1 # 2; 1 # 2; 1 # 2]%Q = [11; 11; 11] /\
  List.length (generateCards hard [1 # 2; 1 # 2; 1 # 2]%Q)
    = Config.cardCount (DIFFICULTY_CONFIG hard).
Proof.
  assert (Hus : unitDraws [1 # 2; 1 # 2; 1 # 2]%Q).
  { repeat constructor; discriminate. }
  split; [exact Hus|]. split; [reflexivity|].
  exact (proj1 (generated_round_in_ranges hard _ Hus)).
Defined.

End Generation.

(** ** Damage on the server *)

Lemma Qleb_false (a b : Q) : JS.Qleb a b = false <-> (b < a)%Q.
Proof.
  unfold JS.Qleb. split.
  - intros H. apply Qnot_le_lt. intros Hle. apply Qle_bool_iff in Hle. congruence.
  - intros H. destruct (Qle_bool a b) eqn:E; [|reflexivity].
    apply Qle_bool_iff in E. exfalso. exact (Qlt_not_le _ _ H E).
Qed.

Lemma Qeqb_false (a b : Q) : JS.Qeqb a b = false <-> ~ (a == b)%Q.
Proof.
  split.
  - intros H Heq. apply Qeqb_true in Heq. congruence.
  - intros H. destruct (JS.Qeqb a b) eqn:E; [|reflexivity].
    apply Qeqb_true in E. contradiction.
Qed.

Ltac to_all_orders :=
  repeat match goal with
  | H : JS.Qeqb _ _ = true |- _ => apply Qeqb_true in H
  | H : JS.Qeqb _ _ = false |- _ => apply Qeqb_false in H
  | H : JS.Qleb _ _ = true |- _ => apply Qleb_true in H
  | H : JS.Qleb _ _ = false |- _ => apply Qleb_false in H
  | H : JS.Qltb _ _ = true |- _ => apply Qltb_true in H
  | H : JS.Qltb _ _ = false |- _ => apply Qltb_false in H
  end.

Section ServerDamage.
Import GameManager ViewSpec.

(** The damage of a result is one of the six steps from 0 to 50. *)
Lemma calculateDamage_bounds (result : option Q) (target : Z) (difficulty : Difficulty) :
  0 <= damage (calculateDamage result target difficulty) <= 50.
Proof.
  destruct result as [r|]; [|cbn; lia].
  unfold calculateDamage. destruct_tiers; cbn; lia.
Qed.

(** X8.  [calculateDamage] never rewards a result for being farther from the
    target: of two results the one that is at most as far as the other deals
    at least as much damage; the damage is between 0 and 50, it is 50 exactly
    on the target and 0 without a result. *)
Theorem calculateDamage_monotone (r1 r2 : Q) (target : Z) (difficulty : Difficulty) :
  (Qabs (r1 - inject_Z target) <= Qabs (r2 - inject_Z target))%Q ->
  damage (calculateDamage (Some r2) target difficulty)
    <= damage (calculateDamage (Some r1) target difficulty) <= 50 /\
  0 <= damage (calculateDamage (Some r2) target difficulty) /\
  damage (calculateDamage (Some (inject_Z target)) target difficulty) = 50 /\
  damage (calculateDamage None target difficulty) = 0.
Proof.
  intros Hle.
  split; [|split; [apply calculateDamage_bounds|split; [|reflexivity]]].
  - split; [|apply calculateDamage_bounds].
    pose proof (Qabs_nonneg (r1 - inject_Z target)) as Hn1.
    pose proof (Qabs_nonneg (r2 - inject_Z target)) as Hn2.
    unfold calculateDamage.
    set (d1 := Qabs (r1 - inject_Z target)) in *.
    set (d2 := Qabs (r2 - inject_Z target)) in *.
    destruct difficulty;
      cbn [DIFFICULTY_CONFIG Config.accuracyThresholds Thresholds.perfect
             Thresholds.excellent Thresholds.good Thresholds.ok Thresholds.miss];
      destruct_tiers; cbn [damage]; try lia;
      to_all_orders; unfold inject_Z in *; exfalso; lra.
  - unfold calculateDamage.
    assert (Hz : JS.Qeqb (Qabs (inject_Z target - inject_Z target))
                   (inject_Z (Thresholds.perfect
                      (Config.accuracyThresholds (DIFFICULTY_CONFIG difficulty)))) = true).
    { apply Qeqb_true.
      assert (E : (inject_Z target - inject_Z target == 0)%Q) by ring.
      rewrite E. destruct difficulty; reflexivity. }
    rewrite Hz. reflexivity.
Qed.

(** On the medium profile with target 30, the result 32 against the result 35. *)
Lemma calculateDamage_monotone_witness :
  (Qabs (32 - inject_Z 30) <= Qabs (35 - inject_Z 30))%Q /\
  damage (calculateDamage (Some 35%Q) 30 medium)
    <= damage (calculateDamage (Some 32%Q) 30 medium).
Proof.
  assert (H : (Qabs (32 - inject_Z 30) <= Qabs (35 - inject_Z 30))%Q) by discriminate.
  split; [exact H|].
  exact (proj1 (proj1 (calculateDamage_monotone 32 35 30 medium H))).
Defined.

Lemma half_nonneg (d : Z) : 0 <= d -> 0 <= half d.
Proof. intros H. rewrite half_div. apply Z.div_pos; lia. Qed.

(** Nobody takes negative damage in a round. *)
Lemma roundOutcome_nonneg (n1 n2 : string) (d1 d2 : Damage) (x y : option Q) :
  0 <= damage d1 -> 0 <= damage d2 ->
  0 <= snd (fst (roundOutcome n1 n2 d1 d2 x y)) /\ 0 <= snd (roundOutcome n1 n2 d1 d2 x y).
Proof.
  intros H1 H2. unfold roundOutcome.
  destruct (isMiss d1 && isMiss d2); [cbn; lia|].
  destruct (closer x y); [cbn; lia|].
  destruct (closer y x); [cbn; lia|].
  cbn. split; now apply half_nonneg.
Qed.

(** X9.  [resolveRound] never raises a health: in a game whose healths lie
    between zero and their maximum, each health after the resolution is at
    most what it was and still between zero and the maximum, which does not
    change; identities and names do not change either. *)
Theorem resolveRound_keeps_health_in_bounds
    (roomCode : string) (games : Games) (game : Game.t) :
  games !! roomCode = Some game ->
  healthy game ->
  exists game',
    snd (resolveRound roomCode games) !! roomCode = Some game' /\
    healthy game' /\
    Player.hp (Game.player1 game') <= Player.hp (Game.player1 game) /\
    Player.hp (Game.player2 game') <= Player.hp (Game.player2 game) /\
    Player.maxHp (Game.player1 game') = Player.maxHp (Game.player1 game) /\
    Player.maxHp (Game.player2 game') = Player.maxHp (Game.player2 game) /\
    Player.id (Game.player1 game') = Player.id (Game.player1 game) /\
    Player.id (Game.player2 game') = Player.id (Game.player2 game) /\
    Game.target game' = Game.target game /\
    Game.round game' = Game.round game.
Proof.
  intros Hfound [Hh1 Hh2].
  rewrite (resolveRound_found _ _ _ Hfound). cbn [snd].
  exists (snd (resolveGame game)). split; [apply lookup_insert_eq|].
  unfold healthy, resolveGame.
  cbn [withStatus Game.player1 Game.player2 Game.target Game.difficulty].
  pose proof (roundOutcome_nonneg
    (Player.name (Game.player1 game)) (Player.name (Game.player2 game))
    (calculateDamage (Player.result (Game.player1 game)) (Game.target game) (Game.difficulty game))
    (calculateDamage (Player.result (Game.player2 game)) (Game.target game) (Game.difficulty game))
    (distance (Player.result (Game.player1 game)) (Game.target game))
    (distance (Player.result (Game.player2 game)) (Game.target game))
    (proj1 (calculateDamage_bounds _ _ _)) (proj1 (calculateDamage_bounds _ _ _))) as Hnn.
  destruct (roundOutcome _ _ _ _ _ _) as [[w t1] t2]. cbn [fst snd] in Hnn.
  destruct (matchOutcome _ _ _ _) as [[|] who]; cbn; repeat split; lia.
Qed.

(** The round of [Samples.oneSidedGame]. *)
Lemma resolveRound_keeps_health_witness :
  ({["ROOM" := Samples.oneSidedGame]} : Games) !! "ROOM" = Some Samples.oneSidedGame /\
  healthy Samples.oneSidedGame /\
  exists game',
    snd (resolveRound "ROOM" {["ROOM" := Samples.oneSidedGame]}) !! "ROOM" = Some game' /\
    healthy game'.
Proof.
  assert (Hfound : ({["ROOM" := Samples.oneSidedGame]} : Games) !! "ROOM"
                   = Some Samples.oneSidedGame) by reflexivity.
  assert (Hh : healthy Samples.oneSidedGame) by (unfold healthy; cbn; lia).
  split; [exact Hfound|]. split; [exact Hh|].
  destruct (resolveRound_keeps_health_in_bounds "ROOM" _ _ Hfound Hh) as (game' & H1 & H2 & _).
  exists game'. auto.
Defined.

End ServerDamage.

(** ** What a player sees *)

Section Views.
Import GameManager Spec ViewSpec.

Variable eval : string -> Games -> option Q * Games.

(** The view of a game that is stored. *)
Lemma getGameState_insert (roomCode playerId : string) (games : Games) (game : Game.t) :
  getGameState roomCode playerId (<[roomCode := game]> games)
  = getGameState roomCode playerId {[roomCode := game]}.
Proof. unfold getGameState. now rewrite lookup_insert_eq, lookup_singleton_eq. Qed.

(** X10.  The view [getGameState] gives a player does not depend on the cards,
    the variables, the expression or the result of the opponent: with these
    four replaced by anything in the opponent's record, the player's view is
    the same.  Without a game for the room there is no view. *)
Theorem getGameState_hides_opponent
    (roomCode playerId : string) (games : Games) (game : Game.t)
    (cards : list Z) (variables : list Variable_) (expression : string) (result : option Q) :
  games !! roomCode = Some game ->
  let opponent' := withSecrets (opponentOf game playerId) cards variables expression result in
  let game' := withOpponentOf game playerId opponent' in
  getGameState roomCode playerId (<[roomCode := game']> games)
    = getGameState roomCode playerId games /\
  is_Some (getGameState roomCode playerId games) /\
  forall otherRoom, games !! otherRoom = None -> getGameState otherRoom playerId games = None.
Proof.
  intros Hfound opponent' game'. split; [|split].
  - unfold getGameState. rewrite lookup_insert_eq, Hfound.
    unfold game', opponent', withOpponentOf, opponentOf.
    destruct (String.eqb (Player.id (Game.player1 game)) playerId) eqn:E; cbn; rewrite E;
      reflexivity.
  - unfold getGameState. rewrite Hfound. eauto.
  - intros otherRoom Hnone. unfold getGameState. now rewrite Hnone.
Qed.

(** The view of the guest of [Samples.oneSidedGame], whose host sent "4+6". *)
Lemma getGameState_hides_opponent_witness :
  ({["ROOM" := Samples.oneSidedGame]} : Games) !! "ROOM" = Some Samples.oneSidedGame /\
  getGameState "ROOM" "p2"
    (<["ROOM" := withOpponentOf Samples.oneSidedGame "p2"
                   (withSecrets (opponentOf Samples.oneSidedGame "p2") [] [] "" None)]>
       {["ROOM" := Samples.oneSidedGame]})
  = getGameState "ROOM" "p2" {["ROOM" := Samples.oneSidedGame]}.
Proof.
  assert (Hfound : ({["ROOM" := Samples.oneSidedGame]} : Games) !! "ROOM"
                   = Some Samples.oneSidedGame) by reflexivity.
  split; [exact Hfound|].
  exact (proj1 (getGameState_hides_opponent "ROOM" "p2" _ _ [] [] "" None Hfound)).
Defined.

(** X11.  An accepted submission of an expression that is blank or, with the
    variables put in, pure arithmetic (which [eval] evaluates without
    touching the games) shows in the views as readiness only: the
    submitter's own view differs from the one before in [mySubmitted] being
    set, and the view of the other player differs in [opponentSubmitted]
    being set and in nothing else. *)
Theorem submission_shows_as_readiness
    (roomCode playerId otherId expression : string) (games : Games) (game : Game.t) :
  pureOnArithmetic eval ->
  games !! roomCode = Some game ->
  plain expression (Game.variableValues game) = true ->
  String.eqb (Player.id (Game.player1 game)) otherId
    <> String.eqb (Player.id (Game.player1 game)) playerId ->
  success (fst (submitPlayerExpression eval roomCode playerId expression games)) = true ->
  let games' := snd (submitPlayerExpression eval roomCode playerId expression games) in
  exists before after mine,
    getGameState roomCode otherId games = Some before /\
    getGameState roomCode otherId games' = Some after /\
    after = withOpponentSubmitted before true /\
    View.opponentSubmitted before = false /\
    getGameState roomCode playerId games' = Some mine /\
    View.mySubmitted mine = true.
Proof.
  intros Hpure Hfound Hplain Hother Hok games'.
  destruct (decide (Game.status game = playing)) as [Hst|Hst].
  2: { rewrite (submit_not_playing eval roomCode playerId expression games game Hfound Hst)
         in Hok. discriminate Hok. }
  unfold games'. clear games'.
  rewrite (submit_plain eval roomCode playerId expression games game Hpure Hfound Hst Hplain)
    in *.
  destruct (Player.submitted (playerOf game playerId)) eqn:Hsub; [discriminate Hok|].
  cbn [fst snd] in *.
  unfold getGameState. rewrite Hfound, lookup_insert_eq.
  unfold playerOf, withPlayerOf in *.
  destruct (String.eqb (Player.id (Game.player1 game)) playerId) eqn:EP;
    destruct (String.eqb (Player.id (Game.player1 game)) otherId) eqn:EO;
    try congruence; cbn; rewrite ?EP, ?EO; cbn;
    do 3 eexists; (split; [reflexivity|]); (split; [reflexivity|]);
    unfold withOpponentSubmitted; cbn; rewrite Hsub; auto.
Qed.

End Views.

(** The host of [Samples.openGame] submits; the guest looks. *)
Lemma submission_shows_as_readiness_witness :
  ({["ROOM" := Samples.openGame]} : gmap string GameManager.Game.t) !! "ROOM" = Some Samples.openGame /\
  exists before after,
    GameManager.getGameState "ROOM" "p2" {["ROOM" := Samples.openGame]} = Some before /\
    GameManager.getGameState "ROOM" "p2"
      (snd (GameManager.submitPlayerExpression Samples.scriptedEval "ROOM" "p1" "4+6" {["ROOM" := Samples.openGame]}))
      = Some after /\
    after = ViewSpec.withOpponentSubmitted before true.
Proof.
  split; [exact openGame_found|].
  assert (Hne : String.eqb (GameManager.Player.id (GameManager.Game.player1 Samples.openGame)) "p2"
                <> String.eqb (GameManager.Player.id (GameManager.Game.player1 Samples.openGame)) "p1") by discriminate.
  assert (Hok : GameManager.success (fst (GameManager.submitPlayerExpression Samples.scriptedEval "ROOM" "p1" "4+6"
                                {["ROOM" := Samples.openGame]})) = true) by reflexivity.
  destruct (submission_shows_as_readiness Samples.scriptedEval "ROOM" "p1" "p2" "4+6" _ _
              scriptedEval_pure openGame_found eq_refl Hne Hok)
    as (before & after & mine & H1 & H2 & H3 & _).
  exists before, after. auto.
Defined.

(** ** The life of a game record *)

Section Lifecycle.
Import GameManager Spec ViewSpec.

Variable eval : string -> Games -> option Q * Games.

(** X12.  After [cleanupGame] the room has no game: there is no view of it,
    a submission is rejected as without game and changes nothing,
    [resolveRound] and [startNextRound] return [null] and change nothing, and
    nobody is ready; the games of the other rooms are as they were. *)
Theorem cleanupGame_forgets_the_room
    (roomCode playerId expression : string) (o : Oracle) (games : Games) :
  let games' := cleanupGame roomCode games in
  getFullGameState roomCode games' = None /\
  getGameState roomCode playerId games' = None /\
  submitPlayerExpression eval roomCode playerId expression games'
    = (rejected "Juego no encontrado", games') /\
  resolveRound roomCode games' = (None, games') /\
  startNextRound roomCode o games' = (None, games') /\
  checkBothPlayersReady roomCode games' = false /\
  cleanupGame roomCode games' = games' /\
  forall otherRoom, otherRoom <> roomCode ->
    getFullGameState otherRoom games' = getFullGameState otherRoom games.
Proof.
  intros games'.
  assert (Hgone : games' !! roomCode = None) by apply lookup_delete_eq.
  unfold getFullGameState, getGameState, submitPlayerExpression, resolveRound,
    startNextRound, checkBothPlayersReady.
  rewrite Hgone. repeat (split; [reflexivity|]).
  split.
  - unfold games', cleanupGame. apply delete_id. apply lookup_delete_eq.
  - intros otherRoom Hne. unfold games', cleanupGame. now apply lookup_delete_ne.
Qed.

(** X13.  In a round that is open and in which nobody has submitted, with
    expressions that are blank or, with the variables put in, pure
    arithmetic (which [eval] evaluates without touching the games), nobody
    is ready after one submission alone, and both are ready after the
    host's and the other player's, in either order; the submissions are
    accepted. *)
Theorem both_ready_after_two_submissions
    (roomCode idA idB exprA exprB : string) (games : Games) (game : Game.t) :
  pureOnArithmetic eval ->
  games !! roomCode = Some game ->
  Game.status game = playing ->
  plain exprA (Game.variableValues game) = true ->
  plain exprB (Game.variableValues game) = true ->
  Player.submitted (Game.player1 game) = false ->
  Player.submitted (Game.player2 game) = false ->
  idA = Player.id (Game.player1 game) ->
  idB <> Player.id (Game.player1 game) ->
  let afterA := submitPlayerExpression eval roomCode idA exprA games in
  let afterB := submitPlayerExpression eval roomCode idB exprB games in
  let afterAB := submitPlayerExpression eval roomCode idB exprB (snd afterA) in
  let afterBA := submitPlayerExpression eval roomCode idA exprA (snd afterB) in
  checkBothPlayersReady roomCode games = false /\
  fst afterA = accepted /\ checkBothPlayersReady roomCode (snd afterA) = false /\
  fst afterB = accepted /\ checkBothPlayersReady roomCode (snd afterB) = false /\
  fst afterAB = accepted /\ checkBothPlayersReady roomCode (snd afterAB) = true /\
  fst afterBA = accepted /\ checkBothPlayersReady roomCode (snd afterBA) = true.
Proof.
  intros Hpure Hfound Hst PA PB S1 S2 HA HB.
  assert (EA : String.eqb (Player.id (Game.player1 game)) idA = true)
    by (subst idA; apply String.eqb_refl).
  assert (EB : String.eqb (Player.id (Game.player1 game)) idB = false)
    by (apply String.eqb_neq; congruence).
  cbv zeta.
  rewrite (submit_plain eval roomCode idA exprA games game Hpure Hfound Hst PA).
  rewrite (submit_plain eval roomCode idB exprB games game Hpure Hfound Hst PB).
  unfold playerOf, withPlayerOf. rewrite EA, EB, S1, S2. cbn [fst snd].
  rewrite (submit_plain eval roomCode idB exprB _ (withPlayer1 game _) Hpure
             (lookup_insert_eq _ _ _) Hst PB).
  rewrite (submit_plain eval roomCode idA exprA _ (withPlayer2 game _) Hpure
             (lookup_insert_eq _ _ _) Hst PA).
  unfold playerOf, withPlayerOf.
  cbn [withPlayer1 withPlayer2 withSubmission Game.player1 Game.player2 Player.id
         Player.submitted].
  rewrite EA, EB, S1, S2. cbn [fst snd].
  unfold checkBothPlayersReady. rewrite !lookup_insert_eq, Hfound, S1, S2.
  cbn. rewrite ?S1, ?S2. cbn. auto 10.
Qed.

End Lifecycle.

(** The two players of [Samples.openGame] submit. *)
Lemma both_ready_witness :
  GameManager.checkBothPlayersReady "ROOM"
    (snd (GameManager.submitPlayerExpression Samples.scriptedEval "ROOM" "p2" "6+1+3"
            (snd (GameManager.submitPlayerExpression Samples.scriptedEval "ROOM" "p1" "4+6"
                    {["ROOM" := Samples.openGame]}))))
  = true.
Proof.
  assert (Hne : "p2" <> GameManager.Player.id (GameManager.Game.player1 Samples.openGame))
    by discriminate.
  pose proof (both_ready_after_two_submissions Samples.scriptedEval "ROOM" "p1" "p2" "4+6" "6+1+3"
                {["ROOM" := Samples.openGame]} Samples.openGame
                scriptedEval_pure openGame_found eq_refl eq_refl eq_refl eq_refl eq_refl
                eq_refl Hne) as H.
  cbv zeta in H. exact (proj1 (proj2 (proj2 (proj2 (proj2 (proj2 (proj2 H))))))).
Defined.

(** ** What the two searches reach *)

Section Reach.
Import GameLogic.

(** A step of a monotone fold that yields [x] makes the whole fold yield it. *)
Lemma fold_left_elem {B : Type} (f : list Z -> B -> list Z) (l : list B) (acc : list Z)
    (x : Z) (b : B) :
  (forall a b', x ∈ a -> x ∈ f a b') -> In b l -> (forall a, x ∈ f a b) ->
  x ∈ fold_left f l acc.
Proof.
  intros Hmono Hin Hb. revert acc. induction l as [|b' l IH]; intros acc; [destruct Hin|].
  cbn. destruct Hin as [-> | Hin].
  - apply fold_left_incl; [exact Hmono | apply Hb].
  - now apply IH.
Qed.

(** What the call records of its own numbers stays in the result. *)
Lemma explore_recorded (fuel : nat) (difficulty : string) (currentNumbers acc : list Z) (x : Z) :
  x ∈ fold_left addResult currentNumbers acc -> x ∈ explore fuel difficulty currentNumbers acc.
Proof.
  intros Hx. destruct fuel as [|fuel]; cbn [explore];
    destruct (List.length currentNumbers =? 1)%nat; try assumption.
  apply fold_left_incl; [|assumption].
  intros a [i j] Ha. apply fold_left_incl; [|exact Ha].
  intros a' res Ha'. now apply explore_incl.
Qed.

(** What the search of one combined pair reaches, the whole search reaches. *)
Lemma explore_step (fuel : nat) (difficulty : string) (currentNumbers acc : list Z)
    (i j : nat) (res x : Z) :
  (List.length currentNumbers =? 1)%nat = false ->
  In (i, j) (indexPairs (List.length currentNumbers)) ->
  In res (nextSteps difficulty (nth i currentNumbers 0) (nth j currentNumbers 0)) ->
  (forall acc', x ∈ explore fuel difficulty (res :: remaining i j currentNumbers) acc') ->
  x ∈ explore (S fuel) difficulty currentNumbers acc.
Proof.
  intros Hlen Hpair Hres Hx. cbn [explore]. rewrite Hlen.
  apply fold_left_elem with (b := (i, j)); [|exact Hpair|].
  - intros a [i' j'] Ha. apply fold_left_incl; [|exact Ha].
    intros a' res' Ha'. now apply explore_incl.
  - intros a. apply fold_left_elem with (b := res); [|exact Hres|apply Hx].
    intros a' res' Ha'. now apply explore_incl.
Qed.

Lemma indexPairs_elem (n i j : nat) :
  In (i, j) (indexPairs n) <-> (i < n)%nat /\ (j < n)%nat /\ i <> j.
Proof.
  unfold indexPairs. rewrite <- list_elem_of_In, list_elem_of_filter, list_elem_of_In.
  rewrite in_prod_iff, !in_seq. cbn. lia.
Qed.

Lemma remaining_first_two {A : Type} (a b : A) (rest : list A) :
  remaining 0 1 (a :: b :: rest) = rest.
Proof.
  unfold remaining. cbn.
  assert (H : forall (l : list A) idx, (2 <= idx)%nat -> removeTwoFrom idx 0 1 l = l).
  { induction l as [|x l IH]; intros idx Hidx; [reflexivity|]. cbn.
    destruct (Nat.eqb_spec idx 0); [lia|]. destruct (Nat.eqb_spec idx 1); [lia|].
    cbn. f_equal. apply IH. lia. }
  apply H. lia.
Qed.

(** X14.  The sum of all the numbers of a round, in absolute value, is in its
    reachable set on every difficulty: the sum that the last fallback of
    [generateTargetByDifficulty] clamps is itself reachable. *)
Theorem reachableSet_sum (difficulty : string) (allNumbers : list Z) :
  allNumbers <> [] ->
  Z.abs (fold_left Z.add allNumbers 0) ∈ reachableSet difficulty allNumbers.
Proof.
  intros Hne. unfold reachableSet. generalize (@nil Z). revert Hne.
  remember (List.length allNumbers) as n eqn:Hn. revert allNumbers Hn.
  induction n as [|n IH]; intros l Hn Hne acc.
  - destruct l; [contradiction | discriminate Hn].
  - destruct l as [|a [|b rest]]; [contradiction| |].
    + apply explore_recorded. cbn. unfold addResult. case_decide; [assumption|].
      apply elem_of_app. right. apply elem_of_cons. now left.
    + cbn in Hn. injection Hn as Hn.
      apply explore_step with (i := 0%nat) (j := 1%nat) (res := a + b).
      * reflexivity.
      * apply indexPairs_elem. cbn. lia.
      * cbn. now left.
      * intros acc'. rewrite remaining_first_two.
        replace (fold_left Z.add (a :: b :: rest) 0) with (fold_left Z.add ((a + b) :: rest) 0)
          by reflexivity.
        apply IH; [cbn; lia | discriminate].
Qed.

(** The round 6, 3, 5 with x = 8. *)
Lemma reachableSet_sum_witness :
  [6; 3; 5; 8] <> [] /\ 22 ∈ reachableSet "medium" [6; 3; 5; 8].
Proof.
  assert (Hne : [6; 3; 5; 8] <> []) by discriminate.
  split; [exact Hne|]. exact (reachableSet_sum "medium" [6; 3; 5; 8] Hne).
Defined.

End Reach.

(** ** Parentheses and operators of an expression *)

Section Expressions.
Import GameLogic ExprSpec.

Lemma firstChars_cons (n : nat) (c : ascii) (s : string) :
  firstChars (S n) (String c s) = String c (firstChars n s).
Proof. reflexivity. Qed.

Lemma firstChars_zero (s : string) : firstChars 0 s = "".
Proof. destruct s; reflexivity. Qed.

(** The loop from a depth on: valid exactly when the rest closes what is open
    and never closes more; the counters then count the parentheses. *)
Lemma validateFrom_spec (expression : string) :
  forall depth opened closed, 0 <= depth ->
    (isValid (validateFrom depth opened closed expression) = true <->
       depth + occurrences "(" expression - occurrences ")" expression = 0 /\
       forall n, 0 <= depth + occurrences "(" (firstChars n expression)
                        - occurrences ")" (firstChars n expression)) /\
    (isValid (validateFrom depth opened closed expression) = true ->
       openCount (validateFrom depth opened closed expression)
         = opened + occurrences "(" expression /\
       closeCount (validateFrom depth opened closed expression)
         = closed + occurrences ")" expression).
Proof.
  induction expression as [|c r IH]; intros depth opened closed Hd.
  - cbn [validateFrom]. destruct (Z.eqb_spec depth 0) as [E|E]; cbn -[firstChars].
    + split; [|intros _; lia]. split; [|reflexivity].
      intros _. split; [lia|]. intros n. destruct n; cbn; lia.
    + split; [|discriminate]. split; [discriminate|]. intros [H _]. lia.
  - cbn [validateFrom occurrences].
    destruct (Ascii.eqb_spec c "(") as [->|Hopen].
    + destruct (IH (depth + 1) (opened + 1) closed ltac:(lia)) as [Hiff Hcount].
      cbn -[firstChars]. split.
      * rewrite Hiff. split.
        -- intros [Hz Hp]. split; [lia|]. intros [|n]; [rewrite firstChars_zero; cbn -[firstChars]; lia|].
           rewrite firstChars_cons. cbn -[firstChars]. specialize (Hp n). lia.
        -- intros [Hz Hp]. split; [lia|]. intros n. specialize (Hp (S n)).
           rewrite firstChars_cons in Hp. cbn -[firstChars] in Hp. lia.
      * intros Hv. specialize (Hcount Hv). lia.
    + destruct (Ascii.eqb_spec c ")") as [->|Hclose].
      * cbn -[firstChars]. destruct (Z.ltb_spec (depth - 1) 0) as [Hneg|Hpos].
        -- cbn -[firstChars]. split; [|discriminate]. split; [discriminate|].
           intros [_ Hp]. specialize (Hp 1%nat). rewrite firstChars_cons, firstChars_zero in Hp.
           cbn -[firstChars] in Hp. lia.
        -- destruct (IH (depth - 1) opened (closed + 1) ltac:(lia)) as [Hiff Hcount]. split.
           ++ rewrite Hiff. split.
              ** intros [Hz Hp]. split; [lia|].
                 intros [|n]; [rewrite firstChars_zero; cbn -[firstChars]; lia|].
                 rewrite firstChars_cons. cbn -[firstChars]. specialize (Hp n). lia.
              ** intros [Hz Hp]. split; [lia|]. intros n. specialize (Hp (S n)).
                 rewrite firstChars_cons in Hp. cbn -[firstChars] in Hp. lia.
           ++ intros Hv. specialize (Hcount Hv). lia.
      * destruct (IH depth opened closed Hd) as [Hiff Hcount].
        assert (Eo : (c =? "(")%char = false) by now apply Ascii.eqb_neq.
        assert (Ec : (c =? ")")%char = false) by now apply Ascii.eqb_neq.
        split.
        -- rewrite Hiff. split.
           ++ intros [Hz Hp]. split; [lia|].
              intros [|n]; [rewrite firstChars_zero; cbn -[firstChars]; lia|].
              rewrite firstChars_cons. cbn -[firstChars]. rewrite Eo, Ec. specialize (Hp n). lia.
           ++ intros [Hz Hp]. split; [lia|]. intros n. specialize (Hp (S n)).
              rewrite firstChars_cons in Hp. cbn -[firstChars] in Hp. rewrite Eo, Ec in Hp. lia.
        -- intros Hv. specialize (Hcount Hv). lia.
Qed.

(** X15.  [validateParentheses] accepts an expression exactly when its
    parentheses are balanced: as many closing as opening ones, and no prefix
    with more closing than opening ones.  For an accepted expression the two
    counters it returns are the numbers of opening and closing parentheses,
    and they are equal. *)
Theorem validateParentheses_balanced (expression : string) :
  (isValid (validateParentheses expression) = true <-> balanced expression) /\
  (isValid (validateParentheses expression) = true ->
     openCount (validateParentheses expression) = occurrences "(" expression /\
     closeCount (validateParentheses expression) = occurrences ")" expression /\
     openCount (validateParentheses expression) = closeCount (validateParentheses expression)).
Proof.
  unfold validateParentheses, balanced.
  destruct (validateFrom_spec expression 0 0 0 ltac:(lia)) as [Hiff Hcount]. split.
  - rewrite Hiff. split.
    + intros [Hz Hp]. split; [lia|]. intros n. specialize (Hp n). lia.
    + intros [Hz Hp]. split; [lia|]. intros n. specialize (Hp n). lia.
  - intros Hv. destruct (Hcount Hv) as [Ho Hc]. apply Hiff in Hv as [Hz _].
    rewrite Ho, Hc. lia.
Qed.

Lemma operators_known (expression x : string) :
  x ∈ getOperatorsFromExpression expression -> x ∈ ["+"; "-"; "*"; "/"].
Proof.
  induction expression as [|c r IH]; cbn; [intros H; inversion H|].
  destruct (isOperator c) eqn:E; [|exact IH].
  rewrite elem_of_cons. intros [-> | H]; [|now apply IH].
  unfold isOperator in E. rewrite !orb_true_iff in E.
  rewrite !elem_of_cons.
  destruct E as [[[E|E]|E]|E]; apply Ascii.eqb_eq in E; subst c; auto.
Qed.

Lemma operators_at_most_four (expression : string) :
  (size (list_to_set (getOperatorsFromExpression expression) : gset string) <= 4)%nat.
Proof.
  change 4%nat with (size (list_to_set ["+"; "-"; "*"; "/"] : gset string)).
  apply subseteq_size. intros x. rewrite !elem_of_list_to_set. apply operators_known.
Qed.

Lemma Qfloor_scaled (raw a : Z) (b : positive) :
  Qfloor (inject_Z raw * (a # b)) = raw * a / Z.pos b.
Proof. reflexivity. Qed.

(** X16.  Whatever the expression a player typed, the number of cards used,
    the difference and the division flag, the damage that
    [calculateNormalizedDamage] computes from the operators of the expression
    is between 0 and 75; unless the play is a miss it is at least 10, at most
    the raw damage, and the raw damage is between 20 and 75 with an operator
    bonus of at most 20. *)
Theorem calculateNormalizedDamage_bounds (expression : string) (cardsUsed : Z)
    (difference : Q) (hasExactDivision : bool) :
  let r := calculateNormalizedDamage cardsUsed (getOperatorsFromExpression expression)
             difference hasExactDivision in
  0 <= damage r <= 75 /\
  (missed r = false ->
     10 <= damage r <= rawDamage r /\ 20 <= rawDamage r <= 75 /\ 0 <= operatorBonus r <= 20).
Proof.
  intros r. subst r. unfold calculateNormalizedDamage.
  pose proof (operators_at_most_four expression) as Hops.
  set (n := size (list_to_set (getOperatorsFromExpression expression) : gset string)) in *.
  set (division := if hasExactDivision && _ then 10 else 0).
  assert (Hdiv : 0 <= division <= 10) by (subst division; destruct (_ && _); lia).
  assert (Hcard : 0 <= CARD_BONUSES cardsUsed <= 25)
    by (unfold CARD_BONUSES; destruct (cardsUsed =? 3), (cardsUsed =? 4); lia).
  unfold BASE_DAMAGE.
  destruct (JS.Qeqb difference 0); [|destruct (JS.Qleb difference 5);
    [|destruct (JS.Qleb difference 10)]];
    cbn [damage rawDamage missed operatorBonus]; rewrite ?Qfloor_scaled;
    try (split; [lia | discriminate]).
  - rewrite Z.mul_1_r, Z.div_1_r. lia.
  - split; [|intros _]; repeat split; try lia.
    all: try (apply Z.div_pos; lia); try (apply Z.div_le_upper_bound; lia);
      try (apply Z.div_le_lower_bound; lia).
  - split; [|intros _]; repeat split; try lia.
    all: try (apply Z.div_pos; lia); try (apply Z.div_le_upper_bound; lia);
      try (apply Z.div_le_lower_bound; lia).
Qed.

End Expressions.

(** ** Soundness of the solution search *)

Section SolutionSoundness.
Import GameLogic.

Lemma matches_value (target : Z) (item : Item) :
  matches target item = true -> value item = target.
Proof.
  unfold matches. intros H. apply Qltb_true in H.
  destruct (Z.eq_dec (value item) target) as [E|E]; [exact E|exfalso].
  assert (Hone : (1 <= Qabs (inject_Z (value item) - inject_Z target))%Q).
  { unfold Qminus, Qopp, Qplus, inject_Z, Qabs, Qle. cbn. lia. }
  assert (Hsmall : ((1 # 10000) < 1)%Q) by reflexivity.
  lra.
Qed.

(** The values of the candidates of a pair are the next steps of the
    reachability search. *)
Lemma ops_values (difficulty : string) (a b : Item) :
  map value (ops difficulty a b) = nextSteps difficulty (value a) (value b).
Proof.
  unfold ops, nextSteps. cbn.
  destruct (negb (String.eqb difficulty "easy")); [|reflexivity]. cbn.
  destruct (negb (value b =? 0) && (Z.rem (value a) (value b) =? 0)); reflexivity.
Qed.

Lemma removeTwoFrom_map {A B : Type} (f : A -> B) (l : list A) :
  forall idx i j, removeTwoFrom idx i j (map f l) = map f (removeTwoFrom idx i j l).
Proof.
  induction l as [|x l IH]; intros idx i j; [reflexivity|]. cbn.
  destruct ((idx =? i) || (idx =? j))%nat; cbn; now rewrite IH.
Qed.

Lemma nth_map_lookup (items : list Item) (i : nat) (a : Item) :
  items !! i = Some a -> nth i (map value items) 0 = value a.
Proof.
  revert i. induction items as [|x items IH]; intros [|i] H; try discriminate.
  - now injection H as ->.
  - cbn. now apply IH.
Qed.

(** A fold that ends set, from a start that is not, was set by one step. *)
Lemma fold_left_first_set {B : Type} (f : option string -> B -> option string) (l : list B) :
  forall start, truthy start = false -> truthy (fold_left f l start) = true ->
    exists b acc, In b l /\ truthy acc = false /\ truthy (f acc b) = true.
Proof.
  induction l as [|b l IH]; intros start Hstart Hend.
  - cbn in Hend. congruence.
  - cbn in Hend. destruct (truthy (f start b)) eqn:E.
    + exists b, start. split; [now left | auto].
    + destruct (IH _ E Hend) as (b' & acc & Hin & Hacc & Hset).
      exists b', acc. split; [now right | auto].
Qed.

Lemma exploreItems_sound (fuel : nat) (difficulty : string) (target : Z) :
  forall currentItems result possibleResults,
    truthy result = false ->
    truthy (exploreItems fuel difficulty target currentItems result) = true ->
    Z.abs target ∈ explore fuel difficulty (map value currentItems) possibleResults.
Proof.
  induction fuel as [|fuel IH]; intros items result acc Hres Hfound.
  - cbn [exploreItems] in Hfound. rewrite Hres in Hfound.
    destruct (find (matches target) items) as [item|] eqn:Ef.
    + apply find_some in Ef as [Hin Hm]. apply matches_value in Hm.
      apply explore_recorded, recorded_atom. rewrite <- Hm.
      apply list_elem_of_In, in_map, Hin.
    + destruct (List.length items =? 1)%nat; congruence.
  - cbn [exploreItems] in Hfound. rewrite Hres in Hfound.
    destruct (find (matches target) items) as [item|] eqn:Ef.
    + apply find_some in Ef as [Hin Hm]. apply matches_value in Hm.
      apply explore_recorded, recorded_atom. rewrite <- Hm.
      apply list_elem_of_In, in_map, Hin.
    + destruct (List.length items =? 1)%nat eqn:Elen; [congruence|].
      apply fold_left_first_set in Hfound as ([i j] & acc1 & Hpair & Hacc1 & Hset); [|exact Hres].
      destruct (items !! i) as [a|] eqn:Ea; [|congruence].
      destruct (items !! j) as [b|] eqn:Eb; [|congruence].
      apply fold_left_first_set in Hset as (op & acc2 & Hop & Hacc2 & Hset); [|exact Hacc1].
      rewrite Hacc2 in Hset.
      apply explore_step with (i := i) (j := j) (res := value op).
      * now rewrite length_map.
      * now rewrite length_map.
      * rewrite (nth_map_lookup _ _ _ Ea), (nth_map_lookup _ _ _ Eb).
        rewrite <- ops_values. now apply in_map.
      * intros acc'. unfold remaining. rewrite removeTwoFrom_map.
        change (value op :: map value (removeTwoFrom 0 i j items))
          with (map value (op :: remaining i j items)).
        now apply IH with (result := acc2).
Qed.

(** X17.  A solution that [findSolution] returns is built on a reachable
    value: whenever the answer is not the not-found message, the absolute
    value of the target is in the reachable set of the cards and the variable
    values, the set from which [generateTargetByDifficulty] takes its
    targets. *)
Theorem findSolution_only_for_reachable (target : Z) (cards : list Z) (difficulty : string)
    (variableValues : VariableValues) :
  findSolution target cards difficulty variableValues <> notFound ->
  Z.abs target ∈ reachableSet difficulty (cards ++ map snd variableValues).
Proof.
  unfold findSolution, reachableSet. intros Hfound.
  set (initialItems := _ ++ _) in Hfound.
  assert (Hvalues : map value initialItems = cards ++ map snd variableValues).
  { subst initialItems. rewrite map_app, !map_map. cbn. rewrite map_id. f_equal.
    apply map_ext. now intros [symbol v]. }
  rewrite <- Hvalues, length_map.
  apply exploreItems_sound with (result := None); [reflexivity|].
  destruct (exploreItems _ _ _ _ _) as [s|]; [|congruence].
  destruct (truthy (Some s)); congruence.
Qed.

(** The target 20 of the round 6, 3, 5 with x = 8, for which an expression is
    returned. *)
Lemma findSolution_only_for_reachable_witness :
  findSolution 20 [6; 3; 5] "medium" [("x", 8)] <> notFound /\
  20 ∈ reachableSet "medium" [6; 3; 5; 8].
Proof.
  assert (H : findSolution 20 [6; 3; 5] "medium" [("x", 8)] <> notFound)
    by (vm_compute; discriminate).
  split; [exact H|].
  exact (findSolution_only_for_reachable 20 [6; 3; 5] "medium" [("x", 8)] H).
Defined.

End SolutionSoundness.

(** ** The fallback of the client's target and the cards it deals *)

Section ClientRounds.
Import GameLogic ExprSpec.

Lemma insertByDist_In (r : Range.t) (x v : Z) (sorted : list Z) :
  In v (insertByDist r x sorted) <-> v = x \/ In v sorted.
Proof.
  induction sorted as [|y rest IH]; cbn; [intuition|].
  destruct (distToRange r y - distToRange r x <=? 0); cbn; [rewrite IH|]; intuition.
Qed.

Lemma sortByDist_In (r : Range.t) (l : list Z) (v : Z) :
  In v (sortByDist r l) <-> In v l.
Proof.
  unfold sortByDist.
  assert (H : forall acc, In v (fold_left (fun acc x => insertByDist r x acc) l acc)
                          <-> In v acc \/ In v l).
  { induction l as [|x l IH]; intros acc; cbn; [intuition|].
    rewrite IH, insertByDist_In. intuition. }
  rewrite H. cbn. intuition.
Qed.

(** The first element of the sorted array is at the least distance. *)
Lemma sortByDist_head (r : Range.t) (l : list Z) (closest : Z) (rest : list Z) :
  sortByDist r l = closest :: rest ->
  forall v, In v l -> distToRange r closest <= distToRange r v.
Proof.
  unfold sortByDist. intros Hsort v Hv.
  assert (H : forall acc,
             (forall h t, acc = h :: t -> forall w, In w acc -> distToRange r h <= distToRange r w) ->
             forall h t, fold_left (fun acc x => insertByDist r x acc) l acc = h :: t ->
               forall w, In w acc \/ In w l -> distToRange r h <= distToRange r w).
  { clear Hsort Hv. induction l as [|x l IH]; intros acc Hacc h t Hfold w Hw.
    - cbn in Hfold. destruct Hw as [Hw|[]]. now apply (Hacc h t).
    - cbn in Hfold. apply (IH (insertByDist r x acc)) with (t := t); [|exact Hfold|].
      + clear Hfold h t w Hw. intros h t Hins w Hw. apply insertByDist_In in Hw.
        destruct acc as [|y acc']; cbn in Hins.
        * injection Hins as <- <-. destruct Hw as [->|[]]. lia.
        * destruct (Z.leb_spec (distToRange r y - distToRange r x) 0) as [Hle|Hgt].
          -- injection Hins as <- <-.
             destruct Hw as [->|Hw]; [lia|]. now apply (Hacc y acc').
          -- injection Hins as <- <-.
             destruct Hw as [->|Hw]; [lia|].
             pose proof (Hacc y acc' eq_refl w Hw). lia.
      + rewrite insertByDist_In. cbn in Hw. intuition. }
  apply (H [] ltac:(discriminate) closest rest Hsort). now right.
Qed.

Lemma targetRange_ordered (difficulty : string) :
  Range.min (targetRange (DIFFICULTY_CONFIG difficulty))
    <= Range.max (targetRange (DIFFICULTY_CONFIG difficulty)).
Proof.
  unfold DIFFICULTY_CONFIG.
  destruct (String.eqb difficulty "easy"); [cbn; lia|].
  destruct (String.eqb difficulty "hard"); cbn; lia.
Qed.

(** X18.  When no reachable value lies in the target range and some reachable
    value is positive, [generateTargetByDifficulty] answers with the positive
    reachable value nearest to the range, clamped: the target is then the
    bound of the range on the side of that value, whatever the draw. *)
Theorem generateTargetByDifficulty_fallback_nearest
    (difficulty : string) (cards : list Z) (variableValues : VariableValues) (u : Q) :
  (forall v, In v (reachableSet difficulty (cards ++ map snd variableValues)) ->
             inRange (targetRange (DIFFICULTY_CONFIG difficulty)) v = false) ->
  (exists v, In v (reachableSet difficulty (cards ++ map snd variableValues)) /\ 0 < v) ->
  let r := targetRange (DIFFICULTY_CONFIG difficulty) in
  let reachable := reachableSet difficulty (cards ++ map snd variableValues) in
  exists closest,
    In closest reachable /\ 0 < closest /\
    (forall v, In v reachable -> 0 < v -> distToRange r closest <= distToRange r v) /\
    generateTargetByDifficulty difficulty cards variableValues u = Some (clamp r closest) /\
    clamp r closest = (if closest <? Range.min r then Range.min r else Range.max r).
Proof.
  intros Hnone (v0 & Hv0 & Hpos0) r reachable. fold r in Hnone. fold reachable in Hnone, Hv0.
  unfold generateTargetByDifficulty. fold r. fold reachable.
  assert (Hvalid : List.filter (inRange r) reachable = []).
  { destruct (List.filter (inRange r) reachable) as [|v valid] eqn:E; [reflexivity|].
    assert (Hin : In v (List.filter (inRange r) reachable)) by (rewrite E; now left).
    apply filter_In in Hin as [Hin Hr]. rewrite (Hnone v Hin) in Hr. discriminate. }
  rewrite Hvalid. cbn [List.length Nat.ltb Nat.leb].
  set (allResults := List.filter (fun val => val >? 0) reachable).
  assert (Hall : forall v, In v allResults <-> In v reachable /\ 0 < v).
  { intros v. unfold allResults. rewrite filter_In.
    destruct (Z.gtb_spec v 0); intuition; try lia; discriminate. }
  destruct (sortByDist r allResults) as [|closest rest] eqn:Hsort.
  - exfalso. assert (Hin : In v0 (sortByDist r allResults))
      by (apply sortByDist_In, Hall; auto).
    rewrite Hsort in Hin. destruct Hin.
  - assert (Hc : In closest allResults) by (apply (sortByDist_In r); rewrite Hsort; now left).
    apply Hall in Hc as [Hc Hcpos].
    exists closest. split; [exact Hc|]. split; [exact Hcpos|]. split.
    + intros v Hv Hpos. apply (sortByDist_head r allResults closest rest Hsort).
      apply Hall. auto.
    + split; [reflexivity|].
      pose proof (Hnone closest Hc) as Hout. unfold inRange in Hout.
      pose proof (targetRange_ordered difficulty) as Hr. fold r in Hr.
      unfold clamp. destruct (Z.ltb_spec closest (Range.min r)); [lia|].
      apply andb_false_iff in Hout as [Hout|Hout]; [apply Z.leb_gt in Hout; lia|].
      apply Z.leb_gt in Hout. lia.
Qed.

(** The easy round of four ones: the reachable values are 0 to 4, the range
    starts at 10. *)
Lemma generateTargetByDifficulty_fallback_witness :
  exists closest, 0 < closest /\
    generateTargetByDifficulty "easy" [1; 1; 1; 1] [] (1 # 2)
      = Some (clamp (targetRange (DIFFICULTY_CONFIG "easy")) closest).
Proof.
  assert (Hnone : forall v,
            In v (reachableSet "easy" ([1; 1; 1; 1] ++ map snd ([] : VariableValues))) ->
            inRange (targetRange (DIFFICULTY_CONFIG "easy")) v = false).
  { intros v Hv. vm_compute in Hv.
    repeat (destruct Hv as [<- | Hv]; [reflexivity|]). destruct Hv. }
  assert (Hsome : exists v,
            In v (reachableSet "easy" ([1; 1; 1; 1] ++ map snd ([] : VariableValues))) /\ 0 < v).
  { exists 1. split; [vm_compute; auto | lia]. }
  destruct (generateTargetByDifficulty_fallback_nearest "easy" [1; 1; 1; 1] [] (1 # 2)
              Hnone Hsome) as (closest & _ & Hpos & _ & Ht & _).
  exists closest. split; [exact Hpos | exact Ht].
Defined.

Lemma randomIn_in_range (r : Range.t) (us : list Q) (i : nat) :
  unitDraws us -> Range.min r <= Range.max r ->
  Range.min r <= randomIn r (nth i us 0%Q) <= Range.max r.
Proof.
  intros Hus Hr. destruct (draw_unit us i Hus) as [H0 H1]. unfold GameManager.draw in H0, H1.
  unfold randomIn.
  pose proof (floor_scaled _ (Range.max r - Range.min r + 1) H0 H1 ltac:(lia)). lia.
Qed.

Lemma imap_fst {B : Type} (h : nat -> B) (l : list string) :
  map fst (imap (fun i symbol => (symbol, h i)) l) = l.
Proof.
  revert h. induction l as [|symbol l IH]; intros h; [reflexivity|].
  cbn. f_equal. exact (IH (fun i => h (S i))).
Qed.

Lemma imap_snd_Forall {B : Type} (P : B -> Prop) (h : nat -> B) (l : list string) :
  (forall i, P (h i)) -> Forall P (map snd (imap (fun i symbol => (symbol, h i)) l)).
Proof.
  revert h. induction l as [|symbol l IH]; intros h Hh; [constructor|].
  cbn. constructor; [apply Hh|]. apply (IH (fun i => h (S i))). intros i. apply Hh.
Qed.

(** X19.  When the draws are outcomes of [Math.random()],
    [generateCardsByDifficulty] deals, for each of the three difficulty keys,
    as many cards as the profile says, each inside the card range and so at
    least 1; the variables are the profile's symbols in order with values
    inside the variable range, the same that [generateVariableValues] gives
    on the same draws, and [allCards] is the cards followed by the
    variables. *)
Theorem generateCardsByDifficulty_in_ranges (difficulty : string) (us vs : list Q) :
  In difficulty ["easy"; "medium"; "hard"] ->
  unitDraws us -> unitDraws vs ->
  let config := DIFFICULTY_CONFIG difficulty in
  let round := generateCardsByDifficulty difficulty us vs in
  Z.of_nat (List.length (cards round)) = cardCount config /\
  Forall (fun c => 1 <= Range.min (cardRange config) <= c /\ c <= Range.max (cardRange config))
         (cards round) /\
  map fst (dealtVariables round)
    = (if enabled (variableConfig config) then variables (variableConfig config) else []) /\
  Forall (fun v => Range.min (range (variableConfig config)) <= v
                   <= Range.max (range (variableConfig config)))
         (map snd (dealtVariables round)) /\
  dealtVariables round = generateVariableValues difficulty vs /\
  allCards round = map inl (cards round) ++ map inr (dealtVariables round).
Proof.
  intros _ Hus Hvs config round.
  assert (Hcards : 1 <= Range.min (cardRange config) <= Range.max (cardRange config)).
  { unfold config, DIFFICULTY_CONFIG.
    destruct (String.eqb difficulty "easy"); [cbn; lia|].
    destruct (String.eqb difficulty "hard"); cbn; lia. }
  assert (Hrange : Range.min (range (variableConfig config))
                   <= Range.max (range (variableConfig config))).
  { unfold config, DIFFICULTY_CONFIG.
    destruct (String.eqb difficulty "easy"); [cbn; lia|].
    destruct (String.eqb difficulty "hard"); cbn; lia. }
  assert (Hcount : (if cardCount config =? 0 then 4 else cardCount config) = cardCount config
                   /\ 0 <= cardCount config).
  { unfold config, DIFFICULTY_CONFIG.
    destruct (String.eqb difficulty "easy"); [cbn; lia|].
    destruct (String.eqb difficulty "hard"); cbn; lia. }
  destruct Hcount as [Hcount Hnonneg].
  unfold round, generateCardsByDifficulty, generateVariableValues. fold config.
  cbn [cards dealtVariables allCards]. rewrite Hcount.
  split; [rewrite length_map, length_seq; lia|].
  split.
  { apply List.Forall_forall. intros c Hin. apply in_map_iff in Hin as (i & <- & _).
    pose proof (randomIn_in_range (cardRange config) us i Hus ltac:(lia)). lia. }
  split.
  { destruct (enabled (variableConfig config)); [|reflexivity].
    apply (imap_fst (fun i => randomIn (range (variableConfig config)) (nth i vs 0%Q))). }
  split.
  { destruct (enabled (variableConfig config)); [|constructor].
    apply (imap_snd_Forall _ (fun i => randomIn (range (variableConfig config)) (nth i vs 0%Q))).
    intros i. now apply randomIn_in_range. }
  split; reflexivity.
Qed.

(** The hard profile with every draw at one half. *)
Lemma generateCardsByDifficulty_witness :
  In "hard" ["easy"; "medium"; "hard"] /\
  unitDraws [1 # 2; 1 # 2; 1 # 2]%Q /\
  cards (generateCardsByDifficulty "hard" [1 # 2; 1 # 2; 1 # 2]%Q [1 # 2; 1 # 2; 1 # 2]%Q)
    = [11; 11; 11] /\
  dealtVariables (generateCardsByDifficulty "hard" [1 # 2; 1 # 2; 1 # 2]%Q [1 # 2; 1 # 2; 1 # 2]%Q)
    = generateVariableValues "hard" [1 # 2; 1 # 2; 1 # 2]%Q.
Proof.
  assert (Hkey : In "hard" ["easy"; "medium"; "hard"]) by (cbn; auto).
  assert (Hus : unitDraws [1 # 2; 1 # 2; 1 # 2]%Q).
  { repeat constructor; discriminate. }
  split; [exact Hkey|]. split; [exact Hus|]. split; [reflexivity|].
  exact (proj1 (proj2 (proj2 (proj2 (proj2
    (generateCardsByDifficulty_in_ranges "hard" _ _ Hkey Hus Hus)))))).
Defined.

End ClientRounds.

(** ** The lobby registry *)

Section Lobbies.
Import LobbyManager LobbySpec LobbySamples ExprSpec.

Lemma mapGet_keys (m : LobbyMap) (k : string) :
  mapGet m k = None <-> ~ In k (map fst m).
Proof.
  induction m as [|[k' v] m IH]; cbn; [intuition|].
  destruct (String.eqb_spec k' k); [intuition congruence|]. rewrite IH. intuition.
Qed.

Lemma mapGet_In (m : LobbyMap) (k : string) (v : Lobby.t) :
  NoDup (map fst m) -> (mapGet m k = Some v <-> In (k, v) m).
Proof.
  induction m as [|[k' v'] m IH]; cbn; intros Hnd; [intuition congruence|].
  apply NoDup_cons in Hnd as [Hfresh Hnd].
  destruct (String.eqb_spec k' k) as [->|Hne].
  - split; [intros [= ->]; now left|]. intros [[= ->]|Hin]; [reflexivity|].
    exfalso. apply Hfresh. apply list_elem_of_In. now apply (in_map fst) in Hin.
  - rewrite (IH Hnd). split; [now right|]. intros [[= -> ->]|Hin]; [contradiction | assumption].
Qed.

Lemma mapGet_mapSet (m : LobbyMap) (k k' : string) (v : Lobby.t) :
  mapGet (mapSet m k v) k' = if String.eqb k k' then Some v else mapGet m k'.
Proof.
  induction m as [|[k0 v0] m IH]; cbn.
  - reflexivity.
  - destruct (String.eqb_spec k0 k) as [->|Hne]; cbn.
    + destruct (String.eqb_spec k k'); reflexivity.
    + rewrite IH. destruct (String.eqb_spec k0 k') as [->|]; [|reflexivity].
      destruct (String.eqb_spec k k'); [congruence | reflexivity].
Qed.

Lemma mapSet_keys (m : LobbyMap) (k x : string) (v : Lobby.t) :
  In x (map fst (mapSet m k v)) <-> x = k \/ In x (map fst m).
Proof.
  induction m as [|[k0 v0] m IH]; cbn; [intuition|].
  destruct (String.eqb_spec k0 k) as [->|Hne]; cbn; [intuition|].
  rewrite IH. intuition.
Qed.

Lemma mapSet_NoDup (m : LobbyMap) (k : string) (v : Lobby.t) :
  NoDup (map fst m) -> NoDup (map fst (mapSet m k v)).
Proof.
  induction m as [|[k0 v0] m IH]; cbn; intros Hnd.
  - apply NoDup_cons. split; [apply not_elem_of_nil | constructor].
  - apply NoDup_cons in Hnd as [Hfresh Hnd].
    destruct (String.eqb_spec k0 k) as [->|Hne]; cbn.
    + apply NoDup_cons. auto.
    + apply NoDup_cons. split; [|auto].
      rewrite list_elem_of_In, mapSet_keys. rewrite list_elem_of_In in Hfresh.
      intuition congruence.
Qed.

Lemma mapSet_same (m : LobbyMap) (k : string) (v : Lobby.t) :
  mapGet m k = Some v -> mapSet m k v = m.
Proof.
  induction m as [|[k0 v0] m IH]; cbn; [discriminate|].
  destruct (String.eqb_spec k0 k) as [->|Hne]; [now intros [= ->]|].
  intros H. now rewrite IH.
Qed.

Lemma mapSet_mapSet (m : LobbyMap) (k : string) (v v' : Lobby.t) :
  mapHas m k = true -> mapSet (mapSet m k v) k v' = mapSet m k v'.
Proof.
  unfold mapHas. induction m as [|[k0 v0] m IH]; cbn; [discriminate|].
  destruct (String.eqb_spec k0 k) as [->|Hne]; cbn.
  - now rewrite String.eqb_refl.
  - intros H. destruct (String.eqb_spec k0 k); [contradiction|]. now rewrite IH.
Qed.

Lemma mapDelete_keys (m : LobbyMap) (k x : string) :
  In x (map fst (mapDelete m k)) -> In x (map fst m).
Proof.
  induction m as [|[k0 v0] m IH]; cbn; [auto|].
  destruct (String.eqb_spec k0 k); cbn; intuition.
Qed.

Lemma mapDelete_NoDup (m : LobbyMap) (k : string) :
  NoDup (map fst m) -> NoDup (map fst (mapDelete m k)).
Proof.
  induction m as [|[k0 v0] m IH]; cbn; intros Hnd; [constructor|].
  apply NoDup_cons in Hnd as [Hfresh Hnd].
  destruct (String.eqb_spec k0 k); cbn; [assumption|].
  apply NoDup_cons. split; [|auto].
  rewrite list_elem_of_In in *. intros Hin. apply Hfresh. now apply mapDelete_keys in Hin.
Qed.

Lemma mapGet_mapDelete (m : LobbyMap) (k k' : string) :
  NoDup (map fst m) ->
  mapGet (mapDelete m k) k' = if String.eqb k k' then None else mapGet m k'.
Proof.
  induction m as [|[k0 v0] m IH]; cbn; intros Hnd.
  - now destruct (String.eqb k k').
  - apply NoDup_cons in Hnd as [Hfresh Hnd]. rewrite list_elem_of_In in Hfresh.
    destruct (String.eqb_spec k0 k) as [->|Hne]; cbn.
    + destruct (String.eqb_spec k k') as [E|]; [|reflexivity].
      subst. now apply mapGet_keys.
    + rewrite (IH Hnd). destruct (String.eqb_spec k0 k') as [->|]; [|reflexivity].
      destruct (String.eqb_spec k k'); [congruence | reflexivity].
Qed.

Lemma get_charsOf (n : nat) (s : string) (c : ascii) :
  String.get n s = Some c -> In c (charsOf s).
Proof.
  revert n. induction s as [|c' s IH]; intros [|n]; cbn; try discriminate.
  - intros [= ->]. now left.
  - intros H. right. now apply (IH n).
Qed.

Lemma chars_upper : Forall (fun c => upperChar c = c) (charsOf chars).
Proof. repeat constructor. Qed.

(** A draw picks one character of the alphabet. *)
Lemma randomChar_unit (u : Q) :
  (0 <= u)%Q -> (u < 1)%Q ->
  exists c, randomChar u = String c EmptyString /\ In c (charsOf chars) /\ upperChar c = c.
Proof.
  intros H0 H1. unfold randomChar.
  change (Z.of_nat (String.length chars)) with 32.
  pose proof (floor_scaled u 32 H0 H1 ltac:(lia)) as Hi.
  destruct (Z.ltb_spec (Qfloor (u * inject_Z 32)) 0) as [Hneg|_]; [lia|].
  destruct (String.get (Z.to_nat (Qfloor (u * inject_Z 32))) chars) as [c|] eqn:Hget.
  - exists c. split; [reflexivity|]. apply get_charsOf in Hget. split; [exact Hget|].
    exact (proj1 (List.Forall_forall _ _) chars_upper c Hget).
  - exfalso. assert (Hlt : (Z.to_nat (Qfloor (u * inject_Z 32)) < 32)%nat) by lia.
    revert Hget. generalize (Z.to_nat (Qfloor (u * inject_Z 32))) Hlt. intros n Hn.
    do 32 (destruct n as [|n]; [discriminate|]). lia.
Qed.

Lemma roomCode_is_fresh (us : list Q) (lobbies : LobbyMap) (code : string) :
  unitDraws us ->
  generateRoomCode us lobbies = Some code ->
  mapGet lobbies code = None /\ String.length code = 4%nat /\ toUpperCase code = code.
Proof.
  assert (H : forall n us, (List.length us <= n)%nat -> unitDraws us ->
            generateRoomCode us lobbies = Some code ->
            mapGet lobbies code = None /\ String.length code = 4%nat /\
            toUpperCase code = code).
  { clear us. induction n as [|n IH]; intros us Hlen Hus Hgen.
    - destruct us; [discriminate Hgen | cbn in Hlen; lia].
    - destruct us as [|u1 [|u2 [|u3 [|u4 rest]]]]; try discriminate Hgen.
      cbn [generateRoomCode] in Hgen.
      apply Forall_cons in Hus as [[H10 H11] Hus]. apply Forall_cons in Hus as [[H20 H21] Hus].
      apply Forall_cons in Hus as [[H30 H31] Hus]. apply Forall_cons in Hus as [[H40 H41] Hus].
      destruct (randomChar_unit u1 H10 H11) as (c1 & E1 & Hc1 & Hu1).
      destruct (randomChar_unit u2 H20 H21) as (c2 & E2 & Hc2 & Hu2).
      destruct (randomChar_unit u3 H30 H31) as (c3 & E3 & Hc3 & Hu3).
      destruct (randomChar_unit u4 H40 H41) as (c4 & E4 & Hc4 & Hu4).
      rewrite E1, E2, E3, E4 in Hgen.
      change (String c1 "" +:+ String c2 "" +:+ String c3 "" +:+ String c4 "")
        with (String c1 (String c2 (String c3 (String c4 EmptyString)))) in Hgen.
      unfold mapHas in Hgen.
      destruct (mapGet lobbies (String c1 (String c2 (String c3 (String c4 EmptyString)))))
        eqn:Hget.
      + apply (IH rest); [cbn in Hlen; lia | exact Hus | exact Hgen].
      + injection Hgen as <-. split; [exact Hget|]. split; [reflexivity|].
        cbn. now rewrite Hu1, Hu2, Hu3, Hu4. }
  intros Hus Hgen. now apply (H (List.length us) us).
Qed.

(** X20.  When the draws are outcomes of [Math.random()], the code that
    [generateRoomCode] returns is no key of the registry, has four
    characters, all of the alphabet without I, O, 1 and 0, and is its own
    upper case: it is the key under which [joinLobby] and [getLobbyByCode]
    look it up. *)
Theorem generateRoomCode_fresh (us : list Q) (lobbies : LobbyMap) (code : string) :
  unitDraws us ->
  generateRoomCode us lobbies = Some code ->
  mapGet lobbies code = None /\
  String.length code = 4%nat /\
  Forall (fun c => In c (charsOf chars)) (charsOf code) /\
  toUpperCase code = code.
Proof.
  assert (H : forall n us, (List.length us <= n)%nat -> unitDraws us ->
            generateRoomCode us lobbies = Some code ->
            mapGet lobbies code = None /\ String.length code = 4%nat /\
            Forall (fun c => In c (charsOf chars)) (charsOf code) /\
            toUpperCase code = code).
  { clear us. induction n as [|n IH]; intros us Hlen Hus Hgen.
    - destruct us; [discriminate Hgen | cbn in Hlen; lia].
    - destruct us as [|u1 [|u2 [|u3 [|u4 rest]]]]; try discriminate Hgen.
      cbn [generateRoomCode] in Hgen.
      apply Forall_cons in Hus as [[H10 H11] Hus]. apply Forall_cons in Hus as [[H20 H21] Hus].
      apply Forall_cons in Hus as [[H30 H31] Hus]. apply Forall_cons in Hus as [[H40 H41] Hus].
      destruct (randomChar_unit u1 H10 H11) as (c1 & E1 & Hc1 & Hu1).
      destruct (randomChar_unit u2 H20 H21) as (c2 & E2 & Hc2 & Hu2).
      destruct (randomChar_unit u3 H30 H31) as (c3 & E3 & Hc3 & Hu3).
      destruct (randomChar_unit u4 H40 H41) as (c4 & E4 & Hc4 & Hu4).
      rewrite E1, E2, E3, E4 in Hgen.
      change (String c1 "" +:+ String c2 "" +:+ String c3 "" +:+ String c4 "")
        with (String c1 (String c2 (String c3 (String c4 EmptyString)))) in Hgen.
      unfold mapHas in Hgen.
      destruct (mapGet lobbies (String c1 (String c2 (String c3 (String c4 EmptyString)))))
        eqn:Hget.
      + apply (IH rest); [cbn in Hlen; lia | exact Hus | exact Hgen].
      + injection Hgen as <-. split; [exact Hget|]. split; [reflexivity|].
        split; [repeat (apply List.Forall_cons; [assumption|]); apply List.Forall_nil|].
        cbn. now rewrite Hu1, Hu2, Hu3, Hu4. }
  intros Hus Hgen. now apply (H (List.length us) us).
Qed.

(** The code of four zero draws in an empty registry. *)
Lemma generateRoomCode_witness :
  unitDraws [0; 0; 0; 0]%Q /\ generateRoomCode [0; 0; 0; 0]%Q [] = Some "AAAA" /\
  toUpperCase "AAAA" = "AAAA".
Proof.
  assert (Hus : unitDraws [0; 0; 0; 0]%Q) by (repeat constructor; discriminate).
  assert (Hgen : generateRoomCode [0; 0; 0; 0]%Q [] = Some "AAAA") by reflexivity.
  split; [exact Hus|]. split; [exact Hgen|].
  exact (proj2 (proj2 (proj2 (generateRoomCode_fresh _ [] "AAAA" Hus Hgen)))).
Defined.

Lemma wellFormed_frame (index index' : gmap string string) (code : string) (lobby : Lobby.t) :
  wellFormed index code lobby ->
  index' !! Lobby.hostId lobby = index !! Lobby.hostId lobby ->
  (forall guest, Lobby.guestId lobby = Some guest -> index' !! guest = index !! guest) ->
  wellFormed index' code lobby.
Proof.
  unfold wellFormed. intros (H1 & H2 & H3 & H4 & H5) Hhost Hguest.
  repeat (split; [assumption || congruence|]).
  destruct (Lobby.guestId lobby) as [guest|]; [|assumption].
  destruct H5 as (G1 & G2 & G3 & G4). rewrite (Hguest guest eq_refl). auto.
Qed.

(** An attempt that draws a free code ends the loop of [generateRoomCode],
    at that attempt or at an earlier one. *)
Lemma generateRoomCode_returns (lobbies : LobbyMap) (k : nat) :
  forall us code, blockCode us k = Some code -> mapGet lobbies code = None ->
    exists code', generateRoomCode us lobbies = Some code'.
Proof.
  induction k as [|k IH]; intros us code Hblock Hfree; unfold blockCode in Hblock.
  - cbn [Nat.mul drop] in Hblock.
    destruct us as [|u1 [|u2 [|u3 [|u4 rest]]]]; try discriminate Hblock.
    injection Hblock as <-. cbn [generateRoomCode]. unfold mapHas. rewrite Hfree. eauto.
  - replace (4 * S k)%nat with (4 + 4 * k)%nat in Hblock by lia.
    destruct us as [|u1 [|u2 [|u3 [|u4 rest]]]]; try (destruct k; discriminate Hblock).
    cbn [Nat.add drop] in Hblock. cbn [generateRoomCode].
    destruct (mapHas lobbies _); [|eauto].
    apply (IH rest code); [exact Hblock | exact Hfree].
Qed.

(** X21.  On a consistent registry [createLobby] refuses a player who is
    already in a room, whatever the draws, with the registry as it was; for
    a player in no room it returns as soon as one attempt draws a code that
    is free; and what it returns then is a waiting lobby without guest,
    stored under a code that was free, which the host's socket id finds;
    the other lobbies and players are as before, and the registry stays
    consistent. *)
Theorem createLobby_registers (hostSocketId hostName difficulty : string) (now : Z)
    (us : list Q) (st : Registry) :
  unitDraws us -> consistent st ->
  (is_Some (playerToRoom st !! hostSocketId) ->
     createLobby hostSocketId hostName difficulty now us st = Some (Thrown alreadyInRoom, st)) /\
  (playerToRoom st !! hostSocketId = None ->
     forall k code, blockCode us k = Some code -> mapGet (lobbies st) code = None ->
       exists roomCode st',
         createLobby hostSocketId hostName difficulty now us st
         = Some (Returned (roomCode, difficulty), st')) /\
  forall outcome st',
    createLobby hostSocketId hostName difficulty now us st = Some (outcome, st') ->
    consistent st' /\
    match outcome with
    | Thrown message =>
      message = alreadyInRoom /\ st' = st /\ is_Some (playerToRoom st !! hostSocketId)
    | Returned (roomCode, difficulty') =>
      difficulty' = difficulty /\
      playerToRoom st !! hostSocketId = None /\
      mapGet (lobbies st) roomCode = None /\
      getLobbyBySocketId hostSocketId st'
        = Some {| Lobby.roomCode := roomCode; Lobby.hostId := hostSocketId;
                  Lobby.hostName := orDefault hostName "Jugador 1";
                  Lobby.guestId := None; Lobby.guestName := None;
                  Lobby.difficulty := difficulty; Lobby.status := waiting;
                  Lobby.createdAt := now |} /\
      (forall code, code <> roomCode -> mapGet (lobbies st') code = mapGet (lobbies st) code) /\
      (forall player, player <> hostSocketId ->
         playerToRoom st' !! player = playerToRoom st !! player)
    end.
Proof.
  intros Hus Hst. split; [|split].
  { intros Hin. unfold createLobby. now rewrite bool_decide_eq_true_2 by exact Hin. }
  { intros Hfree k code Hblock Hcode. unfold createLobby.
    rewrite bool_decide_eq_false_2 by (rewrite Hfree; intros [? [=]]).
    destruct (generateRoomCode_returns (lobbies st) k us code Hblock Hcode) as (code' & ->).
    eauto. }
  intros outcome st'.
  unfold createLobby. case_bool_decide as Hin.
  - intros [= <- <-]. auto.
  - apply eq_None_not_Some in Hin.
    destruct (generateRoomCode us (lobbies st)) as [roomCode|] eqn:Hgen; [|discriminate].
    intros [= <- <-].
    destruct (roomCode_is_fresh us (lobbies st) roomCode Hus Hgen)
      as (Hfree & Hlen & Hupper).
    assert (Hne : roomCode <> "") by (intros ->; discriminate Hlen).
    destruct Hst as (Hnd & Hwf & Hidx).
    assert (Hother : forall code lobby, mapGet (lobbies st) code = Some lobby ->
              code <> roomCode) by (intros code lobby Hget ->; congruence).
    split.
    + split; [now apply mapSet_NoDup|]. cbn [lobbies playerToRoom]. split.
      * intros code lobby. rewrite mapGet_mapSet.
        destruct (String.eqb_spec roomCode code) as [<-|Hneq].
        -- intros [= <-]. unfold wellFormed. cbn. rewrite lookup_insert_eq. auto 10.
        -- intros Hget. pose proof (Hwf code lobby Hget) as Hl.
           apply (wellFormed_frame (playerToRoom st)); [exact Hl| |].
           ++ apply lookup_insert_ne. intros E. destruct Hl as (_ & _ & _ & Hh & _).
              rewrite <- E in Hh. congruence.
           ++ intros guest Hg. apply lookup_insert_ne. intros E.
              destruct Hl as (_ & _ & _ & _ & Hl). rewrite Hg in Hl.
              destruct Hl as (_ & _ & Hl & _). rewrite <- E in Hl. congruence.
      * intros player code. rewrite lookup_insert.
        destruct (decide (hostSocketId = player)) as [<-|Hneq].
        -- intros [= <-]. eexists. rewrite mapGet_mapSet, String.eqb_refl.
           split; [reflexivity|]. now left.
        -- intros Hp. destruct (Hidx player code Hp) as (lobby & Hget & Hrole).
           exists lobby. split; [|exact Hrole]. rewrite mapGet_mapSet.
           destruct (String.eqb_spec roomCode code) as [<-|]; [congruence | exact Hget].
    + split; [reflexivity|]. split; [exact Hin|]. split; [exact Hfree|].
      split.
      * unfold getLobbyBySocketId. cbn [lobbies playerToRoom]. rewrite lookup_insert_eq.
        destruct (String.eqb_spec roomCode ""); [contradiction|].
        now rewrite mapGet_mapSet, String.eqb_refl.
      * split.
        -- intros code Hneq. cbn [lobbies]. rewrite mapGet_mapSet.
           destruct (String.eqb_spec roomCode code); [congruence | reflexivity].
        -- intros player Hneq. cbn [playerToRoom]. now apply lookup_insert_ne.
Qed.

Lemma emptyRegistry_consistent : consistent emptyRegistry.
Proof.
  split; [constructor|]. split; [intros code lobby H; discriminate H|].
  intros player code H. cbn in H. now rewrite lookup_empty in H.
Qed.

(** The first lobby of a server. *)
Lemma createLobby_witness :
  exists st',
    createLobby "h1" "Ana" "easy" 0 [0; 0; 0; 0]%Q emptyRegistry
      = Some (Returned ("AAAA", "easy"), st') /\ consistent st'.
Proof.
  assert (Hus : unitDraws [0; 0; 0; 0]%Q) by (repeat constructor; discriminate).
  eexists. split; [reflexivity|].
  refine (proj1 (proj2 (proj2 (createLobby_registers "h1" "Ana" "easy" 0 [0; 0; 0; 0]%Q
                                 emptyRegistry Hus emptyRegistry_consistent))
                   (Returned ("AAAA", "easy")) _ _)).
  reflexivity.
Defined.

Lemma wellFormed_insert (index : gmap string string) (player room code : string)
    (lobby : Lobby.t) :
  index !! player = None -> wellFormed index code lobby ->
  wellFormed (<[player := room]> index) code lobby.
Proof.
  intros Hfree Hl. apply (wellFormed_frame index); [exact Hl| |].
  - apply lookup_insert_ne. intros E. destruct Hl as (_ & _ & _ & Hh & _).
    rewrite <- E in Hh. congruence.
  - intros guest Hg. apply lookup_insert_ne. intros E.
    destruct Hl as (_ & _ & _ & _ & Hl). rewrite Hg in Hl.
    destruct Hl as (_ & _ & Hl & _). rewrite <- E in Hl. congruence.
Qed.

Lemma wellFormed_delete (index : gmap string string) (player code : string) (lobby : Lobby.t) :
  wellFormed index code lobby ->
  Lobby.hostId lobby <> player -> Lobby.guestId lobby <> Some player ->
  wellFormed (delete player index) code lobby.
Proof.
  intros Hl Hhost Hguest. apply (wellFormed_frame index); [exact Hl| |].
  - apply lookup_delete_ne. congruence.
  - intros guest Hg. apply lookup_delete_ne. congruence.
Qed.

(** In a consistent registry a lobby whose guest id is not truthy has none. *)
Lemma wellFormed_no_guest (index : gmap string string) (code : string) (lobby : Lobby.t) :
  wellFormed index code lobby ->
  present (Lobby.guestId lobby) = negb (bool_decide (Lobby.guestId lobby = None)).
Proof.
  intros (_ & _ & _ & _ & Hg). destruct (Lobby.guestId lobby) as [guest|]; [|reflexivity].
  destruct Hg as (Hne & _). cbn. destruct (String.eqb_spec guest ""); [contradiction|].
  reflexivity.
Qed.

(** X22.  On a consistent registry [joinLobby] either throws and leaves the
    registry as it was, or seats the guest: the player was in no room, the
    lobby under the upper-cased code was waiting without guest and is now
    ready with this guest, both players find it by their socket ids, the
    rest of the registry is as before, the registry stays consistent, and
    any further player is refused because the room is full. *)
Theorem joinLobby_seats_the_guest (guestSocketId roomCode guestName : string)
    (st st' : Registry) (outcome : Outcome JoinInfo) :
  consistent st -> guestSocketId <> "" ->
  joinLobby guestSocketId roomCode guestName st = (outcome, st') ->
  consistent st' /\
  match outcome with
  | Thrown _ => st' = st
  | Returned info =>
    playerToRoom st !! guestSocketId = None /\
    exists lobby,
      mapGet (lobbies st) (toUpperCase roomCode) = Some lobby /\
      Lobby.guestId lobby = None /\ Lobby.status lobby = waiting /\
      info = {| joinedRoom := toUpperCase roomCode; joinedHost := Lobby.hostName lobby;
                joinedDifficulty := Lobby.difficulty lobby |} /\
      let seated := {|
        Lobby.roomCode := toUpperCase roomCode; Lobby.hostId := Lobby.hostId lobby;
        Lobby.hostName := Lobby.hostName lobby; Lobby.guestId := Some guestSocketId;
        Lobby.guestName := Some (orDefault guestName "Jugador 2");
        Lobby.difficulty := Lobby.difficulty lobby; Lobby.status := ready;
        Lobby.createdAt := Lobby.createdAt lobby |} in
      getLobbyBySocketId guestSocketId st' = Some seated /\
      getLobbyBySocketId (Lobby.hostId lobby) st' = Some seated /\
      (forall code, code <> toUpperCase roomCode ->
         mapGet (lobbies st') code = mapGet (lobbies st) code) /\
      (forall player, player <> guestSocketId ->
         playerToRoom st' !! player = playerToRoom st !! player) /\
      (forall other otherName, playerToRoom st' !! other = None ->
         fst (joinLobby other roomCode otherName st') = Thrown "La sala está llena.")
  end.
Proof.
  intros Hst Hguest. unfold joinLobby. case_bool_decide as Hin; [intros [= <- <-]; auto|].
  apply eq_None_not_Some in Hin.
  destruct (mapGet (lobbies st) (toUpperCase roomCode)) as [lobby|] eqn:Hget;
    [|intros [= <- <-]; auto].
  pose proof Hst as (Hnd & Hwf & Hidx). pose proof (Hwf _ _ Hget) as Hl.
  rewrite (wellFormed_no_guest _ _ _ Hl).
  case_bool_decide as Hnone; cbn [negb]; [|intros [= <- <-]; auto].
  case_bool_decide as Hwaiting; cbn [negb]; [|intros [= <- <-]; auto].
  intros [= <- <-].
  destruct Hl as (Hne & Hupper & Hcode & Hhost & Hl). rewrite Hnone in Hl.
  assert (Hhg : Lobby.hostId lobby <> guestSocketId) by (intros E; rewrite E in Hhost; congruence).
  rewrite Hcode.
  set (seated := {| Lobby.roomCode := toUpperCase roomCode; Lobby.guestId := Some guestSocketId |}).
  assert (Hseated : mapGet (mapSet (lobbies st) (toUpperCase roomCode) seated)
                      (toUpperCase roomCode) = Some seated)
    by now rewrite mapGet_mapSet, String.eqb_refl.
  split.
  - split; [now apply mapSet_NoDup|]. cbn [lobbies playerToRoom]. split.
    + intros code l. rewrite mapGet_mapSet.
      destruct (String.eqb_spec (toUpperCase roomCode) code) as [<-|Hneq].
      * intros [= <-]. unfold wellFormed. cbn.
        rewrite lookup_insert_eq, lookup_insert_ne by congruence.
        repeat (split; [assumption || reflexivity || congruence|]). discriminate.
      * intros Hgetl. apply wellFormed_insert; [exact Hin | now apply Hwf].
    + intros player code. rewrite lookup_insert.
      destruct (decide (guestSocketId = player)) as [<-|Hneq].
      * intros [= <-]. exists seated. split; [exact Hseated | now right].
      * intros Hp. destruct (Hidx player code Hp) as (l & Hgetl & Hrole).
        rewrite mapGet_mapSet.
        destruct (String.eqb_spec (toUpperCase roomCode) code) as [<-|]; [|eauto].
        exists seated. split; [reflexivity|]. left. cbn.
        rewrite Hget in Hgetl. injection Hgetl as <-.
        destruct Hrole as [Hrole|Hrole]; [exact Hrole | congruence].
  - split; [exact Hin|]. exists lobby.
    split; [reflexivity|]. split; [exact Hnone|]. split; [exact Hwaiting|].
    split; [reflexivity|]. cbn zeta. fold seated.
    assert (Hkey : String.eqb (toUpperCase roomCode) "" = false)
      by (destruct (String.eqb_spec (toUpperCase roomCode) ""); congruence).
    split.
    { unfold getLobbyBySocketId. cbn [lobbies playerToRoom].
      now rewrite lookup_insert_eq, Hkey. }
    split.
    { unfold getLobbyBySocketId. cbn [lobbies playerToRoom].
      rewrite lookup_insert_ne by congruence. now rewrite Hhost, Hkey. }
    split.
    { intros code Hneq. cbn [lobbies]. rewrite mapGet_mapSet.
      destruct (String.eqb_spec (toUpperCase roomCode) code); congruence. }
    split.
    { intros player Hneq. cbn [playerToRoom]. apply lookup_insert_ne. congruence. }
    intros other otherName Hother. cbn [lobbies playerToRoom] in *.
    case_bool_decide as Hin'; [rewrite Hother in Hin'; now destruct Hin' as [? [=]]|].
    rewrite Hseated. cbn. destruct (String.eqb_spec guestSocketId ""); [contradiction|].
    reflexivity.
Qed.

Lemma waitingRoom_consistent : consistent waitingRoom.
Proof.
  split; [apply NoDup_singleton|]. split.
  - intros code lobby. unfold waitingRoom. cbn [lobbies mapGet].
    destruct (String.eqb_spec "AAAA" code) as [<-|]; [|discriminate].
    intros [= <-]. unfold wellFormed. cbn. rewrite lookup_singleton_eq.
    repeat split; auto; discriminate.
  - intros player code Hp. cbn in Hp. apply lookup_singleton_Some in Hp as [<- <-].
    exists waitingLobby. split; [reflexivity | now left].
Qed.

Lemma readyRoom_consistent : consistent readyRoom.
Proof.
  split; [apply NoDup_singleton|]. split.
  - intros code lobby. unfold readyRoom. cbn [lobbies mapGet].
    destruct (String.eqb_spec "AAAA" code) as [<-|]; [|discriminate].
    intros [= <-]. unfold wellFormed. cbn.
    rewrite lookup_insert_eq, lookup_insert_ne, lookup_singleton_eq by discriminate.
    repeat split; auto; discriminate.
  - intros player code Hp. cbn in Hp. rewrite lookup_insert in Hp.
    destruct (decide ("g1" = player)) as [<-|].
    + injection Hp as <-. exists readyLobby. split; [reflexivity | now right].
    + apply lookup_singleton_Some in Hp as [<- <-].
      exists readyLobby. split; [reflexivity | now left].
Qed.

(** A guest takes the free seat of the waiting room, in lower case. *)
Lemma joinLobby_witness :
  joinLobby "g1" "aaaa" "Luis" waitingRoom
    = (Returned {| joinedRoom := "AAAA"; joinedHost := "Ana"; joinedDifficulty := "easy" |},
       readyRoom) /\
  consistent readyRoom.
Proof.
  assert (Hguest : "g1" <> "") by discriminate.
  assert (Hjoin : joinLobby "g1" "aaaa" "Luis" waitingRoom
            = (Returned {| joinedRoom := "AAAA"; joinedHost := "Ana";
                           joinedDifficulty := "easy" |}, readyRoom)) by reflexivity.
  split; [exact Hjoin|].
  exact (proj1 (joinLobby_seats_the_guest "g1" "aaaa" "Luis" waitingRoom readyRoom _
                  waitingRoom_consistent Hguest Hjoin)).
Defined.

(** X23.  A guest who joins and then leaves puts a consistent registry back
    exactly as it was: the lobby waits again without guest and guest name,
    and the guest is in no room. *)
Theorem join_then_leave_restores (guestSocketId roomCode guestName : string)
    (st st' : Registry) (info : JoinInfo) :
  consistent st -> guestSocketId <> "" ->
  joinLobby guestSocketId roomCode guestName st = (Returned info, st') ->
  leaveLobby guestSocketId st' = (false, st).
Proof.
  intros Hst Hguest. unfold joinLobby. case_bool_decide as Hin; [discriminate|].
  apply eq_None_not_Some in Hin.
  destruct (mapGet (lobbies st) (toUpperCase roomCode)) as [lobby|] eqn:Hget; [|discriminate].
  pose proof Hst as (Hnd & Hwf & Hidx). pose proof (Hwf _ _ Hget) as Hl.
  rewrite (wellFormed_no_guest _ _ _ Hl).
  case_bool_decide as Hnone; cbn [negb]; [|discriminate].
  case_bool_decide as Hwaiting; cbn [negb]; [|discriminate].
  intros [= _ <-].
  destruct Hl as (Hne & Hupper & Hcode & Hhost & Hl). rewrite Hnone in Hl.
  destruct Hl as (Hname & _).
  assert (Hhg : Lobby.hostId lobby <> guestSocketId) by (intros E; rewrite E in Hhost; congruence).
  unfold leaveLobby. cbn [lobbies playerToRoom]. rewrite lookup_insert_eq.
  destruct (String.eqb_spec (toUpperCase roomCode) ""); [contradiction|].
  rewrite mapGet_mapSet, String.eqb_refl. cbn [Lobby.hostId Lobby.guestId].
  destruct (String.eqb_spec (Lobby.hostId lobby) guestSocketId); [contradiction|].
  rewrite bool_decide_eq_true_2 by reflexivity.
  rewrite mapSet_mapSet by (unfold mapHas; now rewrite Hget).
  rewrite delete_insert_id by exact Hin. f_equal.
  cbn. rewrite mapSet_same; [now destruct st|].
  rewrite Hget. f_equal. destruct lobby. cbn in *. congruence.
Qed.

(** The guest of the ready room leaves it. *)
Lemma join_then_leave_witness :
  leaveLobby "g1" readyRoom = (false, waitingRoom).
Proof.
  assert (Hguest : "g1" <> "") by discriminate.
  assert (Hjoin : joinLobby "g1" "aaaa" "Luis" waitingRoom
            = (Returned {| joinedRoom := "AAAA"; joinedHost := "Ana";
                           joinedDifficulty := "easy" |}, readyRoom)) by reflexivity.
  exact (join_then_leave_restores "g1" "aaaa" "Luis" waitingRoom readyRoom _
           waitingRoom_consistent Hguest Hjoin).
Defined.

(** What [deleteLobby] does to a lobby that is stored, in a consistent
    registry. *)
Lemma deleteLobby_consistent (roomCode : string) (st : Registry) :
  consistent st -> consistent (deleteLobby roomCode st).
Proof.
  intros Hst. unfold deleteLobby.
  destruct (mapGet (lobbies st) roomCode) as [lobby|] eqn:Hget; [|exact Hst].
  destruct Hst as (Hnd & Hwf & Hidx). pose proof (Hwf _ _ Hget) as Hl.
  destruct Hl as (Hne & Hupper & Hcode & Hhost & Hl).
  set (index' := match Lobby.guestId lobby with Some _ => _ | None => _ end).
  assert (Hindex' : forall player,
            index' !! player
            = if decide (Lobby.hostId lobby = player \/ Lobby.guestId lobby = Some player)
              then None else playerToRoom st !! player).
  { intros player. subst index'. destruct (Lobby.guestId lobby) as [guest|].
    - destruct Hl as (Hg & _). cbn. destruct (String.eqb_spec guest ""); [contradiction|].
      cbn. rewrite !lookup_delete. repeat case_decide; try reflexivity; exfalso; intuition congruence.
    - rewrite lookup_delete. repeat case_decide; try reflexivity; exfalso; intuition congruence. }
  split; [now apply mapDelete_NoDup|]. cbn [lobbies playerToRoom]. split.
  - intros code l. rewrite (mapGet_mapDelete _ _ _ Hnd).
    destruct (String.eqb_spec roomCode code) as [<-|Hneq]; [discriminate|].
    intros Hgetl. pose proof (Hwf _ _ Hgetl) as Hwl.
    assert (Hdisjoint : forall player,
              Lobby.hostId lobby = player \/ Lobby.guestId lobby = Some player ->
              playerToRoom st !! player = Some roomCode).
    { intros player [<-|Hg]; [exact Hhost|]. rewrite Hg in Hl. tauto. }
    apply (wellFormed_frame (playerToRoom st)); [exact Hwl| |].
    + rewrite Hindex'. case_decide as Hrole; [|reflexivity].
      apply Hdisjoint in Hrole. destruct Hwl as (_ & _ & _ & Hh & _). congruence.
    + intros guest Hg. rewrite Hindex'. case_decide as Hrole; [|reflexivity].
      apply Hdisjoint in Hrole. destruct Hwl as (_ & _ & _ & _ & Hwl). rewrite Hg in Hwl.
      destruct Hwl as (_ & _ & Hwl & _). congruence.
  - intros player code. rewrite Hindex'. case_decide as Hrole; [discriminate|].
    intros Hp. destruct (Hidx player code Hp) as (l & Hgetl & Hrolel).
    exists l. split; [|exact Hrolel]. rewrite (mapGet_mapDelete _ _ _ Hnd).
    destruct (String.eqb_spec roomCode code) as [<-|]; [|exact Hgetl].
    exfalso. apply Hrole. congruence.
Qed.

Lemma leaveLobby_host (st : Registry) (roomCode : string) (lobby : Lobby.t) :
  consistent st -> mapGet (lobbies st) roomCode = Some lobby ->
  leaveLobby (Lobby.hostId lobby) st = (true, deleteLobby roomCode st).
Proof.
  intros (Hnd & Hwf & Hidx) Hget. pose proof (Hwf _ _ Hget) as Hl.
  destruct Hl as (Hne & Hupper & Hcode & Hhost & Hl).
  unfold leaveLobby, deleteLobby. rewrite Hhost.
  destruct (String.eqb_spec roomCode ""); [contradiction|].
  rewrite Hget, String.eqb_refl. f_equal. f_equal.
  destruct (Lobby.guestId lobby) as [guest|]; [|reflexivity].
  destruct (present (Some guest)); [apply delete_delete | reflexivity].
Qed.

(** X24.  When the host of a stored lobby leaves, [leaveLobby] answers true
    and does what [deleteLobby] does with the room: the lobby is gone, the
    host and the guest are in no room, the other rooms and players are as
    before, and the registry stays consistent. *)
Theorem host_leave_deletes_the_lobby (st : Registry) (roomCode : string) (lobby : Lobby.t) :
  consistent st -> mapGet (lobbies st) roomCode = Some lobby ->
  let st' := deleteLobby roomCode st in
  leaveLobby (Lobby.hostId lobby) st = (true, st') /\
  consistent st' /\
  mapGet (lobbies st') roomCode = None /\
  playerToRoom st' !! Lobby.hostId lobby = None /\
  (forall guest, Lobby.guestId lobby = Some guest -> playerToRoom st' !! guest = None) /\
  (forall code, code <> roomCode -> mapGet (lobbies st') code = mapGet (lobbies st) code) /\
  (forall player, player <> Lobby.hostId lobby -> Lobby.guestId lobby <> Some player ->
     playerToRoom st' !! player = playerToRoom st !! player).
Proof.
  intros Hst Hget st'.
  split; [now apply leaveLobby_host|]. split; [now apply deleteLobby_consistent|].
  destruct Hst as (Hnd & Hwf & Hidx). pose proof (Hwf _ _ Hget) as Hl.
  destruct Hl as (Hne & Hupper & Hcode & Hhost & Hl).
  subst st'. unfold deleteLobby. rewrite Hget. cbn [lobbies playerToRoom].
  split; [now rewrite (mapGet_mapDelete _ _ _ Hnd), String.eqb_refl|].
  destruct (Lobby.guestId lobby) as [guest|].
  - destruct Hl as (Hg & Hgh & _). cbn. destruct (String.eqb_spec guest ""); [contradiction|].
    cbn. split; [rewrite lookup_delete_ne by congruence; apply lookup_delete_eq|].
    split; [intros g [= <-]; apply lookup_delete_eq|].
    split.
    + intros code Hneq. rewrite (mapGet_mapDelete _ _ _ Hnd).
      destruct (String.eqb_spec roomCode code); congruence.
    + intros player Hp1 Hp2. rewrite !lookup_delete_ne by congruence. reflexivity.
  - split; [apply lookup_delete_eq|]. split; [discriminate|]. split.
    + intros code Hneq. rewrite (mapGet_mapDelete _ _ _ Hnd).
      destruct (String.eqb_spec roomCode code); congruence.
    + intros player Hp1 Hp2. now rewrite lookup_delete_ne by congruence.
Qed.

(** The host of the ready room leaves. *)
Lemma host_leave_witness :
  leaveLobby "h1" readyRoom = (true, deleteLobby "AAAA" readyRoom) /\
  consistent (deleteLobby "AAAA" readyRoom).
Proof.
  assert (Hget : mapGet (lobbies readyRoom) "AAAA" = Some readyLobby) by reflexivity.
  pose proof (host_leave_deletes_the_lobby readyRoom "AAAA" readyLobby
                readyRoom_consistent Hget) as (Hleave & Hst & _).
  split; [exact Hleave | exact Hst].
Defined.

Lemma deleteLobby_index (roomCode : string) (st : Registry) (lobby : Lobby.t) (player : string) :
  consistent st -> mapGet (lobbies st) roomCode = Some lobby ->
  playerToRoom (deleteLobby roomCode st) !! player
  = if decide (Lobby.hostId lobby = player \/ Lobby.guestId lobby = Some player)
    then None else playerToRoom st !! player.
Proof.
  intros (Hnd & Hwf & Hidx) Hget. pose proof (Hwf _ _ Hget) as Hl.
  destruct Hl as (Hne & Hupper & Hcode & Hhost & Hl).
  unfold deleteLobby. rewrite Hget. cbn [playerToRoom].
  destruct (Lobby.guestId lobby) as [guest|].
  - destruct Hl as (Hg & _). cbn. destruct (String.eqb_spec guest ""); [contradiction|].
    cbn. rewrite !lookup_delete. repeat case_decide; try reflexivity; exfalso; intuition congruence.
  - rewrite lookup_delete. repeat case_decide; try reflexivity; exfalso; intuition congruence.
Qed.

(** X25.  On a consistent registry [leaveLobby] keeps the registry
    consistent and leaves the player in no room; it answers true exactly
    when the player was the host of a lobby, and when the player was a guest
    the lobby is found by its host again waiting, without guest. *)
Theorem leaveLobby_frees_the_player (socketId : string) (st : Registry) :
  consistent st ->
  consistent (snd (leaveLobby socketId st)) /\
  playerToRoom (snd (leaveLobby socketId st)) !! socketId = None /\
  (fst (leaveLobby socketId st) = true <->
     exists lobby, getLobbyBySocketId socketId st = Some lobby /\ Lobby.hostId lobby = socketId) /\
  (forall lobby, getLobbyBySocketId socketId st = Some lobby ->
     Lobby.hostId lobby <> socketId ->
     getLobbyBySocketId (Lobby.hostId lobby) (snd (leaveLobby socketId st))
       = Some {| Lobby.roomCode := Lobby.roomCode lobby; Lobby.hostId := Lobby.hostId lobby;
                 Lobby.hostName := Lobby.hostName lobby; Lobby.guestId := None;
                 Lobby.guestName := None; Lobby.difficulty := Lobby.difficulty lobby;
                 Lobby.status := waiting; Lobby.createdAt := Lobby.createdAt lobby |}).
Proof.
  intros Hst. pose proof Hst as (Hnd & Hwf & Hidx).
  destruct (playerToRoom st !! socketId) as [roomCode|] eqn:Hp.
  - destruct (Hidx _ _ Hp) as (lobby & Hget & Hrole). pose proof (Hwf _ _ Hget) as Hl.
    destruct Hl as (Hne & Hupper & Hcode & Hhost & Hl).
    assert (Hfind : getLobbyBySocketId socketId st = Some lobby).
    { unfold getLobbyBySocketId. rewrite Hp.
      destruct (String.eqb_spec roomCode ""); [contradiction | exact Hget]. }
    rewrite Hfind.
    destruct (String.eqb_spec (Lobby.hostId lobby) socketId) as [E|Hnh].
    + rewrite <- E. rewrite (leaveLobby_host st roomCode lobby Hst Hget). cbn [fst snd].
      split; [now apply deleteLobby_consistent|].
      split; [rewrite (deleteLobby_index roomCode st lobby _ Hst Hget), decide_True; auto|].
      split; [split; eauto|]. intros l [= <-] Hcontra. contradiction.
    + destruct Hrole as [Hrole|Hrole]; [contradiction|]. rewrite Hrole in Hl.
      destruct Hl as (Hg & Hgh & Hgi & Hstatus).
      assert (Hleave : leaveLobby socketId st
                = (false, {| lobbies := mapSet (lobbies st) roomCode
                               {| Lobby.roomCode := Lobby.roomCode lobby;
                                  Lobby.hostId := Lobby.hostId lobby;
                                  Lobby.hostName := Lobby.hostName lobby;
                                  Lobby.guestId := None; Lobby.guestName := None;
                                  Lobby.difficulty := Lobby.difficulty lobby;
                                  Lobby.status := waiting;
                                  Lobby.createdAt := Lobby.createdAt lobby |};
                             playerToRoom := delete socketId (playerToRoom st) |})).
      { unfold leaveLobby. rewrite Hp.
        destruct (String.eqb_spec roomCode ""); [contradiction|]. rewrite Hget.
        destruct (String.eqb_spec (Lobby.hostId lobby) socketId); [contradiction|].
        now rewrite bool_decide_eq_true_2 by exact Hrole. }
      rewrite Hleave. cbn [fst snd lobbies playerToRoom].
      split; [|split; [apply lookup_delete_eq|split]].
      * split; [now apply mapSet_NoDup|]. cbn [lobbies playerToRoom]. split.
        -- intros code l. rewrite mapGet_mapSet.
           destruct (String.eqb_spec roomCode code) as [<-|Hneq].
           ++ intros [= <-]. unfold wellFormed. cbn.
              rewrite lookup_delete_ne by congruence. auto 10.
           ++ intros Hgetl. pose proof (Hwf _ _ Hgetl) as Hwl.
              apply wellFormed_delete; [exact Hwl| |].
              ** intros E. destruct Hwl as (_ & _ & _ & Hh & _). rewrite E in Hh. congruence.
              ** intros E. destruct Hwl as (_ & _ & _ & _ & Hwl). rewrite E in Hwl.
                 destruct Hwl as (_ & _ & Hwl & _). congruence.
        -- intros player code. rewrite lookup_delete. case_decide as Hneq; [discriminate|].
           intros Hq. destruct (Hidx _ _ Hq) as (l & Hgetl & Hrolel). rewrite mapGet_mapSet.
           destruct (String.eqb_spec roomCode code) as [<-|]; [|eauto].
           eexists. split; [reflexivity|]. left. cbn.
           rewrite Hget in Hgetl. injection Hgetl as <-.
           destruct Hrolel as [Hr|Hr]; [exact Hr | congruence].
      * split; [discriminate|]. intros (l & [= <-] & Hl). contradiction.
      * intros l [= <-] _. unfold getLobbyBySocketId. cbn [lobbies playerToRoom].
        rewrite lookup_delete_ne by congruence. rewrite Hhost.
        destruct (String.eqb_spec roomCode ""); [contradiction|].
        now rewrite mapGet_mapSet, String.eqb_refl.
  - assert (Hleave : leaveLobby socketId st = (false, st)) by (unfold leaveLobby; now rewrite Hp).
    assert (Hfind : getLobbyBySocketId socketId st = None)
      by (unfold getLobbyBySocketId; now rewrite Hp).
    rewrite Hleave, Hfind. cbn [fst snd].
    split; [exact Hst|]. split; [exact Hp|]. split.
    + split; [discriminate|]. intros (l & Hl & _). discriminate.
    + intros l Hl. discriminate.
Qed.

(** The guest of the ready room leaves it. *)
Lemma leaveLobby_witness :
  consistent (snd (leaveLobby "g1" readyRoom)) /\
  playerToRoom (snd (leaveLobby "g1" readyRoom)) !! "g1" = None.
Proof.
  pose proof (leaveLobby_frees_the_player "g1" readyRoom readyRoom_consistent)
    as (Hst & Hfree & _).
  split; [exact Hst | exact Hfree].
Defined.

(** A change of status keeps a registry consistent when it leaves a lobby
    with a guest not waiting and ends a lobby without guest. *)
Lemma withLobbyStatus_consistent (st : Registry) (roomCode : string) (lobby : Lobby.t)
    (status : LobbyStatus) :
  consistent st -> mapGet (lobbies st) roomCode = Some lobby ->
  match Lobby.guestId lobby with
  | Some _ => status <> waiting
  | None => status = waiting \/ status = finished
  end ->
  consistent {| lobbies := mapSet (lobbies st) roomCode (withLobbyStatus lobby status);
                playerToRoom := playerToRoom st |}.
Proof.
  intros (Hnd & Hwf & Hidx) Hget Hstatus.
  split; [now apply mapSet_NoDup|]. cbn [lobbies playerToRoom]. split.
  - intros code l. rewrite mapGet_mapSet.
    destruct (String.eqb_spec roomCode code) as [<-|Hneq]; [|apply Hwf].
    intros [= <-]. destruct (Hwf _ _ Hget) as (H1 & H2 & H3 & H4 & H5).
    unfold wellFormed. cbn. repeat (split; [assumption|]).
    destruct (Lobby.guestId lobby); intuition.
  - intros player code Hp. destruct (Hidx _ _ Hp) as (l & Hgetl & Hrole).
    rewrite mapGet_mapSet. destruct (String.eqb_spec roomCode code) as [<-|]; [|eauto].
    eexists. split; [reflexivity|]. cbn. congruence.
Qed.

(** X26.  On a consistent registry [startLobbyGame] returns a lobby exactly
    when the room exists, the caller is its host and its status is ready (a
    ready lobby always has its guest); the lobby returned is the stored one
    set to playing, with host and guest, the players' index is untouched and
    the registry stays consistent; a second start, a start by the guest and
    a late join are all refused.  When it returns null the registry is as it
    was. *)
Theorem startLobbyGame_once (roomCode hostSocketId : string) (st : Registry) :
  consistent st ->
  let result := fst (startLobbyGame roomCode hostSocketId st) in
  let st' := snd (startLobbyGame roomCode hostSocketId st) in
  consistent st' /\
  (is_Some result <->
     exists lobby, mapGet (lobbies st) roomCode = Some lobby /\
       Lobby.hostId lobby = hostSocketId /\ Lobby.status lobby = ready) /\
  match result with
  | None => st' = st
  | Some started =>
    Lobby.status started = playing /\ Lobby.hostId started = hostSocketId /\
    (exists guest, Lobby.guestId started = Some guest /\ guest <> "" /\
       guest <> hostSocketId /\
       fst (startLobbyGame roomCode guest st') = None) /\
    mapGet (lobbies st') roomCode = Some started /\
    mapGet (lobbies st) roomCode = Some (withLobbyStatus started ready) /\
    playerToRoom st' = playerToRoom st /\
    (forall code, code <> roomCode -> mapGet (lobbies st') code = mapGet (lobbies st) code) /\
    fst (startLobbyGame roomCode hostSocketId st') = None /\
    (forall player name, exists message,
       joinLobby player roomCode name st' = (Thrown message, st'))
  end.
Proof.
  intros Hst result st'. subst result st'.
  pose proof Hst as (Hnd & Hwf & Hidx).
  assert (Hrefused : startLobbyGame roomCode hostSocketId st = (None, st) ->
            ~ (exists lobby, mapGet (lobbies st) roomCode = Some lobby /\
                 Lobby.hostId lobby = hostSocketId /\ Lobby.status lobby = ready) ->
            consistent (snd (startLobbyGame roomCode hostSocketId st)) /\
            (is_Some (fst (startLobbyGame roomCode hostSocketId st)) <->
               exists lobby, mapGet (lobbies st) roomCode = Some lobby /\
                 Lobby.hostId lobby = hostSocketId /\ Lobby.status lobby = ready) /\
            match fst (startLobbyGame roomCode hostSocketId st) with
            | None => snd (startLobbyGame roomCode hostSocketId st) = st
            | Some _ => False
            end).
  { intros -> Hno. cbn [fst snd]. split; [exact Hst|]. split; [|reflexivity].
    split; [intros [? [=]] | intros H; contradiction]. }
  destruct (mapGet (lobbies st) roomCode) as [lobby|] eqn:Hget.
  2: { destruct Hrefused as (H1 & H2 & H3).
       - unfold startLobbyGame. now rewrite Hget.
       - intros (l & [=] & _).
       - split; [exact H1|]. split; [exact H2|].
         destruct (fst (startLobbyGame roomCode hostSocketId st)); [destruct H3 | exact H3]. }
  destruct (String.eqb_spec (Lobby.hostId lobby) hostSocketId) as [Hh|Hh].
  2: { destruct Hrefused as (H1 & H2 & H3).
       - unfold startLobbyGame. rewrite Hget.
         destruct (String.eqb_spec (Lobby.hostId lobby) hostSocketId); [contradiction|].
         reflexivity.
       - intros (l & [= <-] & Hl & _). contradiction.
       - split; [exact H1|]. split; [exact H2|].
         destruct (fst (startLobbyGame roomCode hostSocketId st)); [destruct H3 | exact H3]. }
  destruct (decide (Lobby.status lobby = ready)) as [Hready|Hready].
  2: { destruct Hrefused as (H1 & H2 & H3).
       - unfold startLobbyGame. rewrite Hget.
         destruct (String.eqb_spec (Lobby.hostId lobby) hostSocketId); [|contradiction].
         cbn [negb]. now rewrite bool_decide_eq_false_2 by exact Hready.
       - intros (l & [= <-] & _ & Hl). contradiction.
       - split; [exact H1|]. split; [exact H2|].
         destruct (fst (startLobbyGame roomCode hostSocketId st)); [destruct H3 | exact H3]. }
  clear Hrefused.
  pose proof (Hwf _ _ Hget) as Hl. pose proof (wellFormed_no_guest _ _ _ Hl) as Hpresent.
  destruct Hl as (Hne & Hupper & Hcode & Hhost & Hl).
  destruct (Lobby.guestId lobby) as [guest|] eqn:Hguest.
  2: { exfalso. destruct Hl as (_ & [Hl|Hl]); congruence. }
  destruct Hl as (Hg & Hgh & Hgi & _).
  rewrite bool_decide_eq_false_2 in Hpresent by discriminate. cbn [negb] in Hpresent.
  assert (Hstart : startLobbyGame roomCode hostSocketId st
            = (Some (withLobbyStatus lobby playing),
               {| lobbies := mapSet (lobbies st) roomCode (withLobbyStatus lobby playing);
                  playerToRoom := playerToRoom st |})).
  { unfold startLobbyGame. rewrite Hget.
    destruct (String.eqb_spec (Lobby.hostId lobby) hostSocketId); [|contradiction].
    cbn [negb]. rewrite bool_decide_eq_true_2 by exact Hready. cbn [negb].
    rewrite Hguest, Hpresent. reflexivity. }
  rewrite Hstart. cbn [fst snd].
  assert (Hstarted : mapGet (mapSet (lobbies st) roomCode (withLobbyStatus lobby playing))
                       roomCode = Some (withLobbyStatus lobby playing))
    by now rewrite mapGet_mapSet, String.eqb_refl.
  split.
  { apply withLobbyStatus_consistent; [exact Hst | exact Hget|]. rewrite Hguest. discriminate. }
  split; [split; eauto|].
  split; [reflexivity|]. split; [exact Hh|]. split.
  { exists guest. cbn. split; [exact Hguest|]. split; [exact Hg|]. split; [congruence|].
    unfold startLobbyGame. cbn [lobbies]. rewrite Hstarted. cbn [Lobby.hostId withLobbyStatus].
    destruct (String.eqb_spec (Lobby.hostId lobby) guest); [congruence | reflexivity]. }
  split; [exact Hstarted|]. split.
  { f_equal. destruct lobby. cbn in Hready. now rewrite Hready. }
  split; [reflexivity|]. split.
  { intros code Hneq. cbn [lobbies]. rewrite mapGet_mapSet.
    destruct (String.eqb_spec roomCode code); congruence. }
  split.
  { unfold startLobbyGame. cbn [lobbies]. rewrite Hstarted. cbn [Lobby.hostId withLobbyStatus].
    destruct (String.eqb_spec (Lobby.hostId lobby) hostSocketId); [|contradiction].
    reflexivity. }
  intros player name. unfold joinLobby. cbn [lobbies playerToRoom].
  case_bool_decide; [eauto|].
  destruct (mapGet _ (toUpperCase roomCode)) as [l|] eqn:Hl; [|eauto].
  destruct (present (Lobby.guestId l)); [eauto|].
  case_bool_decide as Hwaiting; cbn [negb]; [|eauto].
  exfalso. rewrite Hupper, Hstarted in Hl. injection Hl as <-. discriminate Hwaiting.
Qed.

(** The host starts the game of the ready room. *)
Lemma startLobbyGame_witness :
  consistent (snd (startLobbyGame "AAAA" "h1" readyRoom)) /\
  fst (startLobbyGame "AAAA" "h1" readyRoom) = Some (withLobbyStatus readyLobby playing).
Proof.
  pose proof (startLobbyGame_once "AAAA" "h1" readyRoom readyRoom_consistent) as (Hst & _).
  split; [exact Hst | reflexivity].
Defined.

Lemma insertNewestFirst_In (x y : Listing) (sorted : list Listing) :
  In y (insertNewestFirst x sorted) <-> y = x \/ In y sorted.
Proof.
  induction sorted as [|z rest IH]; cbn; [intuition|].
  destruct (listedAt x - listedAt z <=? 0); cbn; [rewrite IH|]; intuition.
Qed.

Lemma insertNewestFirst_sorted (x : Listing) (sorted : list Listing) :
  newestFirst sorted -> newestFirst (insertNewestFirst x sorted).
Proof.
  induction sorted as [|z rest IH]; cbn; [intuition|].
  intros [Hz Hrest]. destruct (Z.leb_spec (listedAt x - listedAt z) 0) as [Hle|Hgt]; cbn.
  - split; [|auto]. intros y Hy. apply insertNewestFirst_In in Hy as [->|Hy]; [lia | auto].
  - split; [|auto]. intros y [<-|Hy]; [lia|]. specialize (Hz y Hy). lia.
Qed.

Lemma sorted_listings (available : list Listing) :
  forall acc, newestFirst acc ->
    newestFirst (fold_left (fun acc x => insertNewestFirst x acc) available acc) /\
    forall y, In y (fold_left (fun acc x => insertNewestFirst x acc) available acc)
              <-> In y acc \/ In y available.
Proof.
  induction available as [|x available IH]; intros acc Hacc; cbn; [intuition|].
  destruct (IH (insertNewestFirst x acc) (insertNewestFirst_sorted x acc Hacc)) as [Hs Hin].
  split; [exact Hs|]. intros y. rewrite Hin, insertNewestFirst_In. intuition.
Qed.

Lemma getAvailableLobbies_listed (st : Registry) :
  consistent st ->
  newestFirst (getAvailableLobbies st) /\
  (forall x, In x (getAvailableLobbies st) <->
     exists code lobby, mapGet (lobbies st) code = Some lobby /\
       Lobby.status lobby = waiting /\ Lobby.guestId lobby = None /\ x = listingOf lobby).
Proof.
  intros (Hnd & Hwf & Hidx). unfold getAvailableLobbies.
  set (entry := fun '(_, lobby) => if _ && _ then Some _ else None).
  destruct (sorted_listings (omap entry (lobbies st)) [] I) as [Hsorted Hin].
  split; [exact Hsorted|].
  intros x. rewrite Hin. cbn [In]. rewrite <- list_elem_of_In, list_elem_of_omap. split.
  - intros [[]|([code lobby] & Hel & Hentry)]. exists code, lobby.
    apply list_elem_of_In, (mapGet_In _ _ _ Hnd) in Hel. split; [exact Hel|].
    subst entry. cbn in Hentry. rewrite (wellFormed_no_guest _ _ _ (Hwf _ _ Hel)) in Hentry.
    do 2 case_bool_decide; cbn in Hentry; try discriminate.
    injection Hentry as <-. auto.
  - intros (code & lobby & Hget & Hwaiting & Hnone & ->). right. exists (code, lobby).
    split; [now apply list_elem_of_In, (mapGet_In _ _ _ Hnd)|].
    subst entry. cbn. rewrite Hwaiting, Hnone. reflexivity.
Qed.

(** X27.  On a consistent registry [getAvailableLobbies] lists exactly the
    lobbies that wait without guest, each with its code, host name,
    difficulty and creation time, from the newest to the oldest; and a
    player who is in no room can join every lobby listed, under the code
    listed. *)
Theorem getAvailableLobbies_lists_joinable (st : Registry) :
  consistent st ->
  newestFirst (getAvailableLobbies st) /\
  (forall x, In x (getAvailableLobbies st) <->
     exists code lobby, mapGet (lobbies st) code = Some lobby /\
       Lobby.status lobby = waiting /\ Lobby.guestId lobby = None /\ x = listingOf lobby) /\
  (forall x guest name, In x (getAvailableLobbies st) -> playerToRoom st !! guest = None ->
     exists info st', joinLobby guest (listedRoom x) name st = (Returned info, st') /\
       joinedRoom info = listedRoom x).
Proof.
  intros Hst. destruct (getAvailableLobbies_listed st Hst) as [Hsorted Hlisted].
  destruct Hst as (Hnd & Hwf & Hidx).
  split; [exact Hsorted|]. split; [exact Hlisted|].
  intros x guest name Hx Hfree. apply Hlisted in Hx as (code & lobby & Hget & Hwaiting & Hnone & ->).
  destruct (Hwf _ _ Hget) as (Hne & Hupper & Hcode & _).
  unfold joinLobby, listingOf. cbn [listedRoom]. rewrite Hcode, Hupper.
  rewrite bool_decide_eq_false_2 by (rewrite Hfree; intros [? [=]]).
  rewrite Hget, Hnone. cbn [present]. rewrite bool_decide_eq_true_2 by exact Hwaiting.
  cbn [negb]. eexists _, _. split; [reflexivity|]. cbn. exact Hcode.
Qed.

(** The waiting room is listed; the ready room is not. *)
Lemma getAvailableLobbies_witness :
  getAvailableLobbies waitingRoom = [listingOf waitingLobby] /\
  getAvailableLobbies readyRoom = [] /\
  newestFirst (getAvailableLobbies waitingRoom).
Proof.
  split; [reflexivity|]. split; [reflexivity|].
  exact (proj1 (getAvailableLobbies_lists_joinable waitingRoom waitingRoom_consistent)).
Defined.

(** X28.  [finishLobby] on a stored lobby of a consistent registry marks it
    finished and changes nothing else: both players stay in the index, the
    registry stays consistent, and the room can no longer be started, joined
    or listed. *)
Theorem finishLobby_closes_the_room (roomCode : string) (st : Registry) (lobby : Lobby.t) :
  consistent st -> mapGet (lobbies st) roomCode = Some lobby ->
  let st' := finishLobby roomCode st in
  consistent st' /\
  mapGet (lobbies st') roomCode = Some (withLobbyStatus lobby finished) /\
  playerToRoom st' = playerToRoom st /\
  (forall code, code <> roomCode -> mapGet (lobbies st') code = mapGet (lobbies st) code) /\
  (forall player, fst (startLobbyGame roomCode player st') = None) /\
  (forall player name, exists message,
     joinLobby player roomCode name st' = (Thrown message, st')) /\
  (forall x, In x (getAvailableLobbies st') -> listedRoom x <> roomCode).
Proof.
  intros Hst Hget st'. subst st'. unfold finishLobby. rewrite Hget.
  pose proof Hst as (Hnd & Hwf & Hidx).
  destruct (Hwf _ _ Hget) as (Hne & Hupper & Hcode & Hhost & Hl).
  assert (Hst' : consistent {| lobbies := mapSet (lobbies st) roomCode
                                            (withLobbyStatus lobby finished);
                               playerToRoom := playerToRoom st |}).
  { apply withLobbyStatus_consistent; [exact Hst | exact Hget|].
    destruct (Lobby.guestId lobby); [discriminate | now right]. }
  assert (Hfinished : mapGet (mapSet (lobbies st) roomCode (withLobbyStatus lobby finished))
                        roomCode = Some (withLobbyStatus lobby finished))
    by now rewrite mapGet_mapSet, String.eqb_refl.
  split; [exact Hst'|]. cbn [lobbies playerToRoom].
  split; [exact Hfinished|]. split; [reflexivity|]. split.
  { intros code Hneq. rewrite mapGet_mapSet.
    destruct (String.eqb_spec roomCode code); congruence. }
  split.
  { intros player. unfold startLobbyGame. cbn [lobbies]. rewrite Hfinished.
    destruct (negb _); [reflexivity|]. cbn. reflexivity. }
  split.
  { intros player name. unfold joinLobby. cbn [lobbies playerToRoom].
    case_bool_decide; [eauto|]. rewrite Hupper, Hfinished.
    destruct (present _); [eauto|]. cbn. eauto. }
  intros x Hx Hroom.
  apply (proj2 (getAvailableLobbies_listed _ Hst')) in Hx
    as (code & l & Hgetl & Hwaiting & _ & ->).
  cbn [lobbies] in Hgetl.
  destruct (proj1 (proj2 Hst') code l Hgetl) as (_ & _ & Hcl & _).
  cbn [listingOf listedRoom] in Hroom. rewrite Hcl in Hroom. subst code.
  rewrite Hfinished in Hgetl. injection Hgetl as <-. discriminate Hwaiting.
Qed.

(** The ready room is finished. *)
Lemma finishLobby_witness :
  consistent (finishLobby "AAAA" readyRoom) /\
  mapGet (lobbies (finishLobby "AAAA" readyRoom)) "AAAA"
    = Some (withLobbyStatus readyLobby finished).
Proof.
  assert (Hget : mapGet (lobbies readyRoom) "AAAA" = Some readyLobby) by reflexivity.
  pose proof (finishLobby_closes_the_room "AAAA" readyRoom readyLobby
                readyRoom_consistent Hget) as (Hst & Hfinished & _).
  split; [exact Hst | exact Hfinished].
Defined.

End Lobbies.

(** ** Expressions without variables *)

Section PlainExpressions.
Import GameManager ExprSpec.
Variable eval : string -> Games -> option Q * Games.

Lemma starBetween_left (p2 : ascii -> bool) (s : string) :
  noVariables s = true -> starBetween isXY p2 s = s.
Proof.
  unfold starBetween. induction s as [|c r IH]; [reflexivity|].
  cbn. intros H. apply andb_true_iff in H as [Hc Hr]. apply negb_true_iff in Hc.
  rewrite Hc. cbn. destruct r as [|c2 r']; [reflexivity|]. now rewrite IH.
Qed.

Lemma starBetween_right (p1 : ascii -> bool) (s : string) :
  noVariables s = true -> starBetween p1 isXY s = s.
Proof.
  unfold starBetween. induction s as [|c r IH]; [reflexivity|].
  cbn [noVariables starBetweenFrom]. intros H. apply andb_true_iff in H as [Hc Hr].
  destruct r as [|c2 r']; [reflexivity|].
  assert (Hc2 : isXY c2 = false).
  { cbn in Hr. apply andb_true_iff in Hr as [Hr _]. now apply negb_true_iff in Hr. }
  rewrite Hc2, andb_false_r. now rewrite IH.
Qed.

Lemma replaceAll_absent (symbol rep s : string) :
  symbol = "x" \/ symbol = "y" -> noVariables s = true ->
  GameLogic.replaceAllFrom symbol rep 0 s = s.
Proof.
  intros Hsymbol. induction s as [|c r IH]; [reflexivity|].
  cbn [noVariables GameLogic.replaceAllFrom]. intros H. apply andb_true_iff in H as [Hc Hr].
  apply negb_true_iff in Hc. unfold isXY in Hc. apply orb_false_iff in Hc as [Hx Hy].
  assert (Hprefix : String.prefix symbol (String c r) = false).
  { destruct Hsymbol as [->| ->]; cbn [String.prefix].
    - destruct (Ascii.ascii_dec "x" c) as [E|]; [|reflexivity].
      subst c. rewrite Ascii.eqb_refl in Hx. discriminate Hx.
    - destruct (Ascii.ascii_dec "y" c) as [E|]; [|reflexivity].
      subst c. rewrite Ascii.eqb_refl in Hy. discriminate Hy. }
  rewrite Hprefix, andb_false_r. now rewrite IH.
Qed.

(** X29.  An expression in which neither x nor y occurs reaches [eval] as it
    was typed, whatever the variable values of the round: unless it is
    blank, [evaluateExpression] answers what [eval] answers on the
    expression itself, and leaves the games as [eval] leaves them. *)
Theorem evaluateExpression_without_variables (expression : string)
    (difficulty : Difficulty) (us : list Q) (games : Games) :
  noVariables expression = true ->
  substituted expression (generateVariableValues difficulty us) = expression /\
  evaluateExpression eval expression (generateVariableValues difficulty us) games
    = if JS.isBlank expression then (None, games) else eval expression games.
Proof.
  intros Hplain.
  assert (Hsub : substituted expression (generateVariableValues difficulty us) = expression).
  { unfold substituted.
    rewrite (starBetween_right _ _ Hplain), (starBetween_right _ _ Hplain),
      (starBetween_left _ _ Hplain), (starBetween_left _ _ Hplain).
    destruct difficulty; cbn; unfold GameLogic.replaceAll;
      rewrite ?(replaceAll_absent _ _ expression) by auto; reflexivity. }
  split; [exact Hsub|]. unfold evaluateExpression. now rewrite Hsub.
Qed.

End PlainExpressions.

(** A sum of two cards on the hard profile. *)
Lemma evaluateExpression_without_variables_witness :
  GameManager.evaluateExpression Samples.scriptedEval "8 + 4"
    (GameManager.generateVariableValues GameManager.hard [1 # 2; 1 # 2]%Q) ∅
  = (Some (12 # 1)%Q, ∅).
Proof.
  assert (Hplain : ExprSpec.noVariables "8 + 4" = true) by reflexivity.
  rewrite (proj2 (evaluateExpression_without_variables Samples.scriptedEval "8 + 4"
                    GameManager.hard [1 # 2; 1 # 2]%Q ∅ Hplain)).
  reflexivity.
Defined.
